(** * orca-blender: the packager (package.py) and the renderer driver (render.py)

    A shallow embedding of the two scripts and the properties of their
    bookkeeping: frame file resolution, sequence counting, train/test routing,
    the validation errors of the packager, and the roughness AOV wiring of the
    renderer driver. *)

From Stdlib Require Import ZArith List String Ascii Bool Lia.
From Stdlib Require Import DecimalString DecimalN DecimalPos.
Import ListNotations.

Local Open Scope string_scope.
Local Open Scope Z_scope.

(** ** Python values shared by both scripts *)

(** Exceptions (and [exit]) that end a run.  Each constructor is one [raise]
    of the scripts or one failure of a library call they make. *)
Inductive exn : Type :=
| FileNotFoundError                          (* package.py:72 *)
| SystemExit (code : Z)                      (* package.py:78, exit(1) *)
| NotADirectoryError                         (* Path.iterdir on a regular file *)
| IndexError                                 (* package.py:87, subdirs[0] *)
| InconsistentFrames (resolution : string)   (* package.py:91, ValueError *)
| ZeroDivisionError                          (* package.py:94, n_frames // 0 *)
| NotEnoughFrames (frames_per_sequence : Z)  (* package.py:96, ValueError *)
| InvalidFormatSpecifier                     (* ValueError of a format spec such as 0-1d *)
| TooManyDigits                              (* ValueError of a format width above sys.maxsize *)
| NameAlreadyExists (path : list string)     (* h5py create_group / create_dataset *)
| CannotOpenExr (file : string)              (* OpenEXR.InputFile *)
| NoSuchChannel (channel : string)           (* InputFile.channel *)
| CannotReshape (size height width : Z)      (* ndarray.reshape, ValueError *)
| StackShapeMismatch                         (* np.stack, ValueError *)
| NoneNotSubscriptable                       (* package.py:158, frame_dimensions[0] *)
| KeyError (key : string)                    (* render.py:88/91/93, inputs[...] *)
| TypeError (message : string)               (* h5py attrs[...] = v; argparse add_argument *)
| InvalidOptionString (flag : string)        (* argparse add_argument, ValueError *)
| ConflictingOption (flag : string)          (* argparse add_argument, ArgumentError *)
| AttributeError (attribute : string).       (* render.py:75, aov_node.aov_name = ... *)

Inductive outcome (A : Type) : Type :=
| Raised (e : exn)
| Returned (a : A).
Arguments Raised {A} e.
Arguments Returned {A} a.

Module PyFormat.

(** [str(n)] for a natural number: its decimal digits. *)
Definition digits (n : N) : string := NilZero.string_of_uint (N.to_uint n).

Definition zeros (k : nat) : string := string_of_list_ascii (repeat "0"%char k).

(** [format(n, "0<width>d")] for [0 <= width]: sign-aware zero padding to at
    least [width] characters. *)
Definition zero_padded (width : Z) (n : Z) : string :=
  let ds := digits (Z.abs_N n) in
  let sign := if n <? 0 then "-" else "" in
  sign ++ zeros (Z.to_nat width - String.length sign - String.length ds) ++ ds.

(** [f"{n:0{width}d}"]: the format spec is the text ["0" + str(width) + "d"],
    which Python rejects when [width] is negative, and whose width cannot
    exceed [sys.maxsize], here that of a 64-bit build.  How much memory the
    padded text takes is not modelled. *)
Definition nested_zero_padded (width : Z) (n : Z) : outcome string :=
  if width <? 0 then Raised InvalidFormatSpecifier
  else if 2 ^ 63 <=? width then Raised TooManyDigits
  else Returned (zero_padded width n).

(** [name.endswith(suffix)], the test behind [glob("*" + suffix)]. *)
Definition has_suffix (suffix s : string) : bool :=
  let n := String.length s in
  let m := String.length suffix in
  (m <=? n)%nat && String.eqb (substring (n - m) m s) suffix.

(** [range(n)] *)
Definition range (n : Z) : list Z := map Z.of_nat (seq 0 (Z.to_nat n)).

(** [x in xs] on a list of integers *)
Definition mem_Z (x : Z) (xs : list Z) : bool := existsb (Z.eqb x) xs.

(** [x in xs] on a list of strings *)
Definition mem_string (x : string) (xs : list string) : bool :=
  existsb (String.eqb x) xs.

(** [range(start, stop)] *)
Definition range_from (start stop : Z) : list Z :=
  map (fun k => start + k) (range (stop - start)).

End PyFormat.

Module Package.
Import PyFormat.

(** *** Data *)

(** One float32 sample, kept as its IEEE-754 bit pattern: the packager only
    moves samples around. *)
Definition sample : Type := Z.

Record ndarray : Type := { shape : list Z; data : list sample }.

Record Box2i : Type := { min_x : Z; min_y : Z; max_x : Z; max_y : Z }.

(** What [OpenEXR.InputFile] gives access to: the header's data window and
    the named channels, each holding the samples of the whole data window. *)
Record exr_file : Type :=
  { dataWindow : Box2i; channels : list (string * list sample) }.

(** An entry of the input directory.  [contents] lists the entries of a
    subdirectory by name; [None] stands for anything [OpenEXR.InputFile]
    cannot open. *)
Record dir_entry : Type :=
  { name : string; is_dir : bool; contents : list (string * option exr_file) }.

Inductive fs_node : Type :=
| NoEntry
| RegularFile
| Directory (entries : list dir_entry).

(** The HDF5 archive: objects by absolute path in creation order, and integer
    attributes by (object path, key). *)
Inductive h5obj : Type :=
| H5Group
| H5Dataset (a : ndarray).

Record h5file : Type :=
  { objects : list (list string * h5obj);
    attrs : list (list string * string * Z) }.

Definition empty_h5 : h5file := {| objects := []; attrs := [] |}.

Record args : Type :=
  { dir : string;
    output : string;
    test_sequences : list Z;
    append : bool;
    overwrite : bool;
    frames_per_sequence : Z;
    frame_index_digits : Z;
    sequence_index_digits : Z }.

(** The parser's defaults for the optional settings (package.py:21-35). *)
Definition get_argument_parser (dir output : string) (test_sequences : list Z) : args :=
  {| dir := dir; output := output; test_sequences := test_sequences;
     append := false; overwrite := false;
     frames_per_sequence := 100; frame_index_digits := 3;
     sequence_index_digits := 3 |}.

(** What the scripts print or show, one constructor per output statement. *)
Inductive event : Type :=
| OutputExists                                       (* :77 *)
| FoundResolutions (existing : list string)          (* :82 *)
| PackagingResolutions (names : list string)         (* :85 *)
| FoundFrames (n_frames : Z) (resolution : string)   (* :88, :92 *)
| UsingFrames (frames_per_sequence n_sequences : Z)  (* :97 *)
| UsingTestSequences (test_sequences : list Z)       (* :98 *)
| PackagingResolution (resolution : string)          (* :110 *)
| Assembling (sequence : Z) (test : bool)            (* :122, :126 *)
| Progress (resolution file : string)                (* :135, set_description *)
| InconsistentDimensions (file : string).            (* :141 *)

(** *** A state, error and output monad

    A computation reads and writes a state [S], may raise, and emits the
    events it prints.  The state at a raise is kept: whatever was written to
    the archive before the failing step stays in it. *)
Definition M (S A : Type) : Type := S -> outcome A * S * list event.

Definition ret {S A} (a : A) : M S A := fun s => (Returned a, s, []).

Definition bind {S A B} (m : M S A) (k : A -> M S B) : M S B :=
  fun s =>
    match m s with
    | (Raised e, s1, l1) => (Raised e, s1, l1)
    | (Returned a, s1, l1) =>
        match k a s1 with
        | (r, s2, l2) => (r, s2, (l1 ++ l2)%list)
        end
    end.

Definition raise {S A} (e : exn) : M S A := fun s => (Raised e, s, []).

Definition print {S} (ev : event) : M S unit := fun s => (Returned tt, s, [ev]).

(** A pure, possibly raising computation run inside [M]. *)
Definition lift {S A} (o : outcome A) : M S A := fun s => (o, s, []).

(** A step on the state that may raise and leaves the state alone then. *)
Definition update {S} (f : S -> outcome S) : M S unit :=
  fun s =>
    match f s with
    | Raised e => (Raised e, s, [])
    | Returned s' => (Returned tt, s', [])
    end.

Declare Scope py_scope.
Delimit Scope py_scope with py.
Notation "x <- m ;; k" := (bind m (fun x => k))
  (at level 61, m at next level, right associativity) : py_scope.
Notation "m ;; k" := (bind m (fun _ => k))
  (at level 61, right associativity) : py_scope.
Local Open Scope py_scope.

(** [for x in xs: acc = body(acc, x)] with the loop's local variables in
    [acc]. *)
Fixpoint for_fold {S A X} (xs : list X) (acc : A) (body : A -> X -> M S A) : M S A :=
  match xs with
  | [] => ret acc
  | x :: xs' => acc' <- body acc x ;; for_fold xs' acc' body
  end.

Definition for_each {S X} (xs : list X) (body : X -> M S unit) : M S unit :=
  for_fold xs tt (fun _ x => body x).

(** The same sequencing for pure raising computations. *)
Definition obind {A B} (o : outcome A) (k : A -> outcome B) : outcome B :=
  match o with
  | Raised e => Raised e
  | Returned a => k a
  end.

Notation "x <~ o ;; k" := (obind o (fun x => k))
  (at level 61, o at next level, right associativity) : py_scope.

(** *** Library calls: h5py, OpenEXR, numpy *)

Definition path_eqb (p q : list string) : bool :=
  if list_eq_dec string_dec p q then true else false.

Definition h5_exists (f : h5file) (p : list string) : bool :=
  existsb (fun o => path_eqb (fst o) p) (objects f).

(** [create_group] and [create_dataset] refuse a name that is taken. *)
Definition create (p : list string) (o : h5obj) (f : h5file) : outcome h5file :=
  if h5_exists f p then Raised (NameAlreadyExists p)
  else Returned {| objects := (objects f ++ [(p, o)])%list; attrs := attrs f |}.

(** The path of the object [nm] of the group at [parent]. *)
Definition child (parent : list string) (nm : string) : list string :=
  (parent ++ [nm])%list.

Definition create_group (parent : list string) (nm : string) : M h5file unit :=
  update (create (child parent nm) H5Group).

Definition create_dataset (parent : list string) (nm : string) (a : ndarray)
  : M h5file unit :=
  update (create (child parent nm) (H5Dataset a)).

(** The order in which h5py lists the members of a group: increasing by
    name, byte by byte. *)
Fixpoint insert_by_name (x : string) (l : list string) : list string :=
  match l with
  | [] => [x]
  | y :: rest => if String.leb x y then x :: l else y :: insert_by_name x rest
  end.

Definition by_name (l : list string) : list string := fold_right insert_by_name [] l.

(** [list(f.keys())]: the names of the top-level objects, by name. *)
Definition keys (f : h5file) : list string :=
  by_name (flat_map (fun o => match fst o with [k] => [k] | _ => [] end) (objects f)).

Fixpoint assign (p : list string) (k : string) (v : Z)
  (l : list (list string * string * Z)) : list (list string * string * Z) :=
  match l with
  | [] => [(p, k, v)]
  | (p', k', v') :: l' =>
      if path_eqb p' p && String.eqb k' k then (p, k, v) :: l'
      else (p', k', v') :: assign p k v l'
  end.

(** The Python integers an attribute can hold: numpy makes the value an
    [int64] or, from [2 ** 63] on, a [uint64]; any other integer becomes an
    array of objects, for which there is no HDF5 type. *)
Definition storable (v : Z) : bool := (- 2 ^ 63 <=? v) && (v <? 2 ^ 64).

(** [obj.attrs[k] = v] *)
Definition set_attr (p : list string) (k : string) (v : Z) : M h5file unit :=
  fun f =>
    if storable v
    then (Returned tt, {| objects := objects f; attrs := assign p k v (attrs f) |}, [])
    else (Raised (TypeError "Object dtype dtype('O') has no native HDF5 equivalent"),
          f, []).

(** [OpenEXR.InputFile(str(subdir / file_name))] *)
Definition InputFile (subdir : dir_entry) (file_name : string) : outcome exr_file :=
  match find (fun e => String.eqb (fst e) file_name) (contents subdir) with
  | Some (_, Some exr) => Returned exr
  | _ => Raised (CannotOpenExr file_name)
  end.

(** [file.channel(cname)] *)
Definition channel (file : exr_file) (cname : string) : outcome (list sample) :=
  match find (fun c => String.eqb (fst c) cname) (channels file) with
  | Some (_, buf) => Returned buf
  | None => Raised (NoSuchChannel cname)
  end.

(** [np.frombuffer(buf, dtype=np.float32)] *)
Definition frombuffer (buf : list sample) : ndarray :=
  {| shape := [Z.of_nat (List.length buf)]; data := buf |}.

(** [a.reshape(height, width)]: the sizes must agree; a single [-1] is
    inferred from the other dimension. *)
Definition reshape (a : ndarray) (height width : Z) : outcome ndarray :=
  let size := Z.of_nat (List.length (data a)) in
  let fail := Raised (CannotReshape size height width) in
  let infer (known : Z) : option Z :=
    if (0 <? known) && (size mod known =? 0) then Some (size / known) else None in
  if (height <? -1) || (width <? -1) then fail
  else if (height =? -1) && (width =? -1) then fail
  else if height =? -1 then
    match infer width with
    | Some h => Returned {| shape := [h; width]; data := data a |}
    | None => fail
    end
  else if width =? -1 then
    match infer height with
    | Some w => Returned {| shape := [height; w]; data := data a |}
    | None => fail
    end
  else if height * width =? size then
    Returned {| shape := [height; width]; data := data a |}
  else fail.

Definition shape_eqb (s t : list Z) : bool :=
  if list_eq_dec Z.eq_dec s t then true else false.

(** [np.stack(arrays, axis=0)] *)
Definition stack (arrays : list ndarray) : outcome ndarray :=
  match arrays with
  | [] => Raised StackShapeMismatch
  | a0 :: rest =>
      if forallb (fun a => shape_eqb (shape a) (shape a0)) rest
      then Returned {| shape := Z.of_nat (List.length arrays) :: shape a0;
                       data := List.concat (map data arrays) |}
      else Raised StackShapeMismatch
  end.

(** *** package.py *)

(** [len([file for file in subdir.glob("*.exr")])] *)
Definition peak_frame_count (subdir : dir_entry) : Z :=
  Z.of_nat (List.length (filter (fun e => has_suffix ".exr" (fst e)) (contents subdir))).

Definition load_exr_layer (file : exr_file) (layer : string) (width height : Z)
  (with_alpha use_xyzw : bool) : outcome ndarray :=
  r <~ channel file ("ViewLayer." ++ layer ++ (if use_xyzw then ".X" else ".R")) ;;
  g <~ channel file ("ViewLayer." ++ layer ++ (if use_xyzw then ".Y" else ".G")) ;;
  b <~ channel file ("ViewLayer." ++ layer ++ (if use_xyzw then ".Z" else ".B")) ;;
  r_array <~ reshape (frombuffer r) height width ;;
  g_array <~ reshape (frombuffer g) height width ;;
  b_array <~ reshape (frombuffer b) height width ;;
  if with_alpha then
    a <~ channel file ("ViewLayer." ++ layer ++ (if use_xyzw then ".W" else ".A")) ;;
    a_array <~ reshape (frombuffer a) height width ;;
    stack [r_array; g_array; b_array; a_array]
  else stack [r_array; g_array; b_array].

Definition load_exr_layer_single (file : exr_file) (layer : string) (width height : Z)
  : outcome ndarray :=
  x <~ channel file ("ViewLayer." ++ layer) ;;
  reshape (frombuffer x) height width.

Definition get_image_dims (header : Box2i) : Z * Z :=
  (max_x header - min_x header + 1, max_y header - min_y header + 1).

Definition dims_eqb (d e : Z * Z) : bool :=
  (fst d =? fst e) && (snd d =? snd e).

(** The thirteen datasets of a frame (package.py:144-156), in order: the
    dataset name and how its array is loaded. *)
Inductive layer_source : Type :=
| Layer (layer : string) (with_alpha use_xyzw : bool)
| Single (layer : string).

Definition frame_datasets : list (string * layer_source) :=
  [ ("combined", Layer "Combined" true false);
    ("normal", Layer "Normal" false true);
    ("vector", Layer "Vector" true true);
    ("depth", Single "Mist.Z");
    ("diffuse-col", Layer "DiffCol" false false);
    ("diffuse-dir", Layer "DiffDir" false false);
    ("diffuse-ind", Layer "DiffInd" false false);
    ("glossy-col", Layer "GlossCol" false false);
    ("glossy-dir", Layer "GlossDir" false false);
    ("glossy-ind", Layer "GlossInd" false false);
    ("emission", Layer "Emit" false false);
    ("environment", Layer "Env" false false);
    ("roughness", Single "Roughness.X") ].

Definition load_source (file : exr_file) (width height : Z) (src : layer_source)
  : outcome ndarray :=
  match src with
  | Layer layer with_alpha use_xyzw =>
      load_exr_layer file layer width height with_alpha use_xyzw
  | Single layer => load_exr_layer_single file layer width height
  end.

(** package.py:133, the name of the source image of a frame. *)
Definition frame_file_name (a : args) (sequence frame : Z) : string :=
  "frame-" ++ zero_padded 4 (frame + frames_per_sequence a * sequence + 1) ++ ".exr".

(** package.py:138-141 *)
Definition check_dimensions (frame_dimensions : option (Z * Z)) (exr : exr_file)
  (file_name : string) : M h5file (Z * Z) :=
  match frame_dimensions with
  | None => ret (get_image_dims (dataWindow exr))
  | Some d =>
      if negb (dims_eqb d (get_image_dims (dataWindow exr)))
      then print (InconsistentDimensions file_name) ;; ret d
      else ret d
  end.

(** package.py:132-156, the body of the loop over the frames of a sequence. *)
Definition frame_body (a : args) (subdir : dir_entry) (seq_group : list string)
  (sequence : Z) (frame_dimensions : option (Z * Z)) (frame : Z)
  : M h5file (option (Z * Z)) :=
  group_name <- lift (nested_zero_padded (frame_index_digits a) frame) ;;
  create_group seq_group ("frame-" ++ group_name) ;;
  let frame_group := child seq_group ("frame-" ++ group_name) in
  let frame_file := frame_file_name a sequence frame in
  print (Progress (name subdir) frame_file) ;;
  exr <- lift (InputFile subdir frame_file) ;;
  dims <- check_dimensions frame_dimensions exr frame_file ;;
  let '(width, height) := dims in
  for_each frame_datasets (fun '(dataset, src) =>
    arr <- lift (load_source exr width height src) ;;
    create_dataset frame_group dataset arr) ;;
  ret (Some dims).

(** package.py:121-156, the body of the loop over the sequences; the loop's
    variables are [(train_seq_index, test_seq_index, frame_dimensions)]. *)
Definition sequence_body (a : args) (subdir : dir_entry)
  (vars : Z * Z * option (Z * Z)) (sequence : Z) : M h5file (Z * Z * option (Z * Z)) :=
  let '(train_seq_index, test_seq_index, frame_dimensions) := vars in
  let resolution_group := [name subdir] in
  if mem_Z sequence (test_sequences a) then
    print (Assembling sequence true) ;;
    group_name <- lift (nested_zero_padded (sequence_index_digits a) test_seq_index) ;;
    let test_group := child resolution_group "test" in
    create_group test_group ("seq-" ++ group_name) ;;
    let seq_group := child test_group ("seq-" ++ group_name) in
    dims <- for_fold (range (frames_per_sequence a)) frame_dimensions
              (frame_body a subdir seq_group sequence) ;;
    ret (train_seq_index, test_seq_index + 1, dims)
  else
    print (Assembling sequence false) ;;
    group_name <- lift (nested_zero_padded (sequence_index_digits a) train_seq_index) ;;
    let train_group := child resolution_group "train" in
    create_group train_group ("seq-" ++ group_name) ;;
    let seq_group := child train_group ("seq-" ++ group_name) in
    dims <- for_fold (range (frames_per_sequence a)) frame_dimensions
              (frame_body a subdir seq_group sequence) ;;
    ret (train_seq_index + 1, test_seq_index, dims).

(** package.py:110-159, the body of the loop over the resolutions. *)
Definition package_resolution (a : args) (n_sequences : Z) (subdir : dir_entry)
  : M h5file unit :=
  print (PackagingResolution (name subdir)) ;;
  create_group [] (name subdir) ;;
  let resolution_group := [name subdir] in
  create_group resolution_group "train" ;;
  create_group resolution_group "test" ;;
  vars <- for_fold (range n_sequences) (0, 0, None) (sequence_body a subdir) ;;
  match snd vars with
  | None => raise NoneNotSubscriptable
  | Some (width, height) =>
      set_attr resolution_group "frame-width" width ;;
      set_attr resolution_group "frame-height" height
  end.

(** package.py:102-159, what runs inside [with h5py.File(...) as f]. *)
Definition write_archive (a : args) (subdirs : list dir_entry) (n_frames n_sequences : Z)
  : M h5file unit :=
  set_attr [] "total-frames" n_frames ;;
  set_attr [] "frames-per-sequence" (frames_per_sequence a) ;;
  set_attr [] "sequence-index-digits" (sequence_index_digits a) ;;
  set_attr [] "frame-index-digits" (frame_index_digits a) ;;
  set_attr [] "test-sequences" (Z.of_nat (List.length (test_sequences a))) ;;
  set_attr [] "train-sequences" (n_sequences - Z.of_nat (List.length (test_sequences a))) ;;
  for_each subdirs (package_resolution a n_sequences).

(** package.py:75-82, [existing_resolutions]: refuse an existing output
    unless a mode is given, and read its top-level names when appending. *)
Definition existing_resolutions (a : args) (output_file : option h5file)
  : M unit (list string) :=
  match output_file with
  | Some f =>
      if negb (append a) && negb (overwrite a) then
        print OutputExists ;; raise (SystemExit 1)
      else if negb (overwrite a) then
        print (FoundResolutions (keys f)) ;; ret (keys f)
      else ret []
  | None => ret []
  end.

(** package.py:84 *)
Definition select_subdirs (entries : list dir_entry) (existing : list string)
  : list dir_entry :=
  filter (fun d => is_dir d && negb (mem_string (name d) existing)) entries.

(** package.py:89-92 *)
Definition check_frame_count (n_frames : Z) (subdir : dir_entry) : M unit unit :=
  if negb (peak_frame_count subdir =? n_frames)
  then raise (InconsistentFrames (name subdir))
  else print (FoundFrames n_frames (name subdir)).

(** package.py:70-98: everything before the archive is opened.  Returns
    [(subdirs, n_frames, n_sequences)]. *)
Definition preflight (a : args) (input_dir : fs_node) (output_file : option h5file)
  : M unit (list dir_entry * Z * Z) :=
  match input_dir with
  | NoEntry => raise FileNotFoundError
  | _ =>
      existing <- existing_resolutions a output_file ;;
      match input_dir with
      | Directory entries =>
          let subdirs := select_subdirs entries existing in
          print (PackagingResolutions (map name subdirs)) ;;
          match subdirs with
          | [] => raise IndexError
          | first :: others =>
              let n_frames := peak_frame_count first in
              print (FoundFrames n_frames (name first)) ;;
              for_each others (check_frame_count n_frames) ;;
              if frames_per_sequence a =? 0 then raise ZeroDivisionError
              else
                let n_sequences := n_frames / frames_per_sequence a in
                if n_sequences <=? 0
                then raise (NotEnoughFrames (frames_per_sequence a))
                else
                  print (UsingFrames (frames_per_sequence a) n_sequences) ;;
                  print (UsingTestSequences (test_sequences a)) ;;
                  ret (subdirs, n_frames, n_sequences)
          end
      | _ => raise NotADirectoryError
      end
  end.

(** [h5py.File(args.output, 'a' if args.append else 'w')]: mode [a] keeps an
    existing file, mode [w] starts from an empty one. *)
Definition open_archive (a : args) (output_file : option h5file) : h5file :=
  if append a then
    match output_file with
    | Some f => f
    | None => empty_h5
    end
  else empty_h5.

(** What a run leaves behind: how it ended, the output file, whether the
    output's parent directory was created (package.py:100), and what was
    printed. *)
Record run : Type :=
  { result : outcome unit;
    archive : option h5file;
    parent_made : bool;
    stdout : list event }.

(** package.py:67-159 *)
Definition main (a : args) (input_dir : fs_node) (output_file : option h5file) : run :=
  match preflight a input_dir output_file tt with
  | (Raised e, _, printed) =>
      {| result := Raised e; archive := output_file; parent_made := false;
         stdout := printed |}
  | (Returned (subdirs, n_frames, n_sequences), _, printed) =>
      match write_archive a subdirs n_frames n_sequences (open_archive a output_file) with
      | (r, f, printed') =>
          {| result := r; archive := Some f; parent_made := true;
             stdout := (printed ++ printed')%list |}
      end
  end.

(** [obj.attrs[k]] read back: the value stored for key [k] of the object at
    [p]. *)
Definition get_attr (f : h5file) (p : list string) (k : string) : option Z :=
  option_map snd
    (find (fun x => path_eqb (fst (fst x)) p && String.eqb (snd (fst x)) k) (attrs f)).

(** [f[p]]: the object stored at the path [p]. *)
Definition stored (f : h5file) (p : list string) : option h5obj :=
  option_map snd (find (fun o => path_eqb (fst o) p) (objects f)).

End Package.

(** ** render.py: the roughness AOV of every material (render.py:52-93) *)
Module Render.

(** A socket's [default_value]: a float (by its bit pattern) or a colour. *)
Inductive socket_value : Type :=
| VFloat (bits : Z)
| VColor (r g b a : Z).

(** A node of a material's node tree.  [type] is [node.type]; [inputs] are
    the input sockets by name with their [default_value]. *)
Record node : Type :=
  { name : string;
    type : string;
    aov_name : string;
    inputs : list (string * socket_value) }.

(** A link of the tree, from an output socket to an input socket, each
    given by the name of its node and its own name. *)
Record link : Type :=
  { from_node : string; from_socket : string;
    to_node : string; to_socket : string }.

(** [bpy.types.Material]: [nodes] and [links] are those of its
    [node_tree]. *)
Record material : Type :=
  { material_name : string;
    use_nodes : bool;
    nodes : list node;
    links : list link }.

Definition rough_pass_name : string := "Roughness".

(** [nodes.get(key)] *)
Definition get (key : string) (ns : list node) : option node :=
  find (fun n => String.eqb (name n) key) ns.

(** [nodes.new(type="ShaderNodeOutputAOV")] followed by
    [aov_node.name = "AOV Output"]: a fresh AOV output node with its two
    inputs at their defaults. *)
Definition new_aov_node : node :=
  {| name := "AOV Output"; type := "OUTPUT_AOV"; aov_name := "";
     inputs := [("Color", VColor 0 0 0 0); ("Value", VFloat 0)] |}.

(** An assignment to an attribute of the node called [key]: the first node
    of that name, the one [nodes.get] returned. *)
Fixpoint update_node (key : string) (f : node -> node) (ns : list node) : list node :=
  match ns with
  | [] => []
  | n :: rest =>
      if String.eqb (name n) key then f n :: rest
      else n :: update_node key f rest
  end.

(** [aov_node.aov_name = value] on the node called [key]: only an AOV
    output node has the attribute. *)
Definition set_aov_name (key value : string) (ns : list node) : outcome (list node) :=
  match get key ns with
  | Some n =>
      if String.eqb (type n) "OUTPUT_AOV"
      then Returned
             (update_node key
                (fun n => {| name := name n; type := type n; aov_name := value;
                             inputs := inputs n |}) ns)
      else Raised (AttributeError "aov_name")
  | None => Raised (AttributeError "aov_name")
  end.

Fixpoint set_input (socket : string) (v : socket_value)
  (ins : list (string * socket_value)) : list (string * socket_value) :=
  match ins with
  | [] => []
  | i :: rest =>
      if String.eqb (fst i) socket then (fst i, v) :: rest
      else i :: set_input socket v rest
  end.

Definition set_default_value (key socket : string) (v : socket_value)
  (ns : list node) : list node :=
  update_node key
    (fun n => {| name := name n; type := type n; aov_name := aov_name n;
                 inputs := set_input socket v (inputs n) |}) ns.

(** [node.inputs[socket]] *)
Definition input (n : node) (socket : string) : outcome socket_value :=
  match find (fun i => String.eqb (fst i) socket) (inputs n) with
  | Some (_, v) => Returned v
  | None => Raised (KeyError socket)
  end.

(** [socket.links] of the input [socket] of the node [key], in tree order. *)
Definition links_to (key socket : string) (ls : list link) : list link :=
  filter (fun l => String.eqb (to_node l) key && String.eqb (to_socket l) socket) ls.

(** [links.new(source, node.inputs[socket])]: an input socket holds one
    link, so a link already ending there is replaced. *)
Definition links_new (src_node src_socket key socket : string) (ls : list link)
  : list link :=
  (filter (fun l => negb (String.eqb (to_node l) key && String.eqb (to_socket l) socket)) ls
   ++ [ {| from_node := src_node; from_socket := src_socket;
           to_node := key; to_socket := socket |} ])%list.

Definition with_tree (m : material) (ns : list node) (ls : list link) : material :=
  {| material_name := material_name m; use_nodes := use_nodes m;
     nodes := ns; links := ls |}.

(** render.py:61-93, the body of the loop over the materials. *)
Definition setup_material (m : material) : outcome material :=
  if negb (use_nodes m) then Returned m
  else
    let nodes1 :=
      match get "AOV Output" (nodes m) with
      | Some _ => nodes m
      | None => (nodes m ++ [new_aov_node])%list
      end in
    match set_aov_name "AOV Output" rough_pass_name nodes1 with
    | Raised e => Raised e
    | Returned nodes2 =>
    match find (fun n => String.eqb (type n) "BSDF_PRINCIPLED") nodes2 with
    | None => Returned (with_tree m nodes2 (links m))
    | Some bsdf_node =>
        match input bsdf_node "Roughness" with
        | Raised e => Raised e
        | Returned roughness_default =>
            let aov_value :=
              match get "AOV Output" nodes2 with
              | Some aov_node => input aov_node "Value"
              | None => Raised (KeyError "Value")
              end in
            match links_to (name bsdf_node) "Roughness" (links m) with
            | l :: _ =>
                match aov_value with
                | Raised e => Raised e
                | Returned _ =>
                    Returned (with_tree m nodes2
                      (links_new (from_node l) (from_socket l) "AOV Output" "Value"
                         (links m)))
                end
            | [] =>
                match aov_value with
                | Raised e => Raised e
                | Returned _ =>
                    Returned (with_tree m
                      (set_default_value "AOV Output" "Value" roughness_default nodes2)
                      (links m))
                end
            end
        end
    end
    end.

(** render.py:60-93, [for material in bpy.data.materials]. *)
Fixpoint setup_materials (materials : list material) : outcome (list material) :=
  match materials with
  | [] => Returned []
  | m :: rest =>
      match setup_material m with
      | Raised e => Raised e
      | Returned m' =>
          match setup_materials rest with
          | Raised e => Raised e
          | Returned rest' => Returned (m' :: rest')
          end
      end
  end.

(** What the loop is meant to achieve for a material: an AOV output node
    carrying the roughness pass. *)
Definition has_roughness_aov (m : material) : Prop :=
  exists aov_node,
    get "AOV Output" (nodes m) = Some aov_node /\ aov_name aov_node = rough_pass_name.

(** *** render.py: the frame loop (render.py:109-115) *)

(** render.py:110-112, the frames rendered: the scene's own first and last
    frame unless the argument is given, an argument of [0] counting as not
    given. *)
Definition frames_to_render (scene_frame_start scene_frame_end : Z)
  (frame_start frame_end : Z) : list Z :=
  let start_frame := if frame_start =? 0 then scene_frame_start else frame_start in
  let end_frame := if frame_end =? 0 then scene_frame_end else frame_end in
  PyFormat.range_from start_frame (end_frame + 1).

(** render.py:114, the file of a frame within the output folder, before the
    renderer adds the extension of the image format. *)
Definition filepath (frame : Z) : string := "frame-" ++ PyFormat.zero_padded 4 frame.

(** render.py:36 and 114-115: with the file format [OPEN_EXR_MULTILAYER]
    the renderer writes the still of a frame to the file path with the
    extension [.exr] added. *)
Definition rendered_file (frame : Z) : string := filepath frame ++ ".exr".

(** Writing a file into the output folder: a file of that name is
    replaced. *)
Definition write_still (file_name : string) (image : Package.exr_file)
  (folder : list (string * option Package.exr_file))
  : list (string * option Package.exr_file) :=
  if existsb (fun e => String.eqb (fst e) file_name) folder
  then map (fun e => if String.eqb (fst e) file_name
                     then (file_name, Some image) else e) folder
  else (folder ++ [(file_name, Some image)])%list.

(** render.py:112-115, the frame loop on the output folder; [render] is
    the image the renderer computes for a frame. *)
Definition render_frames (render : Z -> Package.exr_file) (frames : list Z)
  (folder : list (string * option Package.exr_file))
  : list (string * option Package.exr_file) :=
  fold_left (fun folder frame => write_still (rendered_file frame) (render frame) folder)
            frames folder.

(** A link that ends in the given input socket. *)
Definition ends_in (key socket : string) (l : link) : bool :=
  String.eqb (to_node l) key && String.eqb (to_socket l) socket.

(** *** render.py: the run of the script (render.py:6-115) *)

(** One [parser.add_argument(...)] call: the name or flags given, and the
    keyword arguments of the script's calls ([None] for one not passed). *)
Record argument : Type :=
  { flags : list string;
    required : option bool;
    type_name : option string;
    action : option string;
    default : option Z;
    help : string }.

Definition starts_with_dash (s : string) : bool :=
  match s with
  | String c _ => Ascii.eqb c "-"
  | EmptyString => false
  end.

(** argparse's [add_argument].  No name, or one name that does not start
    with [-], declares a positional argument, and the keyword [required] is
    refused for a positional; otherwise every flag has to start with [-],
    and none may be a flag of the parser already. *)
Definition add_argument (arg : argument) (parser : list argument)
  : outcome (list argument) :=
  let positional :=
    match required arg with
    | Some _ => Raised (TypeError "'required' is an invalid argument for positionals")
    | None => Returned (parser ++ [arg])%list
    end in
  let optional :=
    match find (fun f => negb (starts_with_dash f)) (flags arg) with
    | Some f => Raised (InvalidOptionString f)
    | None =>
        match find (fun f => existsb (fun a => existsb (String.eqb f) (flags a)) parser)
                   (flags arg) with
        | Some f => Raised (ConflictingOption f)
        | None => Returned (parser ++ [arg])%list
        end
    end in
  match flags arg with
  | [] => positional
  | [EmptyString] => Raised IndexError
  | [nm] => if starts_with_dash nm then optional else positional
  | _ => optional
  end.

Fixpoint add_arguments (args : list argument) (parser : list argument)
  : outcome (list argument) :=
  match args with
  | [] => Returned parser
  | arg :: rest =>
      match add_argument arg parser with
      | Raised e => Raised e
      | Returned parser' => add_arguments rest parser'
      end
  end.

(** render.py:8-14, the seven calls in order. *)
Definition script_arguments : list argument :=
  [ {| flags := ["file"]; required := Some true; type_name := Some "str";
       action := None; default := None; help := "Path to the Blender file" |};
    {| flags := ["-o"; "--out-dir"]; required := Some true; type_name := Some "str";
       action := None; default := None; help := "Path to the output folder" |};
    {| flags := ["-l"; "--low-res"]; required := None; type_name := None;
       action := Some "store_true"; default := None;
       help := "Render at low resolution (400x225)" |};
    {| flags := ["-s"; "--samples"]; required := None; type_name := Some "int";
       action := None; default := Some 1024;
       help := "Per-pixel sample count, default: 1024" |};
    {| flags := ["-b"; "--motion-blur"]; required := None; type_name := None;
       action := Some "store_true"; default := None;
       help := "Render with motion blur enabled" |};
    {| flags := ["-fs"; "--frame-start"]; required := None; type_name := Some "int";
       action := None; default := Some 0;
       help := "The frame number to start rendering from" |};
    {| flags := ["-fe"; "--frame-end"]; required := None; type_name := Some "int";
       action := None; default := Some 0;
       help := "The frame number after which rendering will end" |} ].

(** The namespace [parse_args] returns. *)
Record render_args : Type :=
  { file : string;
    out_dir : string;
    low_res : bool;
    samples : Z;
    motion_blur : bool;
    frame_start : Z;
    frame_end : Z }.

(** What the script reads of Blender once the file is loaded: whether the
    preferences have the add-on [cycles] and the scene a view layer called
    [ViewLayer], the scene's frame range, and the materials. *)
Record blender : Type :=
  { cycles_addon : bool;
    view_layer : bool;
    scene_frame_start : Z;
    scene_frame_end : Z;
    materials : list material }.

(** What a run leaves behind: how it ended, whether the output folder was
    made (render.py:20), and the files of the output folder. *)
Record render_run : Type :=
  { render_result : outcome unit;
    out_dir_made : bool;
    written : list (string * option Package.exr_file) }.

(** render.py:6-115.  The libraries' parts are arguments: [parse_args] is
    argparse reading the command line with the parser built, [open_mainfile]
    loads the file, and [render] is the image the renderer computes for a
    frame with the settings of render.py:31-50 and 96-107 and the materials
    as the loop leaves them; the render operator is taken to succeed. *)
Definition main
  (parse_args : list argument -> list string -> outcome render_args)
  (open_mainfile : string -> outcome blender)
  (render : render_args -> list material -> Z -> Package.exr_file)
  (argv : list string) (folder : list (string * option Package.exr_file))
  : render_run :=
  let stopped made e :=
    {| render_result := Raised e; out_dir_made := made; written := folder |} in
  match add_arguments script_arguments [] with
  | Raised e => stopped false e
  | Returned parser =>
  match parse_args parser argv with
  | Raised e => stopped false e
  | Returned args =>
  match open_mainfile (file args) with
  | Raised e => stopped true e
  | Returned b =>
  if negb (cycles_addon b) then stopped true (KeyError "cycles")
  else if negb (view_layer b) then stopped true (KeyError "ViewLayer")
  else
    match setup_materials (materials b) with
    | Raised e => stopped true e
    | Returned materials' =>
        {| render_result := Returned tt; out_dir_made := true;
           written :=
             render_frames (render args materials')
               (frames_to_render (scene_frame_start b) (scene_frame_end b)
                  (frame_start args) (frame_end args))
               folder |}
    end
  end
  end
  end.

End Render.

(** ** Concrete inputs used by the examples and witnesses *)
Module Samples.
Import PyFormat Package.

(** The channels of a multilayer image written by the renderer driver. *)
Definition blender_channels : list string :=
  [ "ViewLayer.Combined.R"; "ViewLayer.Combined.G"; "ViewLayer.Combined.B";
    "ViewLayer.Combined.A";
    "ViewLayer.Normal.X"; "ViewLayer.Normal.Y"; "ViewLayer.Normal.Z";
    "ViewLayer.Vector.X"; "ViewLayer.Vector.Y"; "ViewLayer.Vector.Z";
    "ViewLayer.Vector.W";
    "ViewLayer.Mist.Z";
    "ViewLayer.DiffCol.R"; "ViewLayer.DiffCol.G"; "ViewLayer.DiffCol.B";
    "ViewLayer.DiffDir.R"; "ViewLayer.DiffDir.G"; "ViewLayer.DiffDir.B";
    "ViewLayer.DiffInd.R"; "ViewLayer.DiffInd.G"; "ViewLayer.DiffInd.B";
    "ViewLayer.GlossCol.R"; "ViewLayer.GlossCol.G"; "ViewLayer.GlossCol.B";
    "ViewLayer.GlossDir.R"; "ViewLayer.GlossDir.G"; "ViewLayer.GlossDir.B";
    "ViewLayer.GlossInd.R"; "ViewLayer.GlossInd.G"; "ViewLayer.GlossInd.B";
    "ViewLayer.Emit.R"; "ViewLayer.Emit.G"; "ViewLayer.Emit.B";
    "ViewLayer.Env.R"; "ViewLayer.Env.G"; "ViewLayer.Env.B";
    "ViewLayer.Roughness.X" ].

(** A rendered frame of [width] x [height] pixels, every sample [v]. *)
Definition rendered (width height : nat) (v : sample) : exr_file :=
  {| dataWindow := {| min_x := 0; min_y := 0;
                      max_x := Z.of_nat width - 1; max_y := Z.of_nat height - 1 |};
     channels := map (fun c => (c, repeat v (width * height))) blender_channels |}.

(** A resolution directory holding frames [frame-0001.exr] ... of the given
    images. *)
Definition resolution (nm : string) (frames : list exr_file) : dir_entry :=
  {| name := nm; is_dir := true;
     contents :=
       map (fun '(i, img) => ("frame-" ++ zero_padded 4 (Z.of_nat i) ++ ".exr", Some img))
           (combine (seq 1 (List.length frames)) frames) |}.

Definition small (k : nat) : list exr_file := repeat (rendered 1 1 0) k.

Definition args0 : args := get_argument_parser "renders" "out.h5" [1].

Definition with_fps (a : args) (fps : Z) : args :=
  {| dir := dir a; output := output a; test_sequences := test_sequences a;
     append := append a; overwrite := overwrite a;
     frames_per_sequence := fps; frame_index_digits := frame_index_digits a;
     sequence_index_digits := sequence_index_digits a |}.

Definition with_mode (a : args) (append_flag overwrite_flag : bool) : args :=
  {| dir := dir a; output := output a; test_sequences := test_sequences a;
     append := append_flag; overwrite := overwrite_flag;
     frames_per_sequence := frames_per_sequence a;
     frame_index_digits := frame_index_digits a;
     sequence_index_digits := sequence_index_digits a |}.

(** An archive already holding the resolutions [A] and [B]. *)
Definition archive_AB : h5file :=
  {| objects := [(["A"], H5Group); (["B"], H5Group)];
     attrs := [([], "total-frames", 4); (["A"], "frame-width", 1)] |}.

Definition res_A : dir_entry := resolution "A" (small 4).
Definition res_B : dir_entry := resolution "B" (small 4).
Definition res_C : dir_entry := resolution "C" (small 4).

(** Two frames per sequence, sequence 1 for testing. *)
Definition args2 : args := with_fps args0 2.

(** Resolutions [X] with 97 frames and [Y] with 100. *)
Definition res_X : dir_entry := resolution "X" (small 97).
Definition res_Y : dir_entry := resolution "Y" (small 100).

(** A resolution whose second frame is larger than its first. *)
Definition res_mixed : dir_entry :=
  resolution "A" [rendered 1 1 0; rendered 2 2 0].

(** A resolution whose frames are named with three digits. *)
Definition res_three_digits : dir_entry :=
  {| name := "A"; is_dir := true;
     contents := [("frame-001.exr", Some (rendered 1 1 0));
                  ("frame-002.exr", Some (rendered 1 1 0))] |}.

Definition res_five : dir_entry := resolution "A" (small 5).

(** Eight frames in sequences of two, sequences 1 and 3 for testing. *)
Definition res_eight : dir_entry := resolution "A" (small 8).

Definition args_split : args :=
  with_fps (get_argument_parser "renders" "out.h5" [1; 3]) 2.

(** Materials for the renderer driver. *)
Definition principled (nm : string) (roughness : Z) : Render.node :=
  {| Render.name := nm; Render.type := "BSDF_PRINCIPLED"; Render.aov_name := "";
     Render.inputs := [("Base Color", Render.VColor 1 1 1 1);
                       ("Roughness", Render.VFloat roughness)] |}.

Definition texture (nm : string) : Render.node :=
  {| Render.name := nm; Render.type := "TEX_IMAGE"; Render.aov_name := "";
     Render.inputs := [("Vector", Render.VColor 0 0 0 0)] |}.

(** A material that does not use nodes. *)
Definition plain : Render.material :=
  {| Render.material_name := "Plain"; Render.use_nodes := false;
     Render.nodes := []; Render.links := [] |}.

(** A material whose roughness is a constant. *)
Definition matte : Render.material :=
  {| Render.material_name := "Matte"; Render.use_nodes := true;
     Render.nodes := [principled "Principled BSDF" 1056964608];
     Render.links := [] |}.

(** A material whose roughness comes from a texture. *)
Definition textured : Render.material :=
  {| Render.material_name := "Textured"; Render.use_nodes := true;
     Render.nodes := [texture "Image Texture"; principled "Principled BSDF" 0];
     Render.links :=
       [ {| Render.from_node := "Image Texture"; Render.from_socket := "Color";
            Render.to_node := "Principled BSDF"; Render.to_socket := "Roughness" |} ] |}.

Definition scene : list Render.material := [plain; matte; textured].

Definition scene_after : list Render.material :=
  match Render.setup_materials scene with
  | Returned s => s
  | Raised _ => []
  end.

(** A resolution whose second frame has the pixels of the first, turned. *)
Definition res_turned : dir_entry :=
  resolution "A" [rendered 2 3 0; rendered 3 2 0].

(** A resolution with too few frames for one sequence of two. *)
Definition res_one : dir_entry := resolution "A" (small 1).

(** Two frames per sequence, and a negative sequence-index digit width. *)
Definition args_negative : args :=
  {| dir := dir args2; output := output args2; test_sequences := test_sequences args2;
     append := false; overwrite := false;
     frames_per_sequence := 2; frame_index_digits := 3;
     sequence_index_digits := -1 |}.

(** The textured material after the loop body. *)
Definition textured_after : Render.material :=
  match Render.setup_material textured with
  | Returned m => m
  | Raised _ => textured
  end.

(** A renderer that computes the same small image for every frame. *)
Definition render_small (frame : Z) : exr_file := rendered 1 1 0.

(** The folder written for the frames 1 to 5. *)
Definition rendered_five : dir_entry :=
  {| name := "A"; is_dir := true;
     contents := Render.render_frames render_small
                   (Render.frames_to_render 1 5 0 0) [] |}.

End Samples.

(** ** What a completed run of the packager creates and prints

    Closed forms of the paths created in the archive and of the events
    printed, used to state the properties of completed runs. *)
Module Expected.
Import PyFormat Package.

Definition paths (f : h5file) : list (list string) := map fst (objects f).

(** The group of a frame followed by its thirteen datasets. *)
Definition frame_paths (a : args) (seq_group : list string) (frame : Z)
  : list (list string) :=
  let frame_group :=
    child seq_group ("frame-" ++ zero_padded (frame_index_digits a) frame) in
  frame_group :: map (fun d => child frame_group (fst d)) frame_datasets.

(** The routing of the sequence indices [l]: each index with its split
    ([true] for test) and its number within the split, the counters
    starting at [train_seq_index] and [test_seq_index]. *)
Fixpoint routing (tests : list Z) (train_seq_index test_seq_index : Z) (l : list Z)
  : list (Z * bool * Z) :=
  match l with
  | [] => []
  | s :: rest =>
      if mem_Z s tests
      then (s, true, test_seq_index)
             :: routing tests train_seq_index (test_seq_index + 1) rest
      else (s, false, train_seq_index)
             :: routing tests (train_seq_index + 1) test_seq_index rest
  end.

Definition split_name (test : bool) : string := if test then "test" else "train".

Definition seq_group_path (a : args) (resolution : string) (r : Z * bool * Z)
  : list string :=
  [resolution; split_name (snd (fst r));
   "seq-" ++ zero_padded (sequence_index_digits a) (snd r)].

Definition sequence_paths (a : args) (resolution : string) (r : Z * bool * Z)
  : list (list string) :=
  seq_group_path a resolution r
    :: flat_map (frame_paths a (seq_group_path a resolution r))
         (range (frames_per_sequence a)).

Definition sequences_paths (a : args) (resolution : string) (rs : list (Z * bool * Z))
  : list (list string) :=
  flat_map (sequence_paths a resolution) rs.

Definition resolution_paths (a : args) (n_sequences : Z) (resolution : string)
  : list (list string) :=
  [resolution] :: [resolution; "train"] :: [resolution; "test"]
    :: sequences_paths a resolution
         (routing (test_sequences a) 0 0 (range n_sequences)).

Definition sequence_events (a : args) (resolution : string) (sequence : Z)
  : list event :=
  Assembling sequence (mem_Z sequence (test_sequences a))
    :: map (fun frame => Progress resolution (frame_file_name a sequence frame))
         (range (frames_per_sequence a)).

Definition resolution_events (a : args) (n_sequences : Z) (resolution : string)
  : list event :=
  PackagingResolution resolution
    :: flat_map (sequence_events a resolution) (range n_sequences).

Definition is_warning (e : event) : bool :=
  match e with
  | InconsistentDimensions _ => true
  | _ => false
  end.

Definition without_warnings (evs : list event) : list event :=
  filter (fun e => negb (is_warning e)) evs.

(** What was printed before the archive was opened. *)
Definition validation_events (a : args) (printed : list event)
  (subdirs : list dir_entry) (n_frames n_sequences : Z) : list event :=
  (printed ++ PackagingResolutions (map name subdirs)
     :: map (fun d => FoundFrames n_frames (name d)) subdirs
     ++ [UsingFrames (frames_per_sequence a) n_sequences;
         UsingTestSequences (test_sequences a)])%list.

Definition is_validation_event (e : event) : bool :=
  match e with
  | OutputExists | FoundResolutions _ | PackagingResolutions _
  | FoundFrames _ _ | UsingFrames _ _ | UsingTestSequences _ => true
  | _ => false
  end.

(** The name of the source image with global 1-based index [index]. *)
Definition source_file (index : Z) : string :=
  "frame-" ++ zero_padded 4 index ++ ".exr".

(** The source image name as the specification words it: the index padded
    to the configured frame-index digit width. *)
Definition claimed_frame_file_name (a : args) (sequence frame : Z) : string :=
  "frame-"
  ++ zero_padded (frame_index_digits a) (frame + frames_per_sequence a * sequence + 1)
  ++ ".exr".

(** The global indices of the frames of [n_sequences] sequences, sequence by
    sequence. *)
Definition frame_indices (a : args) (n_sequences : Z) : list Z :=
  flat_map (fun sequence =>
              map (fun frame => frame + frames_per_sequence a * sequence + 1)
                  (range (frames_per_sequence a)))
           (range n_sequences).

(** *** Observations on a run *)

(** The source images opened for a resolution, in order. *)
Definition files_read (resolution : string) (evs : list event) : list string :=
  flat_map (fun e => match e with
                     | Progress r file => if String.eqb r resolution then [file] else []
                     | _ => []
                     end) evs.

(** The resolutions packaged, in order. *)
Definition resolutions_packaged (evs : list event) : list string :=
  flat_map (fun e => match e with
                     | PackagingResolution r => [r]
                     | _ => []
                     end) evs.

(** The sequence groups of a resolution among some paths: [resolution/split/seq]. *)
Definition sequence_groups (resolution : string) (ps : list (list string))
  : list (list string) :=
  filter (fun p => match p with
                   | [r; _; _] => String.eqb r resolution
                   | _ => false
                   end) ps.

(** The frame groups of a resolution among some paths:
    [resolution/split/seq/frame]. *)
Definition frame_groups (resolution : string) (ps : list (list string))
  : list (list string) :=
  filter (fun p => match p with
                   | [r; _; _; _] => String.eqb r resolution
                   | _ => false
                   end) ps.

(** The numbers given to the test sequences and to the train sequences of a
    routing, in order. *)
Definition test_numbers (rs : list (Z * bool * Z)) : list Z :=
  map snd (filter (fun r => snd (fst r)) rs).

Definition train_numbers (rs : list (Z * bool * Z)) : list Z :=
  map snd (filter (fun r => negb (snd (fst r))) rs).

(** The names of the top-level objects among some paths. *)
Definition top_level (ps : list (list string)) : list string :=
  flat_map (fun p => match p with [k] => [k] | _ => [] end) ps.

(** The paths a run added to the archive it opened. *)
Definition created (a : args) (output_file : option h5file) (r : run)
  : list (list string) :=
  match archive r with
  | Some f => skipn (List.length (objects (open_archive a output_file))) (paths f)
  | None => []
  end.

(** *** Well-formed inputs *)

(** Reading back a zero-padded number. *)
Definition parse_digits (s : string) : option N :=
  option_map N.of_uint (NilEmpty.uint_of_string s).

(** What tells the sequence groups of a resolution apart: split and name. *)
Definition seq_key (a : args) (r : Z * bool * Z) : string * string :=
  (split_name (snd (fst r)), "seq-" ++ zero_padded (sequence_index_digits a) (snd r)).

(** Every layer of the image can be loaded with the dimensions [dims]. *)
Definition loadable (exr : exr_file) (dims : Z * Z) : Prop :=
  forall d, In d frame_datasets ->
    exists arr, load_source exr (fst dims) (snd dims) (snd d) = Returned arr.

(** The frames of [n_sequences] sequences are in the directory, and each can
    be loaded with the dimensions of the first. *)
Definition frames_available (a : args) (n_sequences : Z) (subdir : dir_entry)
  (dims : Z * Z) : Prop :=
  (exists exr, InputFile subdir (frame_file_name a 0 0) = Returned exr /\
               get_image_dims (dataWindow exr) = dims) /\
  forall s k, In s (range n_sequences) -> In k (range (frames_per_sequence a)) ->
    exists exr, InputFile subdir (frame_file_name a s k) = Returned exr /\
                loadable exr dims.

(** The six root attributes of a run can be stored. *)
Definition root_storable (a : args) (n_frames n_sequences : Z) : Prop :=
  storable n_frames = true /\
  storable (frames_per_sequence a) = true /\
  storable (sequence_index_digits a) = true /\
  storable (frame_index_digits a) = true /\
  storable (Z.of_nat (List.length (test_sequences a))) = true /\
  storable (n_sequences - Z.of_nat (List.length (test_sequences a))) = true.


(** The paths [new] are distinct and none is in the archive yet. *)
Definition fresh (new : list (list string)) (f : h5file) : Prop :=
  NoDup new /\ forall p, In p new -> ~ In p (paths f).

(** *** Reading a run beyond its paths *)

(** The errors raised before the archive is opened (package.py:70-96). *)
Definition is_validation_error (e : exn) : bool :=
  match e with
  | FileNotFoundError | SystemExit _ | NotADirectoryError | IndexError
  | InconsistentFrames _ | ZeroDivisionError | NotEnoughFrames _ => true
  | _ => false
  end.

(** The errors of the archive-writing phase: all the others. *)
Definition write_error (e : exn) : Prop := is_validation_error e = false.

(** [f'] holds every object of [f], unchanged and in the same order, and
    every attribute key of [f]. *)
Definition extends (f f' : h5file) : Prop :=
  (exists new, objects f' = (objects f ++ new)%list) /\
  (forall p k, get_attr f p k <> None -> get_attr f' p k <> None).

Definition same_attrs (f f' : h5file) : Prop := attrs f' = attrs f.

(** A computation that only moves the state along [R] and only raises errors
    satisfying [P], however it ends. *)
Definition keeps {S A} (R : S -> S -> Prop) (P : exn -> Prop) (m : M S A) : Prop :=
  forall s r s' l, m s = (r, s', l) -> R s s' /\ forall e, r = Raised e -> P e.

(** The dimensions in the header of a file of a resolution directory. *)
Definition header_dims (subdir : dir_entry) (file_name : string) : option (Z * Z) :=
  match InputFile subdir file_name with
  | Returned exr => Some (get_image_dims (dataWindow exr))
  | Raised _ => None
  end.

(** The dimensions a resolution is packaged with: those of its first frame. *)
Definition first_dims (a : args) (subdir : dir_entry) : option (Z * Z) :=
  header_dims subdir (frame_file_name a 0 0).

(** The dimensions [c] are the ones a frame is packaged with: those the loop
    holds already or, on the first frame, those of the frame's header. *)
Definition settled (frame_dimensions : option (Z * Z)) (c : Z * Z)
  (subdir : dir_entry) (file_name : string) : Prop :=
  match frame_dimensions with
  | Some c' => c' = c
  | None => header_dims subdir file_name = Some c
  end.

(** The warning, if any, about a frame of a resolution packaged with the
    dimensions [c]. *)
Definition frame_warning (a : args) (subdir : dir_entry) (c : Z * Z)
  (sequence frame : Z) : list string :=
  match header_dims subdir (frame_file_name a sequence frame) with
  | Some h => if dims_eqb c h then [] else [frame_file_name a sequence frame]
  | None => []
  end.

(** The files of a resolution that a run warns about: the frames of its
    sequences whose header dimensions are not those of the first frame. *)
Definition mismatched_frames (a : args) (n_sequences : Z) (subdir : dir_entry)
  : list string :=
  flat_map (fun sequence =>
    flat_map (fun frame =>
      match first_dims a subdir,
            header_dims subdir (frame_file_name a sequence frame) with
      | Some c, Some h =>
          if dims_eqb c h then [] else [frame_file_name a sequence frame]
      | _, _ => []
      end) (range (frames_per_sequence a)))
    (range n_sequences).

(** The files warned about, in order. *)
Definition warnings (evs : list event) : list string :=
  flat_map (fun e => match e with
                     | InconsistentDimensions file => [file]
                     | _ => []
                     end) evs.

(** The sequence groups of one split of a resolution among some paths. *)
Definition split_groups (resolution split : string) (ps : list (list string))
  : list (list string) :=
  filter (fun p => match p with
                   | [r; s; _] => String.eqb r resolution && String.eqb s split
                   | _ => false
                   end) ps.

(** The name of a channel of a layer: [R G B A] or [X Y Z W]. *)
Definition component (layer : string) (use_xyzw : bool) (i : nat) : string :=
  "ViewLayer." ++ layer ++
  nth i (if use_xyzw then [".X"; ".Y"; ".Z"; ".W"] else [".R"; ".G"; ".B"; ".A"]) "".

(** The datasets of the frame [k] of a sequence group, each holding the
    layer loaded from the frame's image with the dimensions [c]. *)
Definition frame_stored (a : args) (subdir : dir_entry) (c : Z * Z)
  (seq_group : list string) (sequence k : Z) (f : h5file) : Prop :=
  exists exr,
    InputFile subdir (frame_file_name a sequence k) = Returned exr /\
    forall dataset src, In (dataset, src) frame_datasets ->
      exists arr,
        load_source exr (fst c) (snd c) src = Returned arr /\
        stored f (child (child seq_group
                           ("frame-" ++ zero_padded (frame_index_digits a) k))
                        dataset)
        = Some (H5Dataset arr).

End Expected.

(** ** Properties of the packager *)
Module PackageFacts.
Import PyFormat Package Expected.
Local Open Scope py_scope.

(** *** The monad *)

Lemma bind_returned {S A B} (m : M S A) (k : A -> M S B) s b s' evs :
  bind m k s = (Returned b, s', evs) ->
  exists a s1 l1 l2,
    m s = (Returned a, s1, l1) /\ k a s1 = (Returned b, s', l2) /\
    evs = (l1 ++ l2)%list.
Proof.
  unfold bind. destruct (m s) as [[[e | a] s1] l1]; [discriminate |].
  destruct (k a s1) as [[r s2] l2] eqn:Hk. intros H. inversion H; subst.
  exists a, s1, l1, l2. auto.
Qed.

Lemma bind_raised_left {S A B} (m : M S A) (k : A -> M S B) s e s1 l1 :
  m s = (Raised e, s1, l1) -> bind m k s = (Raised e, s1, l1).
Proof. unfold bind. intros ->. reflexivity. Qed.

Lemma bind_step {S A B} (m : M S A) (k : A -> M S B) s a s1 l1 :
  m s = (Returned a, s1, l1) ->
  bind m k s = let '(r, s2, l2) := k a s1 in (r, s2, (l1 ++ l2)%list).
Proof. unfold bind. intros ->. destruct (k a s1) as [[r s2] l2]. reflexivity. Qed.

(** *** Validation (package.py:70-98) *)

(** The loop of package.py:89-92 either accepts every directory or raises
    for the first one whose count differs. *)
Lemma check_frame_counts_ok n_frames others :
  Forall (fun d => peak_frame_count d = n_frames) others ->
  for_each others (check_frame_count n_frames) tt =
    (Returned tt, tt, map (fun d => FoundFrames n_frames (name d)) others).
Proof.
  unfold for_each. induction 1 as [| d rest Hd _ IH]; [reflexivity |].
  cbn [for_fold]. unfold bind at 1. unfold check_frame_count at 1.
  rewrite Hd, Z.eqb_refl. cbn [negb print]. rewrite IH. reflexivity.
Qed.

Lemma check_frame_counts_mismatch n_frames pre d post :
  Forall (fun x => peak_frame_count x = n_frames) pre ->
  peak_frame_count d <> n_frames ->
  for_each (pre ++ d :: post)%list (check_frame_count n_frames) tt =
    (Raised (InconsistentFrames (name d)), tt,
     map (fun x => FoundFrames n_frames (name x)) pre).
Proof.
  unfold for_each. intros Hpre Hd. induction Hpre as [| x rest Hx _ IH].
  - cbn. unfold bind, check_frame_count.
    destruct (Z.eqb_spec (peak_frame_count d) n_frames); [contradiction |].
    reflexivity.
  - cbn [for_fold app]. unfold bind at 1. unfold check_frame_count at 1.
    rewrite Hx, Z.eqb_refl. cbn [negb print]. rewrite IH. reflexivity.
Qed.

(** A list either agrees everywhere with a value or splits at the first
    disagreement. *)
Lemma first_mismatch n_frames (others : list dir_entry) :
  Forall (fun d => peak_frame_count d = n_frames) others \/
  exists pre d post,
    others = (pre ++ d :: post)%list /\
    Forall (fun x => peak_frame_count x = n_frames) pre /\
    peak_frame_count d <> n_frames.
Proof.
  induction others as [| x rest IH]; [left; constructor |].
  destruct (Z.eq_dec (peak_frame_count x) n_frames) as [Hx | Hx].
  - destruct IH as [IH | (pre & d & post & -> & Hpre & Hd)].
    + left. constructor; assumption.
    + right. exists (x :: pre), d, post. repeat split; auto.
  - right. exists [], x, rest. repeat split; auto.
Qed.

(** The steps of [preflight] once the output file has been dealt with. *)
Lemma preflight_selected a entries output_file existing u printed :
  existing_resolutions a output_file tt = (Returned existing, u, printed) ->
  preflight a (Directory entries) output_file tt =
    let subdirs := select_subdirs entries existing in
    let '(r, s, l) :=
      (print (PackagingResolutions (map name subdirs)) ;;
       match subdirs with
       | [] => raise IndexError
       | first :: others =>
           let n_frames := peak_frame_count first in
           print (FoundFrames n_frames (name first)) ;;
           for_each others (check_frame_count n_frames) ;;
           if frames_per_sequence a =? 0 then raise ZeroDivisionError
           else
             let n_sequences := n_frames / frames_per_sequence a in
             if n_sequences <=? 0
             then raise (NotEnoughFrames (frames_per_sequence a))
             else
               print (UsingFrames (frames_per_sequence a) n_sequences) ;;
               print (UsingTestSequences (test_sequences a)) ;;
               ret (subdirs, n_frames, n_sequences)
       end) u in
    (r, s, (printed ++ l)%list).
Proof.
  intros H. unfold preflight. rewrite (bind_step _ _ _ _ _ _ H). reflexivity.
Qed.

(** [existing_resolutions] either exits or returns; it raises nothing else. *)
Lemma existing_resolutions_cases a output_file :
  (exists printed, existing_resolutions a output_file tt =
                     (Raised (SystemExit 1), tt, printed)) \/
  (exists existing printed, existing_resolutions a output_file tt =
                              (Returned existing, tt, printed)).
Proof.
  unfold existing_resolutions.
  destruct output_file as [f |]; [| right; eexists _, _; reflexivity].
  destruct (append a), (overwrite a); cbn;
    first [ right; eexists _, _; reflexivity | left; eexists; reflexivity ].
Qed.

(** What [preflight] does from the count check on, for consistent counts. *)
Lemma preflight_consistent a entries output_file existing u printed first others :
  existing_resolutions a output_file tt = (Returned existing, u, printed) ->
  select_subdirs entries existing = first :: others ->
  Forall (fun d => peak_frame_count d = peak_frame_count first) others ->
  let n_frames := peak_frame_count first in
  let n_sequences := n_frames / frames_per_sequence a in
  let found :=
    (printed ++ PackagingResolutions (map name (first :: others))
       :: map (fun d => FoundFrames n_frames (name d)) (first :: others))%list in
  preflight a (Directory entries) output_file tt =
    if frames_per_sequence a =? 0 then (Raised ZeroDivisionError, tt, found)
    else if n_sequences <=? 0
         then (Raised (NotEnoughFrames (frames_per_sequence a)), tt, found)
         else (Returned (first :: others, n_frames, n_sequences), tt,
               (found ++ [UsingFrames (frames_per_sequence a) n_sequences;
                          UsingTestSequences (test_sequences a)])%list).
Proof.
  intros Hex Hsel Hall. rewrite (preflight_selected _ _ _ _ _ _ Hex), Hsel.
  destruct u. cbv zeta. unfold bind at 1. cbn [print].
  unfold bind at 1. cbn [print].
  unfold bind at 1. rewrite (check_frame_counts_ok _ _ Hall).
  destruct (frames_per_sequence a =? 0).
  - cbn. rewrite app_nil_r. reflexivity.
  - destruct (_ <=? 0).
    + cbn. rewrite app_nil_r. reflexivity.
    + cbn. rewrite <- !app_assoc. reflexivity.
Qed.

(** What [preflight] does when a count differs. *)
Lemma preflight_inconsistent a entries output_file existing u printed first pre d post :
  existing_resolutions a output_file tt = (Returned existing, u, printed) ->
  select_subdirs entries existing = (first :: pre ++ d :: post)%list ->
  Forall (fun x => peak_frame_count x = peak_frame_count first) pre ->
  peak_frame_count d <> peak_frame_count first ->
  fst (fst (preflight a (Directory entries) output_file tt)) =
    Raised (InconsistentFrames (name d)).
Proof.
  intros Hex Hsel Hpre Hd. rewrite (preflight_selected _ _ _ _ _ _ Hex), Hsel.
  destruct u. cbv zeta. unfold bind at 1. cbn [print].
  unfold bind at 1. cbn [print].
  unfold bind at 1. rewrite (check_frame_counts_mismatch _ _ _ _ Hpre Hd).
  reflexivity.
Qed.

(** A run that fails validation leaves the output as it found it. *)
Lemma main_preflight_raised a input_dir output_file e :
  fst (fst (preflight a input_dir output_file tt)) = Raised e ->
  result (main a input_dir output_file) = Raised e /\
  archive (main a input_dir output_file) = output_file /\
  parent_made (main a input_dir output_file) = false.
Proof.
  unfold main. destruct (preflight a input_dir output_file tt) as [[[e' | v] u] l]; cbn.
  - intros [= ->]. auto.
  - discriminate.
Qed.

(** With a zero divisor, validation always ends in an error, and never in
    the "not enough frames" one. *)
Lemma preflight_zero_divisor a input_dir output_file :
  frames_per_sequence a = 0 ->
  exists e, fst (fst (preflight a input_dir output_file tt)) = Raised e /\
            forall fps, e <> NotEnoughFrames fps.
Proof.
  intros Hfps.
  destruct input_dir as [| | entries].
  - exists FileNotFoundError. split; [reflexivity | discriminate].
  - destruct (existing_resolutions_cases a output_file)
      as [[printed H] | (existing & printed & H)]; unfold preflight.
    + rewrite (bind_raised_left _ _ _ _ _ _ H).
      exists (SystemExit 1). split; [reflexivity | discriminate].
    + rewrite (bind_step _ _ _ _ _ _ H).
      exists NotADirectoryError. split; [reflexivity | discriminate].
  - destruct (existing_resolutions_cases a output_file)
      as [[printed H] | (existing & printed & H)].
    + unfold preflight. rewrite (bind_raised_left _ _ _ _ _ _ H).
      exists (SystemExit 1). split; [reflexivity | discriminate].
    + destruct (select_subdirs entries existing) as [| first others] eqn:Hsel.
      * rewrite (preflight_selected _ _ _ _ _ _ H), Hsel.
        exists IndexError. split; [reflexivity | discriminate].
      * destruct (first_mismatch (peak_frame_count first) others)
          as [Hall | (pre & d & post & -> & Hpre & Hd)].
        -- rewrite (preflight_consistent _ _ _ _ _ _ _ _ H Hsel Hall), Hfps.
           exists ZeroDivisionError. split; [reflexivity | discriminate].
        -- rewrite (preflight_inconsistent _ _ _ _ _ _ _ _ _ _ H Hsel Hpre Hd).
           eexists. split; [reflexivity | discriminate].
Qed.

(** *** Inversion of the basic steps *)

Lemma ret_returned {S A} (a b : A) (s s' : S) evs :
  ret a s = (Returned b, s', evs) -> b = a /\ s' = s /\ evs = [].
Proof. unfold ret. intros [= <- <- <-]. auto. Qed.

Lemma lift_returned {S A} (o : outcome A) (s s' : S) a evs :
  lift o s = (Returned a, s', evs) -> o = Returned a /\ s' = s /\ evs = [].
Proof. unfold lift. intros [= -> <- <-]. auto. Qed.

Lemma print_returned {S} ev (s s' : S) u evs :
  print ev s = (Returned u, s', evs) -> s' = s /\ evs = [ev].
Proof. unfold print. intros [= _ <- <-]. auto. Qed.

Lemma h5_exists_false f p : h5_exists f p = false -> ~ In p (paths f).
Proof.
  unfold h5_exists, paths. intros H Hin.
  apply in_map_iff in Hin as (o & <- & Ho).
  assert (Ht : existsb (fun o' => path_eqb (fst o') (fst o)) (objects f) = true).
  { apply existsb_exists. exists o. split; [assumption |].
    unfold path_eqb. destruct (list_eq_dec string_dec (fst o) (fst o)); congruence. }
  congruence.
Qed.

Lemma create_returned p o f f' :
  create p o f = Returned f' ->
  ~ In p (paths f) /\ paths f' = (paths f ++ [p])%list /\ attrs f' = attrs f.
Proof.
  unfold create. destruct (h5_exists f p) eqn:E; [discriminate |].
  intros [= <-]. split; [apply h5_exists_false; assumption |].
  unfold paths. cbn. rewrite map_app. auto.
Qed.

Lemma create_group_returned parent nm f f' u evs :
  create_group parent nm f = (Returned u, f', evs) ->
  ~ In (child parent nm) (paths f) /\
  paths f' = (paths f ++ [child parent nm])%list /\ attrs f' = attrs f /\ evs = [].
Proof.
  unfold create_group, update.
  destruct (create (child parent nm) H5Group f) as [e | f1] eqn:E; [discriminate |].
  intros [= _ <- <-]. apply create_returned in E. tauto.
Qed.

Lemma create_dataset_returned parent nm arr f f' u evs :
  create_dataset parent nm arr f = (Returned u, f', evs) ->
  paths f' = (paths f ++ [child parent nm])%list /\ attrs f' = attrs f /\ evs = [].
Proof.
  unfold create_dataset, update.
  destruct (create (child parent nm) (H5Dataset arr) f) as [e | f1] eqn:E;
    [discriminate |].
  intros [= _ <- <-]. apply create_returned in E. tauto.
Qed.

Lemma set_attr_returned p k v f f' u evs :
  set_attr p k v f = (Returned u, f', evs) -> paths f' = paths f /\ evs = [].
Proof.
  unfold set_attr. destruct (storable v); [| discriminate].
  intros [= _ <- <-]. auto.
Qed.

Lemma nested_zero_padded_returned width n s :
  nested_zero_padded width n = Returned s -> 0 <= width /\ s = zero_padded width n.
Proof.
  unfold nested_zero_padded. destruct (Z.ltb_spec width 0); [discriminate |].
  destruct (2 ^ 63 <=? width); [discriminate |].
  intros [= <-]. auto.
Qed.

(** *** The loops of a completed run *)

Lemma write_datasets_returned exr width height frame_group ds f f' u evs :
  for_each ds (fun '(dataset, src) =>
    arr <- lift (load_source exr width height src) ;;
    create_dataset frame_group dataset arr) f = (Returned u, f', evs) ->
  paths f' = (paths f ++ map (fun d => child frame_group (fst d)) ds)%list /\
  evs = [].
Proof.
  unfold for_each. revert f evs.
  induction ds as [| [dataset src] rest IH]; intros f evs H; cbn [for_fold] in H.
  - apply ret_returned in H as (_ & -> & ->). cbn. rewrite app_nil_r. auto.
  - apply bind_returned in H as (u1 & f1 & l1 & l2 & H1 & H2 & ->).
    apply bind_returned in H1 as (arr & f0 & l3 & l4 & Hl & Hc & ->).
    apply lift_returned in Hl as (_ & -> & ->).
    apply create_dataset_returned in Hc as (Hp & _ & ->).
    destruct u1. apply IH in H2 as (Hp2 & ->).
    rewrite Hp2, Hp. cbn. rewrite <- app_assoc. auto.
Qed.

Lemma check_dimensions_returned frame_dimensions exr file_name f d f' evs :
  check_dimensions frame_dimensions exr file_name f = (Returned d, f', evs) ->
  f' = f /\ without_warnings evs = [].
Proof.
  unfold check_dimensions. destruct frame_dimensions as [c |].
  - destruct (negb _); cbn; intros [= _ <- <-]; auto.
  - cbn. intros [= _ <- <-]. auto.
Qed.

Lemma without_warnings_app l1 l2 :
  without_warnings (l1 ++ l2) = (without_warnings l1 ++ without_warnings l2)%list.
Proof. apply filter_app. Qed.

Lemma frame_body_returned a subdir seq_group sequence frame_dimensions frame f d f' evs :
  frame_body a subdir seq_group sequence frame_dimensions frame f
    = (Returned d, f', evs) ->
  paths f' = (paths f ++ frame_paths a seq_group frame)%list /\
  without_warnings evs = [Progress (name subdir) (frame_file_name a sequence frame)].
Proof.
  unfold frame_body. intros H.
  apply bind_returned in H as (group_name & f1 & l1 & l1' & Hn & H & ->).
  apply lift_returned in Hn as (Hn & -> & ->).
  apply nested_zero_padded_returned in Hn as (_ & ->).
  apply bind_returned in H as (u2 & f2 & l2 & l2' & Hg & H & ->).
  apply create_group_returned in Hg as (_ & Hp2 & _ & ->).
  apply bind_returned in H as (u3 & f3 & l3 & l3' & Hpr & H & ->).
  apply print_returned in Hpr as (-> & ->).
  apply bind_returned in H as (exr & f4 & l4 & l4' & He & H & ->).
  apply lift_returned in He as (_ & -> & ->).
  apply bind_returned in H as (dims & f5 & l5 & l5' & Hd & H & ->).
  apply check_dimensions_returned in Hd as (-> & Hw).
  destruct dims as [width height].
  apply bind_returned in H as (u6 & f6 & l6 & l6' & Hds & H & ->).
  apply write_datasets_returned in Hds as (Hp6 & ->).
  apply ret_returned in H as (_ & -> & ->).
  split.
  - rewrite Hp6, Hp2. unfold frame_paths. cbn. rewrite <- app_assoc. reflexivity.
  - cbn. rewrite without_warnings_app, Hw. reflexivity.
Qed.

Lemma frames_returned a subdir seq_group sequence l :
  forall frame_dimensions f d f' evs,
    for_fold l frame_dimensions (frame_body a subdir seq_group sequence) f
      = (Returned d, f', evs) ->
    paths f' = (paths f ++ flat_map (frame_paths a seq_group) l)%list /\
    without_warnings evs
      = map (fun frame => Progress (name subdir) (frame_file_name a sequence frame)) l.
Proof.
  induction l as [| frame rest IH]; intros frame_dimensions f d f' evs H;
    cbn [for_fold] in H.
  - apply ret_returned in H as (_ & -> & ->). cbn. rewrite app_nil_r. auto.
  - apply bind_returned in H as (d1 & f1 & l1 & l2 & Hb & H & ->).
    apply frame_body_returned in Hb as (Hp1 & Hw1).
    apply IH in H as (Hp2 & Hw2).
    split.
    + rewrite Hp2, Hp1. cbn [flat_map]. rewrite <- app_assoc. reflexivity.
    + rewrite without_warnings_app, Hw1, Hw2. reflexivity.
Qed.

Lemma sequence_body_returned a subdir train_seq_index test_seq_index frame_dimensions
  sequence f vars f' evs :
  sequence_body a subdir (train_seq_index, test_seq_index, frame_dimensions) sequence f
    = (Returned vars, f', evs) ->
  let test := mem_Z sequence (test_sequences a) in
  paths f' = (paths f ++ sequence_paths a (name subdir)
                (sequence, test, if test then test_seq_index else train_seq_index))%list /\
  without_warnings evs = sequence_events a (name subdir) sequence /\
  fst (fst vars) = (if test then train_seq_index else train_seq_index + 1) /\
  snd (fst vars) = (if test then test_seq_index + 1 else test_seq_index).
Proof.
  unfold sequence_body, sequence_events. cbv zeta.
  destruct (mem_Z sequence (test_sequences a)); intros H;
    apply bind_returned in H as (u1 & f1 & l1 & l1' & Hpr & H & ->);
    apply print_returned in Hpr as (-> & ->);
    apply bind_returned in H as (group_name & f2 & l2 & l2' & Hn & H & ->);
    apply lift_returned in Hn as (Hn & -> & ->);
    apply nested_zero_padded_returned in Hn as (_ & ->);
    apply bind_returned in H as (u3 & f3 & l3 & l3' & Hg & H & ->);
    apply create_group_returned in Hg as (_ & Hp3 & _ & ->);
    apply bind_returned in H as (dims & f4 & l4 & l4' & Hfr & H & ->);
    apply frames_returned in Hfr as (Hp4 & Hw4);
    apply ret_returned in H as (-> & -> & ->);
    (split; [| split; [| split; reflexivity]]).
  - rewrite Hp4, Hp3. unfold sequence_paths. rewrite <- app_assoc. reflexivity.
  - cbn. rewrite without_warnings_app, Hw4. cbn. rewrite app_nil_r. reflexivity.
  - rewrite Hp4, Hp3. unfold sequence_paths. rewrite <- app_assoc. reflexivity.
  - cbn. rewrite without_warnings_app, Hw4. cbn. rewrite app_nil_r. reflexivity.
Qed.

Lemma sequences_returned a subdir l :
  forall train_seq_index test_seq_index frame_dimensions f vars f' evs,
    for_fold l (train_seq_index, test_seq_index, frame_dimensions)
      (sequence_body a subdir) f = (Returned vars, f', evs) ->
    paths f' = (paths f ++ sequences_paths a (name subdir)
                  (routing (test_sequences a) train_seq_index test_seq_index l))%list /\
    without_warnings evs = flat_map (sequence_events a (name subdir)) l.
Proof.
  induction l as [| sequence rest IH];
    intros train_seq_index test_seq_index frame_dimensions f vars f' evs H;
    cbn [for_fold] in H.
  - apply ret_returned in H as (_ & -> & ->). cbn. rewrite app_nil_r. auto.
  - apply bind_returned in H as ([[tr te] dims] & f1 & l1 & l2 & Hb & H & ->).
    apply sequence_body_returned in Hb as (Hp1 & Hw1 & Htr & Hte).
    cbn in Htr, Hte. subst tr te.
    apply IH in H as (Hp2 & Hw2).
    split.
    + rewrite Hp2, Hp1. cbn [routing].
      destruct (mem_Z sequence (test_sequences a));
        unfold sequences_paths; cbn [flat_map]; rewrite <- app_assoc; reflexivity.
    + rewrite without_warnings_app, Hw1, Hw2. reflexivity.
Qed.

Lemma package_resolution_returned a n_sequences subdir f u f' evs :
  package_resolution a n_sequences subdir f = (Returned u, f', evs) ->
  ~ In [name subdir] (paths f) /\
  paths f' = (paths f ++ resolution_paths a n_sequences (name subdir))%list /\
  without_warnings evs = resolution_events a n_sequences (name subdir).
Proof.
  unfold package_resolution. intros H.
  apply bind_returned in H as (u1 & f1 & l1 & l1' & Hpr & H & ->).
  apply print_returned in Hpr as (-> & ->).
  apply bind_returned in H as (u2 & f2 & l2 & l2' & Hg & H & ->).
  apply create_group_returned in Hg as (Hfresh & Hp2 & _ & ->).
  apply bind_returned in H as (u3 & f3 & l3 & l3' & Hg & H & ->).
  apply create_group_returned in Hg as (_ & Hp3 & _ & ->).
  apply bind_returned in H as (u4 & f4 & l4 & l4' & Hg & H & ->).
  apply create_group_returned in Hg as (_ & Hp4 & _ & ->).
  apply bind_returned in H as ([[tr te] dims] & f5 & l5 & l5' & Hs & H & ->).
  apply sequences_returned in Hs as (Hp5 & Hw5).
  assert (Hend : paths f' = paths f5 /\ l5' = []).
  { cbn [snd] in H. destruct dims as [[width height] |].
    - apply bind_returned in H as (u6 & f6 & l6 & l6' & Ha & H & ->).
      apply set_attr_returned in Ha as (Hp6 & ->).
      apply set_attr_returned in H as (Hp7 & ->).
      split; [congruence | reflexivity].
    - discriminate. }
  destruct Hend as (Hp' & ->).
  repeat split.
  - exact Hfresh.
  - rewrite Hp', Hp5, Hp4, Hp3, Hp2. unfold resolution_paths.
    rewrite <- !app_assoc. reflexivity.
  - cbn. rewrite without_warnings_app, Hw5. cbn. rewrite app_nil_r. reflexivity.
Qed.

Lemma resolution_paths_head a n_sequences resolution :
  In [resolution] (resolution_paths a n_sequences resolution).
Proof. left. reflexivity. Qed.

Lemma resolutions_returned a n_sequences subdirs :
  forall f u f' evs,
    for_each subdirs (package_resolution a n_sequences) f = (Returned u, f', evs) ->
    paths f' = (paths f ++ flat_map (fun d => resolution_paths a n_sequences (name d))
                              subdirs)%list /\
    without_warnings evs
      = flat_map (fun d => resolution_events a n_sequences (name d)) subdirs /\
    NoDup (map name subdirs) /\
    (forall d, In d subdirs -> ~ In [name d] (paths f)).
Proof.
  unfold for_each.
  induction subdirs as [| d rest IH]; intros f u f' evs H; cbn [for_fold] in H.
  - apply ret_returned in H as (_ & -> & ->). cbn. rewrite app_nil_r.
    repeat split; [constructor | contradiction].
  - apply bind_returned in H as (u1 & f1 & l1 & l2 & Hb & H & ->).
    apply package_resolution_returned in Hb as (Hfresh & Hp1 & Hw1).
    destruct u1. apply IH in H as (Hp2 & Hw2 & Hnd & Hrest).
    assert (Hlater : forall d', In d' rest -> ~ In [name d'] (paths f) /\ name d' <> name d).
    { intros d' Hd'. specialize (Hrest d' Hd'). rewrite Hp1 in Hrest.
      split.
      - intros Hin. apply Hrest. apply in_or_app. left. exact Hin.
      - intros Heq. apply Hrest. apply in_or_app. right. rewrite Heq.
        apply resolution_paths_head. }
    repeat split.
    + rewrite Hp2, Hp1. cbn [flat_map]. rewrite <- app_assoc. reflexivity.
    + rewrite without_warnings_app, Hw1, Hw2. reflexivity.
    + cbn. constructor; [| exact Hnd].
      intros Hin. apply in_map_iff in Hin as (d' & Heq & Hd').
      apply (proj2 (Hlater d' Hd')). exact Heq.
    + intros d' [<- | Hd']; [exact Hfresh | apply (Hlater d' Hd')].
Qed.

Lemma write_archive_returned a subdirs n_frames n_sequences f u f' evs :
  write_archive a subdirs n_frames n_sequences f = (Returned u, f', evs) ->
  paths f' = (paths f ++ flat_map (fun d => resolution_paths a n_sequences (name d))
                            subdirs)%list /\
  without_warnings evs
    = flat_map (fun d => resolution_events a n_sequences (name d)) subdirs /\
  NoDup (map name subdirs) /\
  (forall d, In d subdirs -> ~ In [name d] (paths f)).
Proof.
  unfold write_archive. intros H.
  do 6 (apply bind_returned in H as (? & ? & ? & ? & Ha & H & ->);
        apply set_attr_returned in Ha as (? & ->)).
  apply resolutions_returned in H as (Hp & Hw & Hnd & Hfresh).
  cbn [app]. repeat split; [congruence | assumption | assumption |].
  intros d Hd. specialize (Hfresh d Hd). congruence.
Qed.

(** *** Completed runs *)

Lemma preflight_returned a input_dir output_file v u l :
  preflight a input_dir output_file tt = (Returned v, u, l) ->
  exists entries existing printed first others,
    input_dir = Directory entries /\
    existing_resolutions a output_file tt = (Returned existing, tt, printed) /\
    select_subdirs entries existing = first :: others /\
    Forall (fun d => peak_frame_count d = peak_frame_count first) others /\
    frames_per_sequence a <> 0 /\
    0 < peak_frame_count first / frames_per_sequence a /\
    v = (first :: others, peak_frame_count first,
         peak_frame_count first / frames_per_sequence a) /\
    l = validation_events a printed (first :: others) (peak_frame_count first)
          (peak_frame_count first / frames_per_sequence a).
Proof.
  intros H.
  destruct input_dir as [| | entries]; [discriminate | |].
  { destruct (existing_resolutions_cases a output_file)
      as [[printed Hex] | (existing & printed & Hex)]; unfold preflight in H.
    - rewrite (bind_raised_left _ _ _ _ _ _ Hex) in H. discriminate.
    - rewrite (bind_step _ _ _ _ _ _ Hex) in H. discriminate. }
  destruct (existing_resolutions_cases a output_file)
    as [[printed Hex] | (existing & printed & Hex)].
  { unfold preflight in H. rewrite (bind_raised_left _ _ _ _ _ _ Hex) in H.
    discriminate. }
  destruct (select_subdirs entries existing) as [| first others] eqn:Hsel.
  { rewrite (preflight_selected _ _ _ _ _ _ Hex), Hsel in H. discriminate. }
  destruct (first_mismatch (peak_frame_count first) others)
    as [Hall | (pre & d & post & -> & Hpre & Hd)].
  - rewrite (preflight_consistent _ _ _ _ _ _ _ _ Hex Hsel Hall) in H.
    destruct (Z.eqb_spec (frames_per_sequence a) 0) as [| Hfps]; [discriminate |].
    destruct (Z.leb_spec (peak_frame_count first / frames_per_sequence a) 0)
      as [| Hn]; [discriminate |].
    injection H as <- <- <-.
    exists entries, existing, printed, first, others.
    repeat split; auto.
    unfold validation_events. cbn. rewrite <- app_assoc. reflexivity.
  - pose proof (preflight_inconsistent _ _ _ _ _ _ _ _ _ _ Hex Hsel Hpre Hd) as Hr.
    rewrite H in Hr. discriminate.
Qed.

Lemma skipn_base {A B} (f : A -> B) (base : list A) (l new : list B) :
  l = (map f base ++ new)%list -> skipn (List.length base) l = new.
Proof.
  intros ->. rewrite skipn_app, length_map, Nat.sub_diag, skipn_all2.
  - reflexivity.
  - rewrite length_map. apply Nat.le_refl.
Qed.

(** A run that returns passed every validation step, created exactly the
    paths of its resolutions in order, and, warnings apart, printed exactly
    the validation messages followed by the events of the resolutions. *)
Lemma main_returned a entries output_file existing u printed :
  existing_resolutions a output_file tt = (Returned existing, u, printed) ->
  result (main a (Directory entries) output_file) = Returned tt ->
  exists first others f',
    select_subdirs entries existing = first :: others /\
    Forall (fun d => peak_frame_count d = peak_frame_count first) others /\
    frames_per_sequence a <> 0 /\
    0 < peak_frame_count first / frames_per_sequence a /\
    let n_frames := peak_frame_count first in
    let n_sequences := n_frames / frames_per_sequence a in
    archive (main a (Directory entries) output_file) = Some f' /\
    paths f' = (paths (open_archive a output_file)
                ++ flat_map (fun d => resolution_paths a n_sequences (name d))
                     (first :: others))%list /\
    without_warnings (stdout (main a (Directory entries) output_file))
      = (without_warnings
           (validation_events a printed (first :: others) n_frames n_sequences)
         ++ flat_map (fun d => resolution_events a n_sequences (name d))
              (first :: others))%list /\
    NoDup (map name (first :: others)) /\
    (forall d, In d (first :: others) ->
               ~ In [name d] (paths (open_archive a output_file))).
Proof.
  intros Hex0. unfold main.
  destruct (preflight a (Directory entries) output_file tt) as [[[e | v] u'] l] eqn:Hpre;
    [discriminate |].
  apply preflight_returned in Hpre
    as (entries' & existing' & printed' & first & others
        & [= <-] & Hex & Hsel & Hall & Hfps & Hn & -> & ->).
  rewrite Hex0 in Hex. injection Hex as <- _ <-.
  destruct (write_archive a (first :: others) (peak_frame_count first)
              (peak_frame_count first / frames_per_sequence a)
              (open_archive a output_file)) as [[r f'] printed'] eqn:Hw.
  cbn [result archive stdout]. intros ->.
  apply write_archive_returned in Hw as (Hp & Hev & Hnd & Hfresh).
  exists first, others, f'.
  repeat split; auto.
  rewrite without_warnings_app, Hev. reflexivity.
Qed.

Lemma created_paths a output_file r f' new :
  archive r = Some f' ->
  paths f' = (paths (open_archive a output_file) ++ new)%list ->
  created a output_file r = new.
Proof.
  intros Ha Hp. unfold created. rewrite Ha.
  apply (skipn_base fst (objects (open_archive a output_file))). exact Hp.
Qed.

(** *** Ranges *)

Lemma seq_from len : forall start,
  map Z.of_nat (seq start len)
  = map (fun k => Z.of_nat start + k) (map Z.of_nat (seq 0 len)).
Proof.
  induction len as [| len IH]; intros start; [reflexivity |].
  cbn [seq map]. f_equal; [lia |].
  transitivity (map (fun k => Z.of_nat (S start) + k) (map Z.of_nat (seq 0 len)));
    [apply IH |].
  transitivity (map (fun k => Z.of_nat start + k)
                  (map (fun k => Z.of_nat 1 + k) (map Z.of_nat (seq 0 len))));
    [| f_equal; symmetry; apply IH].
  rewrite (map_map (fun k => Z.of_nat 1 + k)). apply map_ext. intros k. lia.
Qed.

Lemma range_app x y :
  0 <= x -> 0 <= y -> range (x + y) = (range x ++ map (fun k => x + k) (range y))%list.
Proof.
  intros Hx Hy. unfold range.
  rewrite Z2Nat.inj_add, seq_app, map_app by assumption. f_equal.
  rewrite seq_from. cbn [Nat.add]. rewrite Z2Nat.id by assumption. reflexivity.
Qed.

Lemma range_succ n : 0 <= n -> range (n + 1) = (range n ++ [n])%list.
Proof.
  intros Hn. rewrite range_app by lia.
  change (range 1) with [0]. cbn [map]. rewrite Z.add_0_r. reflexivity.
Qed.

Lemma range_cons m :
  range (Z.of_nat (S m)) = 0 :: map (fun k => 1 + k) (range (Z.of_nat m)).
Proof.
  replace (Z.of_nat (S m)) with (1 + Z.of_nat m) by lia.
  rewrite range_app by lia. change (range 1) with [0].
  cbn [app map]. reflexivity.
Qed.

Lemma range_nonpositive n : n <= 0 -> range n = [].
Proof.
  intros Hn. unfold range. destruct n; try reflexivity. lia.
Qed.

Lemma length_range n : 0 <= n -> Z.of_nat (List.length (range n)) = n.
Proof.
  intros Hn. unfold range. rewrite length_map, length_seq. apply Z2Nat.id, Hn.
Qed.

Lemma In_range n k : In k (range n) <-> 0 <= k < n.
Proof.
  unfold range. rewrite in_map_iff. split.
  - intros (i & <- & Hi). apply in_seq in Hi. lia.
  - intros Hk. exists (Z.to_nat k). split; [lia |]. apply in_seq. lia.
Qed.

(** The frames of [n] sequences of [P] frames have the global indices
    [1 .. P * n], in order. *)
Lemma frame_indices_range a n :
  0 < frames_per_sequence a -> 0 <= n ->
  frame_indices a n = map (fun k => k + 1) (range (frames_per_sequence a * n)).
Proof.
  intros HP Hn. unfold frame_indices.
  rewrite <- (Z2Nat.id n Hn). induction (Z.to_nat n) as [| m IH].
  - rewrite Z.mul_0_r. reflexivity.
  - replace (Z.of_nat (S m)) with (Z.of_nat m + 1) by lia.
    rewrite range_succ, flat_map_app, IH by lia.
    rewrite Z.mul_add_distr_l, Z.mul_1_r, range_app, map_app by nia.
    f_equal. cbn [flat_map]. rewrite app_nil_r, map_map.
    apply map_ext. intros k. lia.
Qed.

(** *** Observations of completed runs *)

Lemma flat_map_without_warnings {B} (g : event -> list B) evs :
  (forall file, g (InconsistentDimensions file) = []) ->
  flat_map g (without_warnings evs) = flat_map g evs.
Proof.
  intros Hg. unfold without_warnings.
  induction evs as [| e evs IH]; [reflexivity |].
  destruct e; cbn; rewrite ?IH; try reflexivity.
  rewrite Hg. reflexivity.
Qed.

Lemma flat_map_validation {B} (g : event -> list B) evs :
  (forall e, is_validation_event e = true -> g e = []) ->
  forallb is_validation_event evs = true ->
  flat_map g evs = [].
Proof.
  intros Hg. induction evs as [| e evs IH]; [reflexivity |].
  cbn. intros H. apply andb_prop in H as (He & Hevs).
  rewrite (Hg e He), (IH Hevs). reflexivity.
Qed.

Lemma existing_resolutions_printed a output_file existing u printed :
  existing_resolutions a output_file tt = (Returned existing, u, printed) ->
  forallb is_validation_event printed = true.
Proof.
  unfold existing_resolutions. destruct output_file as [f |].
  - destruct (append a), (overwrite a); cbn; intros [= _ _ <-]; reflexivity.
  - cbn. intros [= _ _ <-]. reflexivity.
Qed.

Lemma validation_events_valid a printed subdirs n_frames n_sequences :
  forallb is_validation_event printed = true ->
  forallb is_validation_event
    (validation_events a printed subdirs n_frames n_sequences) = true.
Proof.
  intros H. unfold validation_events. rewrite forallb_app, H. cbn.
  rewrite forallb_app. cbn. rewrite andb_true_r.
  apply forallb_forall. intros e He. apply in_map_iff in He as (d & <- & _).
  reflexivity.
Qed.

Lemma flat_map_flat_map {A B C} (g : B -> list C) (h : A -> list B) l :
  flat_map g (flat_map h l) = flat_map (fun x => flat_map g (h x)) l.
Proof.
  induction l as [| x l IH]; [reflexivity |].
  cbn. rewrite flat_map_app, IH. reflexivity.
Qed.

Lemma filter_flat_map {A B} (p : B -> bool) (h : A -> list B) l :
  filter p (flat_map h l) = flat_map (fun x => filter p (h x)) l.
Proof.
  induction l as [| x l IH]; [reflexivity |].
  cbn. rewrite filter_app, IH. reflexivity.
Qed.

Lemma map_flat_map {A B C} (g : B -> C) (h : A -> list B) l :
  map g (flat_map h l) = flat_map (fun x => map g (h x)) l.
Proof.
  induction l as [| x l IH]; [reflexivity |].
  cbn. rewrite map_app, IH. reflexivity.
Qed.

Lemma filter_none {A} (p : A -> bool) l :
  (forall x, In x l -> p x = false) -> filter p l = [].
Proof.
  induction l as [| x l IH]; [reflexivity |].
  intros H. cbn. rewrite (H x (or_introl eq_refl)). apply IH.
  intros y Hy. apply H. right. exact Hy.
Qed.

(** Among directories with distinct names, selecting by the name of one of
    them keeps what belongs to it. *)
Lemma flat_map_select {B} (X : string -> list B) subdirs d :
  NoDup (map name subdirs) -> In d subdirs ->
  flat_map (fun d' => if String.eqb (name d') (name d) then X (name d') else [])
           subdirs = X (name d).
Proof.
  induction subdirs as [| x rest IH]; [contradiction |].
  cbn [map flat_map]. intros Hnd Hin. inversion Hnd as [| ? ? Hx Hrest]; subst.
  assert (Hnone : forall l, ~ In (name d) (map name l) ->
            flat_map (fun d' => if String.eqb (name d') (name d) then X (name d') else [])
                     l = []).
  { induction l as [| y l IHl]; [reflexivity |].
    cbn. intros Hy. destruct (String.eqb_spec (name y) (name d)) as [E | _].
    - exfalso. apply Hy. left. exact E.
    - apply IHl. intros H. apply Hy. right. exact H. }
  destruct (String.eqb_spec (name x) (name d)) as [E | E].
  - rewrite Hnone, app_nil_r; [rewrite E; reflexivity |].
    rewrite <- E. exact Hx.
  - destruct Hin as [-> | Hin]; [contradiction |].
    cbn. apply IH; assumption.
Qed.

Lemma flat_map_nil {A B} (f : A -> list B) (l : list A) :
  (forall x, f x = []) -> flat_map f l = [].
Proof.
  intros Hf. induction l as [| x l IH]; [reflexivity |].
  cbn. rewrite Hf, IH. reflexivity.
Qed.

Lemma files_read_sequence_events a res res' sequence :
  files_read res (sequence_events a res' sequence)
  = if String.eqb res' res
    then map (frame_file_name a sequence) (range (frames_per_sequence a))
    else [].
Proof.
  unfold sequence_events, files_read. cbn [flat_map app].
  induction (range (frames_per_sequence a)) as [| frame l IH]; cbn [map flat_map].
  - destruct (String.eqb res' res); reflexivity.
  - rewrite IH. destruct (String.eqb res' res); reflexivity.
Qed.

Lemma files_read_resolution_events a n_sequences res res' :
  files_read res (resolution_events a n_sequences res')
  = if String.eqb res' res then map source_file (frame_indices a n_sequences) else [].
Proof.
  unfold resolution_events, frame_indices.
  change (files_read res (PackagingResolution res' :: ?l)) with (files_read res l).
  unfold files_read at 1. rewrite flat_map_flat_map.
  rewrite (flat_map_ext _ _ (files_read_sequence_events a res res')).
  destruct (String.eqb res' res).
  - rewrite map_flat_map. apply flat_map_ext. intros sequence.
    rewrite map_map. reflexivity.
  - apply flat_map_nil. reflexivity.
Qed.

Lemma sequence_groups_frames res a r s q l :
  sequence_groups res (flat_map (frame_paths a [r; s; q]) l) = [].
Proof.
  unfold sequence_groups. rewrite filter_flat_map.
  apply flat_map_nil. intros frame. reflexivity.
Qed.

Lemma sequence_groups_app res l1 l2 :
  sequence_groups res (l1 ++ l2)
  = (sequence_groups res l1 ++ sequence_groups res l2)%list.
Proof. apply filter_app. Qed.

Lemma sequence_groups_sequence res a res' r :
  sequence_groups res (sequence_paths a res' r)
  = if String.eqb res' res then [seq_group_path a res' r] else [].
Proof.
  unfold sequence_paths.
  change (?p :: ?l) with ([p] ++ l)%list at 1.
  rewrite sequence_groups_app. unfold seq_group_path at 2.
  rewrite sequence_groups_frames, app_nil_r.
  unfold seq_group_path, sequence_groups. cbn [filter].
  destruct (String.eqb res' res); reflexivity.
Qed.

Lemma flat_map_singleton {A B} (g : A -> B) l : flat_map (fun x => [g x]) l = map g l.
Proof. induction l as [| x l IH]; [reflexivity |]. cbn. rewrite IH. reflexivity. Qed.

Lemma sequence_groups_sequences res a res' rs :
  sequence_groups res (sequences_paths a res' rs)
  = if String.eqb res' res then map (seq_group_path a res') rs else [].
Proof.
  unfold sequences_paths, sequence_groups. rewrite filter_flat_map.
  rewrite (flat_map_ext _ _ (sequence_groups_sequence res a res')).
  destruct (String.eqb res' res).
  - apply flat_map_singleton.
  - apply flat_map_nil. reflexivity.
Qed.

Lemma sequence_groups_resolution res a n_sequences res' :
  sequence_groups res (resolution_paths a n_sequences res')
  = if String.eqb res' res
    then map (seq_group_path a res')
           (routing (test_sequences a) 0 0 (range n_sequences))
    else [].
Proof.
  unfold resolution_paths.
  change (sequence_groups res ([res'] :: [res'; "train"] :: [res'; "test"] :: ?l))
    with (sequence_groups res l).
  apply sequence_groups_sequences.
Qed.

Lemma top_level_sequences a res rs : top_level (sequences_paths a res rs) = [].
Proof.
  unfold top_level, sequences_paths. rewrite flat_map_flat_map.
  apply flat_map_nil. intros r.
  unfold sequence_paths. cbn [flat_map seq_group_path app].
  rewrite flat_map_flat_map.
  apply flat_map_nil. intros frame. reflexivity.
Qed.

Lemma top_level_resolution a n_sequences res :
  top_level (resolution_paths a n_sequences res) = [res].
Proof.
  unfold resolution_paths.
  change (top_level ([res] :: [res; "train"] :: [res; "test"] :: ?l))
    with (res :: top_level l).
  rewrite top_level_sequences. reflexivity.
Qed.

Lemma top_level_app l1 l2 :
  top_level (l1 ++ l2) = (top_level l1 ++ top_level l2)%list.
Proof. apply flat_map_app. Qed.

Lemma keys_top_level f : keys f = by_name (top_level (paths f)).
Proof.
  unfold keys, top_level, paths. f_equal.
  induction (objects f) as [| o l IH]; [reflexivity |].
  cbn. rewrite IH. reflexivity.
Qed.

Lemma In_insert_by_name x y l : In x (insert_by_name y l) <-> x = y \/ In x l.
Proof.
  induction l as [| z l IH]; cbn.
  - intuition auto.
  - destruct (String.leb y z); cbn; [intuition auto |].
    rewrite IH. intuition auto.
Qed.

(** Listing by name lists the same names. *)
Lemma In_by_name x l : In x (by_name l) <-> In x l.
Proof.
  induction l as [| y l IH]; cbn; [reflexivity |].
  rewrite In_insert_by_name, IH. intuition auto.
Qed.

Lemma resolutions_packaged_resolution a n_sequences res :
  resolutions_packaged (resolution_events a n_sequences res) = [res].
Proof.
  unfold resolution_events, resolutions_packaged. cbn [flat_map app]. f_equal.
  rewrite flat_map_flat_map.
  apply flat_map_nil. intros sequence.
  unfold sequence_events. cbn [flat_map app].
  induction (range (frames_per_sequence a)) as [| frame l IH]; [reflexivity |].
  cbn. exact IH.
Qed.

(** An observation that ignores warnings and validation messages sees, in a
    completed run, only the events of the resolutions. *)
Lemma observe_completed {B} (g : event -> list B) a entries output_file existing u printed :
  (forall file, g (InconsistentDimensions file) = []) ->
  (forall e, is_validation_event e = true -> g e = []) ->
  existing_resolutions a output_file tt = (Returned existing, u, printed) ->
  result (main a (Directory entries) output_file) = Returned tt ->
  flat_map g (stdout (main a (Directory entries) output_file))
  = flat_map (fun d => flat_map g
                (resolution_events a
                   (peak_frame_count (hd d (select_subdirs entries existing))
                      / frames_per_sequence a) (name d)))
      (select_subdirs entries existing).
Proof.
  intros Hw Hv Hex Hret.
  destruct (main_returned _ _ _ _ _ _ Hex Hret)
    as (first & others & f' & Hsel & _ & _ & _ & _ & _ & Hev & _).
  rewrite Hsel. cbn [hd].
  rewrite <- (flat_map_without_warnings g _ Hw), Hev, flat_map_app.
  rewrite (flat_map_without_warnings g _ Hw).
  rewrite (flat_map_validation g _ Hv).
  - cbn [app]. apply flat_map_flat_map.
  - apply validation_events_valid.
    apply (existing_resolutions_printed _ _ _ _ _ Hex).
Qed.

(** The source images a completed run opens for one of its resolutions. *)
Lemma files_read_completed a entries output_file existing u printed d :
  existing_resolutions a output_file tt = (Returned existing, u, printed) ->
  In d (select_subdirs entries existing) ->
  result (main a (Directory entries) output_file) = Returned tt ->
  files_read (name d) (stdout (main a (Directory entries) output_file))
  = map source_file
      (frame_indices a (peak_frame_count d / frames_per_sequence a)).
Proof.
  intros Hex Hd Hret.
  destruct (main_returned _ _ _ _ _ _ Hex Hret)
    as (first & others & f' & Hsel & Hall & _ & _ & _ & _ & _ & Hnd & _).
  unfold files_read at 1.
  erewrite observe_completed;
    [| intros; reflexivity
     | intros [] H; (reflexivity || discriminate H)
     | eassumption | assumption].
  assert (Hcount : peak_frame_count d = peak_frame_count first).
  { rewrite Hsel in Hd. destruct Hd as [<- | Hd]; [reflexivity |].
    rewrite Forall_forall in Hall. auto. }
  rewrite Hsel in *. cbn [hd]. rewrite Hcount.
  etransitivity;
    [apply flat_map_ext; intros d';
     apply (files_read_resolution_events a _ (name d) (name d')) |].
  apply (flat_map_select (fun _ => map source_file (frame_indices a _)));
    assumption.
Qed.

(** The sequence groups a completed run creates for one of its resolutions. *)
Lemma sequence_groups_completed a entries output_file existing u printed d :
  existing_resolutions a output_file tt = (Returned existing, u, printed) ->
  In d (select_subdirs entries existing) ->
  result (main a (Directory entries) output_file) = Returned tt ->
  sequence_groups (name d)
    (created a output_file (main a (Directory entries) output_file))
  = map (seq_group_path a (name d))
      (routing (test_sequences a) 0 0
         (range (peak_frame_count d / frames_per_sequence a))).
Proof.
  intros Hex Hd Hret.
  destruct (main_returned _ _ _ _ _ _ Hex Hret)
    as (first & others & f' & Hsel & Hall & _ & _ & Ha & Hp & _ & Hnd & _).
  rewrite (created_paths _ _ _ _ _ Ha Hp).
  assert (Hcount : peak_frame_count d = peak_frame_count first).
  { rewrite Hsel in Hd. destruct Hd as [<- | Hd]; [reflexivity |].
    rewrite Forall_forall in Hall. auto. }
  rewrite Hsel in Hd. rewrite Hcount.
  unfold sequence_groups at 1. rewrite filter_flat_map.
  etransitivity;
    [apply flat_map_ext; intros d';
     apply (sequence_groups_resolution (name d) a _ (name d')) |].
  apply (flat_map_select
           (fun res => map (seq_group_path a res)
                         (routing (test_sequences a) 0 0 (range _))));
    assumption.
Qed.

Lemma frame_groups_app res l1 l2 :
  frame_groups res (l1 ++ l2) = (frame_groups res l1 ++ frame_groups res l2)%list.
Proof. apply filter_app. Qed.

Lemma frame_groups_frame res a r s q frame :
  frame_groups res (frame_paths a [r; s; q] frame)
  = if String.eqb r res
    then [[r; s; q; "frame-" ++ zero_padded (frame_index_digits a) frame]]
    else [].
Proof.
  unfold frame_paths, frame_groups, frame_datasets, child.
  cbn [map app filter fst]. destruct (String.eqb r res); reflexivity.
Qed.

Lemma frame_groups_sequence res a res' r :
  frame_groups res (sequence_paths a res' r)
  = if String.eqb res' res
    then map (fun frame =>
                child (seq_group_path a res' r)
                  ("frame-" ++ zero_padded (frame_index_digits a) frame))
           (range (frames_per_sequence a))
    else [].
Proof.
  unfold sequence_paths.
  change (?p :: ?l) with ([p] ++ l)%list at 1.
  rewrite frame_groups_app.
  change (frame_groups res [seq_group_path a res' r]) with (@nil (list string)).
  cbn [app]. unfold frame_groups at 1. rewrite filter_flat_map.
  etransitivity;
    [apply flat_map_ext; intros frame; unfold seq_group_path;
     apply (frame_groups_frame res a res') |].
  destruct (String.eqb res' res).
  - apply flat_map_singleton.
  - apply flat_map_nil. reflexivity.
Qed.

Lemma routing_indices tests l : forall train_seq_index test_seq_index,
  map (fun r => fst (fst r)) (routing tests train_seq_index test_seq_index l) = l.
Proof.
  induction l as [| s l IH]; intros tr te; [reflexivity |].
  cbn [routing]. destruct (mem_Z s tests); cbn; rewrite IH; reflexivity.
Qed.

Lemma routing_split tests l : forall train_seq_index test_seq_index r,
  In r (routing tests train_seq_index test_seq_index l) ->
  snd (fst r) = mem_Z (fst (fst r)) tests.
Proof.
  induction l as [| s l IH]; intros tr te r; [contradiction |].
  cbn [routing]. destruct (mem_Z s tests) eqn:E; intros [<- | Hr]; cbn; eauto.
Qed.

Lemma length_routing tests l train_seq_index test_seq_index :
  List.length (routing tests train_seq_index test_seq_index l) = List.length l.
Proof.
  rewrite <- (routing_indices tests l train_seq_index test_seq_index) at 2.
  rewrite length_map. reflexivity.
Qed.

(** The numbers within each split count up from the starting counters. *)
Lemma routing_numbers tests l : forall train_seq_index test_seq_index,
  let rs := routing tests train_seq_index test_seq_index l in
  test_numbers rs
    = map (fun k => test_seq_index + k)
          (range (Z.of_nat (List.length (test_numbers rs)))) /\
  train_numbers rs
    = map (fun k => train_seq_index + k)
          (range (Z.of_nat (List.length (train_numbers rs)))).
Proof.
  unfold test_numbers, train_numbers.
  induction l as [| s l IH]; intros tr te; [split; reflexivity |].
  cbn [routing]. destruct (mem_Z s tests).
  - destruct (IH tr (te + 1)) as (Ht & Hn). cbn [filter fst snd negb map].
    split; [| exact Hn].
    cbn [List.length]. rewrite range_cons. cbn [map]. f_equal; [lia |].
    rewrite map_map. rewrite Ht at 1. apply map_ext. intros k. lia.
  - destruct (IH (tr + 1) te) as (Ht & Hn). cbn [filter fst snd negb map].
    split; [exact Ht |].
    cbn [List.length]. rewrite range_cons. cbn [map]. f_equal; [lia |].
    rewrite map_map. rewrite Hn at 1. apply map_ext. intros k. lia.
Qed.

Lemma map_add_0 l : map (fun k => 0 + k) l = l.
Proof. rewrite <- (map_id l) at 2. apply map_ext. intros k. lia. Qed.

(** The frame groups a completed run creates for one of its resolutions:
    as many as the frames of its complete sequences. *)
Lemma frame_groups_completed a entries output_file existing u printed d :
  existing_resolutions a output_file tt = (Returned existing, u, printed) ->
  In d (select_subdirs entries existing) ->
  result (main a (Directory entries) output_file) = Returned tt ->
  Z.of_nat (List.length
    (frame_groups (name d)
       (created a output_file (main a (Directory entries) output_file))))
  = frames_per_sequence a * (peak_frame_count d / frames_per_sequence a).
Proof.
  intros Hex Hd Hret.
  destruct (main_returned _ _ _ _ _ _ Hex Hret)
    as (first & others & f' & Hsel & Hall & Hfps & Hn & Ha & Hp & _ & Hnd & _).
  rewrite (created_paths _ _ _ _ _ Ha Hp).
  assert (Hcount : peak_frame_count d = peak_frame_count first).
  { rewrite Hsel in Hd. destruct Hd as [<- | Hd]; [reflexivity |].
    rewrite Forall_forall in Hall. auto. }
  rewrite Hsel in Hd. rewrite Hcount.
  set (n := peak_frame_count first / frames_per_sequence a) in *.
  set (X := fun res =>
         flat_map (fun r =>
           map (fun frame =>
                  child (seq_group_path a res r)
                    ("frame-" ++ zero_padded (frame_index_digits a) frame))
               (range (frames_per_sequence a)))
           (routing (test_sequences a) 0 0 (range n))).
  assert (Hres : forall res res',
             frame_groups res (resolution_paths a n res')
             = if String.eqb res' res then X res' else []).
  { intros res res'. unfold resolution_paths.
    change (frame_groups res ([res'] :: [res'; "train"] :: [res'; "test"] :: ?l))
      with (frame_groups res l).
    unfold sequences_paths, frame_groups at 1. rewrite filter_flat_map.
    etransitivity;
      [apply flat_map_ext; intros r; apply (frame_groups_sequence res a res') |].
    destruct (String.eqb res' res); [reflexivity |].
    apply flat_map_nil. reflexivity. }
  unfold frame_groups at 1. rewrite filter_flat_map.
  rewrite (flat_map_ext _ _ (fun d' => Hres (name d) (name d'))).
  rewrite (flat_map_select X _ _ Hnd Hd). unfold X.
  rewrite (flat_map_constant_length (c := List.length (range (frames_per_sequence a)))).
  - rewrite length_routing, Nat2Z.inj_mul.
    assert (HF : 0 <= peak_frame_count first)
      by (unfold peak_frame_count; lia).
    assert (HP : 0 < frames_per_sequence a).
    { destruct (Z.lt_trichotomy (frames_per_sequence a) 0) as [Hneg | [H0 | Hpos]];
        [| contradiction | exact Hpos].
      exfalso. pose proof (Z.div_mod (peak_frame_count first) _ Hfps).
      pose proof (Z.mod_neg_bound (peak_frame_count first) _ Hneg). fold n in H. nia. }
    rewrite !length_range by lia. lia.
  - intros r _. apply length_map.
Qed.

Lemma positive_divisor F P : 0 <= F -> P <> 0 -> 0 < F / P -> 0 < P.
Proof.
  intros HF HP Hq.
  destruct (Z.lt_trichotomy P 0) as [Hneg | [H0 | Hpos]];
    [| contradiction | exact Hpos].
  exfalso. pose proof (Z.div_mod F P HP). pose proof (Z.mod_neg_bound F P Hneg). nia.
Qed.

Lemma peak_frame_count_nonneg d : 0 <= peak_frame_count d.
Proof. unfold peak_frame_count. lia. Qed.

(** *** Frame files, sequence counts and routing *)

(** C1, as the code has it: in a completed run, the source images opened
    for a packaged resolution are, sequence by sequence and frame by frame,
    the files [frame-<index>.exr] with the global 1-based index
    [f + frames_per_sequence * s + 1] zero-padded to four digits, for every
    sequence [s] in [0 .. n_sequences - 1] and frame [f] in
    [0 .. frames_per_sequence - 1]; the frame-index-digits setting plays no
    part in the name. *)
Theorem source_files_resolved a entries output_file existing u printed d :
  existing_resolutions a output_file tt = (Returned existing, u, printed) ->
  In d (select_subdirs entries existing) ->
  result (main a (Directory entries) output_file) = Returned tt ->
  files_read (name d) (stdout (main a (Directory entries) output_file))
  = flat_map (fun s =>
      map (fun f => "frame-" ++ zero_padded 4 (f + frames_per_sequence a * s + 1)
                    ++ ".exr")
          (range (frames_per_sequence a)))
      (range (peak_frame_count d / frames_per_sequence a)).
Proof.
  intros Hex Hd Hret.
  rewrite (files_read_completed _ _ _ _ _ _ _ Hex Hd Hret).
  unfold frame_indices. rewrite map_flat_map.
  apply flat_map_ext. intros s. apply map_map.
Qed.

(** C5: for a packaged resolution with [F] frames and frames-per-sequence
    [P], a completed run has [0 < P], creates exactly [F / P] (floor)
    sequence groups and [P * (F / P)] frame groups, and opens exactly the
    frames [1 .. P * (F / P)] in order, so no later frame is read or
    written; a run with [F / P <= 0] never completes, and it raises the
    "not enough frames" error when the counts agree and [P] is not zero. *)
Theorem sequence_count_is_floor a entries output_file existing u printed d :
  existing_resolutions a output_file tt = (Returned existing, u, printed) ->
  In d (select_subdirs entries existing) ->
  let F := peak_frame_count d in
  let P := frames_per_sequence a in
  let r := main a (Directory entries) output_file in
  (result r = Returned tt ->
     0 < P /\
     Z.of_nat (List.length (sequence_groups (name d) (created a output_file r)))
       = F / P /\
     Z.of_nat (List.length (frame_groups (name d) (created a output_file r)))
       = P * (F / P) /\
     files_read (name d) (stdout r)
       = map source_file (map (fun k => k + 1) (range (P * (F / P))))) /\
  (F / P <= 0 -> exists e, result r = Raised e) /\
  (Forall (fun d' => peak_frame_count d' = F) (select_subdirs entries existing) ->
   P <> 0 -> F / P <= 0 ->
   result r = Raised (NotEnoughFrames P) /\ archive r = output_file).
Proof.
  intros Hex Hd F P r.
  assert (Hcompleted : result r = Returned tt -> 0 < P /\ 0 < F / P).
  { intros Hret.
    destruct (main_returned _ _ _ _ _ _ Hex Hret)
      as (first & others & f' & Hsel & Hall & Hfps & Hn & _).
    assert (Hcount : F = peak_frame_count first).
    { unfold F. rewrite Hsel in Hd. destruct Hd as [<- | Hd]; [reflexivity |].
      rewrite Forall_forall in Hall. auto. }
    rewrite Hcount. split; [| exact Hn].
    apply (positive_divisor (peak_frame_count first));
      auto using peak_frame_count_nonneg. }
  split; [| split].
  - intros Hret. destruct (Hcompleted Hret) as (HP & Hn).
    split; [exact HP |]. split; [| split].
    + unfold r. rewrite (sequence_groups_completed _ _ _ _ _ _ _ Hex Hd Hret).
      rewrite length_map, length_routing. apply length_range. fold F P. lia.
    + apply (frame_groups_completed _ _ _ _ _ _ _ Hex Hd Hret).
    + unfold r. rewrite (files_read_completed _ _ _ _ _ _ _ Hex Hd Hret).
      fold F P. rewrite frame_indices_range by (fold P; lia). reflexivity.
  - intros Hle. destruct (result r) as [e | []] eqn:Hres; [eauto |].
    destruct (Hcompleted eq_refl). lia.
  - intros Hsame HP Hle.
    destruct (select_subdirs entries existing) as [| first others] eqn:Hsel;
      [contradiction |].
    inversion Hsame as [| ? ? Hfirst Hothers]; subst.
    assert (Hall : Forall (fun d' => peak_frame_count d' = peak_frame_count first)
                     others).
    { rewrite Hfirst. exact Hothers. }
    pose proof (preflight_consistent _ _ _ _ _ _ _ _ Hex Hsel Hall) as Hpre.
    cbv zeta in Hpre. rewrite Hfirst in Hpre. fold F P in Hpre.
    destruct (Z.eqb_spec P 0) as [| _]; [contradiction |].
    destruct (Z.leb_spec (F / P) 0) as [_ |]; [| lia].
    assert (Hraised : fst (fst (preflight a (Directory entries) output_file tt))
                      = Raised (NotEnoughFrames P)) by (rewrite Hpre; reflexivity).
    destruct (main_preflight_raised _ _ _ _ Hraised) as (Hr & Ha & _).
    auto.
Qed.

(** C7: in a completed run, the sequence groups created for a packaged
    resolution are, in order, one per sequence index of [0 .. n_sequences - 1],
    each in [test] exactly when its index is in the test-sequence set and in
    [train] otherwise, named by its number within its split; and the numbers
    of each split are [0, 1, 2, ...] without gaps, in sequence-index order. *)
Theorem routing_is_dense a entries output_file existing u printed d :
  existing_resolutions a output_file tt = (Returned existing, u, printed) ->
  In d (select_subdirs entries existing) ->
  result (main a (Directory entries) output_file) = Returned tt ->
  let n_sequences := peak_frame_count d / frames_per_sequence a in
  let rs := routing (test_sequences a) 0 0 (range n_sequences) in
  sequence_groups (name d)
    (created a output_file (main a (Directory entries) output_file))
    = map (seq_group_path a (name d)) rs /\
  map (fun r => fst (fst r)) rs = range n_sequences /\
  (forall r, In r rs -> snd (fst r) = mem_Z (fst (fst r)) (test_sequences a)) /\
  test_numbers rs = range (Z.of_nat (List.length (test_numbers rs))) /\
  train_numbers rs = range (Z.of_nat (List.length (train_numbers rs))).
Proof.
  intros Hex Hd Hret n_sequences rs.
  split; [apply (sequence_groups_completed _ _ _ _ _ _ _ Hex Hd Hret) |].
  split; [apply routing_indices |].
  split; [apply routing_split |].
  destruct (routing_numbers (test_sequences a) (range n_sequences) 0 0) as (Ht & Hn).
  fold rs in Ht, Hn. rewrite map_add_0 in Ht, Hn. auto.
Qed.

(** *** The validation errors *)

(** C6: when two of the resolution directories being packaged differ in
    their frame counts, the run raises the inconsistency error for the first
    directory after the first one whose count differs from the first one's,
    and it has written nothing: the output file is as it was and its parent
    directory has not been created. *)
Theorem inconsistent_frame_counts_abort
  a entries output_file existing u printed x y :
  existing_resolutions a output_file tt = (Returned existing, u, printed) ->
  In x (select_subdirs entries existing) ->
  In y (select_subdirs entries existing) ->
  peak_frame_count x <> peak_frame_count y ->
  exists first pre d post,
    select_subdirs entries existing = (first :: pre ++ d :: post)%list /\
    Forall (fun z => peak_frame_count z = peak_frame_count first) pre /\
    peak_frame_count d <> peak_frame_count first /\
    result (main a (Directory entries) output_file)
      = Raised (InconsistentFrames (name d)) /\
    archive (main a (Directory entries) output_file) = output_file /\
    parent_made (main a (Directory entries) output_file) = false.
Proof.
  intros Hex Hx Hy Hxy.
  destruct (select_subdirs entries existing) as [| first others] eqn:Hsel;
    [contradiction |].
  destruct (first_mismatch (peak_frame_count first) others)
    as [Hall | (pre & d & post & -> & Hpre & Hd)].
  - exfalso. apply Hxy.
    assert (Hsame : forall z, In z (first :: others) ->
                              peak_frame_count z = peak_frame_count first).
    { intros z [<- | Hz]; [reflexivity |].
      rewrite Forall_forall in Hall. auto. }
    rewrite (Hsame x Hx), (Hsame y Hy). reflexivity.
  - exists first, pre, d, post.
    pose proof (preflight_inconsistent _ _ _ _ _ _ _ _ _ _ Hex Hsel Hpre Hd) as H.
    destruct (main_preflight_raised _ _ _ _ H) as (Hr & Ha & Hp).
    repeat split; auto.
Qed.

(** C9: with frames-per-sequence 0, a run that gets as far as computing the
    number of sequences stops there with a division by zero and has written
    nothing; and whatever its inputs, a run with that setting never ends in
    the "not enough frames" error. *)
Theorem zero_frames_per_sequence_divides_by_zero
  a entries output_file existing u printed first others :
  frames_per_sequence a = 0 ->
  existing_resolutions a output_file tt = (Returned existing, u, printed) ->
  select_subdirs entries existing = first :: others ->
  Forall (fun d => peak_frame_count d = peak_frame_count first) others ->
  result (main a (Directory entries) output_file) = Raised ZeroDivisionError /\
  archive (main a (Directory entries) output_file) = output_file /\
  parent_made (main a (Directory entries) output_file) = false /\
  forall input_dir' output_file' fps,
    result (main a input_dir' output_file') <> Raised (NotEnoughFrames fps).
Proof.
  intros Hfps Hex Hsel Hall.
  assert (H : fst (fst (preflight a (Directory entries) output_file tt))
              = Raised ZeroDivisionError).
  { rewrite (preflight_consistent _ _ _ _ _ _ _ _ Hex Hsel Hall), Hfps.
    reflexivity. }
  destruct (main_preflight_raised _ _ _ _ H) as (Hr & Ha & Hp).
  repeat split; auto.
  intros input_dir' output_file' fps Hne.
  destruct (preflight_zero_divisor a input_dir' output_file' Hfps) as (e & He & Hno).
  destruct (main_preflight_raised _ _ _ _ He) as (Hr' & _).
  rewrite Hr' in Hne. injection Hne as ->. exact (Hno fps eq_refl).
Qed.

(** C10: when no input subdirectory is left to process after the resolutions
    already in the archive have been filtered out, the run raises
    [IndexError] at [subdirs[0]] (package.py:87) instead of ending normally;
    the output is left as it was. *)
Theorem empty_selection_raises_IndexError
  a entries output_file existing u printed :
  existing_resolutions a output_file tt = (Returned existing, u, printed) ->
  select_subdirs entries existing = [] ->
  result (main a (Directory entries) output_file) = Raised IndexError /\
  archive (main a (Directory entries) output_file) = output_file /\
  parent_made (main a (Directory entries) output_file) = false.
Proof.
  intros Hex Hsel. apply main_preflight_raised.
  rewrite (preflight_selected _ _ _ _ _ _ Hex), Hsel. destruct u. reflexivity.
Qed.

(** *** Append and overwrite *)

Lemma main_stdout_prefix a input_dir output_file :
  exists more,
    stdout (main a input_dir output_file)
    = (snd (preflight a input_dir output_file tt) ++ more)%list.
Proof.
  unfold main.
  destruct (preflight a input_dir output_file tt) as [[[e | [[subdirs nf] ns]] u] l].
  - exists []. cbn. rewrite app_nil_r. reflexivity.
  - destruct (write_archive _ _ _ _ _) as [[r f] l']. exists l'. reflexivity.
Qed.

Lemma preflight_prints_selection a entries output_file existing u printed :
  existing_resolutions a output_file tt = (Returned existing, u, printed) ->
  exists tail,
    snd (preflight a (Directory entries) output_file tt)
    = (printed ++ PackagingResolutions (map name (select_subdirs entries existing))
         :: tail)%list.
Proof.
  intros Hex. rewrite (preflight_selected _ _ _ _ _ _ Hex). cbv zeta.
  unfold bind at 1. cbn [print].
  match goal with
  | |- context [match ?m u with _ => _ end] => destruct (m u) as [[r s'] l]
  end.
  exists l. reflexivity.
Qed.

(** In append mode against an existing archive the names already in it are
    what [existing_resolutions] returns. *)
Lemma append_reads_keys a f :
  append a = true -> overwrite a = false ->
  existing_resolutions a (Some f) tt
  = (Returned (keys f), tt, [FoundResolutions (keys f)]).
Proof. unfold existing_resolutions. intros -> ->. reflexivity. Qed.

(** C4: in append mode (the append flag without the overwrite flag) against
    an existing archive, the run announces and packages exactly the input
    subdirectories whose names are not top-level names of the archive, in
    directory order; when it completes, these are the resolutions it has
    packaged, and the top-level names of the archive are the ones it had
    and these. *)
Theorem append_packages_only_missing a entries f :
  append a = true -> overwrite a = false ->
  let missing :=
    filter (fun d => is_dir d && negb (mem_string (name d) (keys f))) entries in
  let r := main a (Directory entries) (Some f) in
  In (PackagingResolutions (map name missing)) (stdout r) /\
  (result r = Returned tt ->
     resolutions_packaged (stdout r) = map name missing /\
     exists f', archive r = Some f' /\
                forall k, In k (keys f') <-> In k (keys f) \/ In k (map name missing)).
Proof.
  intros Happ Hover. cbv zeta.
  change (filter _ entries) with (select_subdirs entries (keys f)).
  set (r := main a (Directory entries) (Some f)).
  pose proof (append_reads_keys a f Happ Hover) as Hex.
  split.
  - destruct (main_stdout_prefix a (Directory entries) (Some f)) as [more Hout].
    destruct (preflight_prints_selection a entries _ _ _ _ Hex) as [tail Hpre].
    unfold r. rewrite Hout, Hpre. apply in_or_app. left.
    apply in_or_app. right. left. reflexivity.
  - intros Hret.
    destruct (main_returned _ _ _ _ _ _ Hex Hret)
      as (first & others & f' & Hsel & _ & _ & _ & Ha & Hp & _).
    split.
    + unfold resolutions_packaged, r.
      erewrite observe_completed;
        [| intros; reflexivity
         | intros [] H; (reflexivity || discriminate H)
         | eassumption | assumption].
      etransitivity;
        [apply flat_map_ext; intros d';
         apply (resolutions_packaged_resolution a _ (name d')) |].
      apply flat_map_singleton.
    + exists f'. split; [exact Ha |]. intros k.
      rewrite Hsel, (keys_top_level f'), (keys_top_level f), !In_by_name, Hp.
      unfold open_archive. rewrite Happ, top_level_app, in_app_iff.
      assert (Hnew : top_level
                       (flat_map (fun d => resolution_paths a
                                    (peak_frame_count first / frames_per_sequence a)
                                    (name d)) (first :: others))
                     = map name (first :: others)).
      { unfold top_level. rewrite flat_map_flat_map.
        etransitivity;
          [apply flat_map_ext; intros d';
           apply (top_level_resolution a _ (name d')) |].
        apply flat_map_singleton. }
      rewrite Hnew. reflexivity.
Qed.

(** Opened for writing, the archive starts empty: a completed run without
    the append flag leaves exactly the paths it created. *)
Lemma write_mode_replaces a entries output_file existing u printed :
  append a = false ->
  existing_resolutions a output_file tt = (Returned existing, u, printed) ->
  result (main a (Directory entries) output_file) = Returned tt ->
  exists f',
    archive (main a (Directory entries) output_file) = Some f' /\
    paths f' = created a output_file (main a (Directory entries) output_file).
Proof.
  intros Happ Hex Hret.
  destruct (main_returned _ _ _ _ _ _ Hex Hret)
    as (first & others & f' & _ & _ & _ & _ & Ha & Hp & _).
  exists f'. split; [exact Ha |].
  rewrite (created_paths _ _ _ _ _ Ha Hp), Hp.
  unfold open_archive. rewrite Happ. reflexivity.
Qed.

(** C3, at the input where the code departs from it: with both the append
    and the overwrite flag, the existing archive is opened in mode [a], so
    its resolutions [A] and [B] and its attribute on [A] are still there
    after a completed run that packaged [C]. *)
Theorem overwrite_with_append_keeps_archive :
  let r := main (Samples.with_mode Samples.args2 true true)
             (Directory [Samples.res_C]) (Some Samples.archive_AB) in
  result r = Returned tt /\
  option_map keys (archive r) = Some ["A"; "B"; "C"] /\
  option_map (fun f => existsb (fun x => path_eqb (fst (fst x)) ["A"]) (attrs f))
             (archive r) = Some true.
Proof. vm_compute. repeat split. Qed.

(** With both flags and an input resolution that the archive already holds,
    the same run fails on the name instead of replacing the archive. *)
Lemma overwrite_with_append_collides :
  result (main (Samples.with_mode Samples.args2 true true)
            (Directory [Samples.res_A]) (Some Samples.archive_AB))
  = Raised (NameAlreadyExists ["A"]).
Proof. vm_compute. reflexivity. Qed.

(** *** Frame dimensions *)

(** The check of package.py:138-141 never raises: the first frame sets the
    dimensions, a later frame keeps them and is warned about exactly when
    its own differ. *)
Lemma check_dimensions_total frame_dimensions exr file_name f :
  check_dimensions frame_dimensions exr file_name f
  = match frame_dimensions with
    | None => (Returned (get_image_dims (dataWindow exr)), f, [])
    | Some d =>
        (Returned d, f,
         if dims_eqb d (get_image_dims (dataWindow exr)) then []
         else [InconsistentDimensions file_name])
    end.
Proof.
  unfold check_dimensions. destruct frame_dimensions as [d |]; [| reflexivity].
  destruct (dims_eqb d (get_image_dims (dataWindow exr))); reflexivity.
Qed.

(** A channel of another size than [height * width] cannot be given that
    shape. *)
Lemma reshape_wrong_size buf height width :
  0 <= height -> 0 <= width ->
  height * width <> Z.of_nat (List.length buf) ->
  reshape (frombuffer buf) height width
  = Raised (CannotReshape (Z.of_nat (List.length buf)) height width).
Proof.
  intros Hh Hw Hne. unfold reshape, frombuffer. cbn [data].
  destruct (Z.ltb_spec height (-1)); [lia |].
  destruct (Z.ltb_spec width (-1)); [lia |].
  destruct (Z.eqb_spec height (-1)); [lia |].
  destruct (Z.eqb_spec width (-1)); [lia |].
  cbn [orb andb].
  destruct (Z.eqb_spec (height * width) (Z.of_nat (List.length buf)));
    [contradiction | reflexivity].
Qed.

(** C8, at the input where the code departs from it: the second frame of
    the resolution is 2x2 after a 1x1 first frame; the run prints the
    warning for [frame-0002.exr] and then stops with the reshape error of
    its first layer, the archive left partially written. *)
Theorem dimension_mismatch_aborts :
  let r := main Samples.args2 (Directory [Samples.res_mixed]) None in
  result r = Raised (CannotReshape 4 1 1) /\
  In (InconsistentDimensions "frame-0002.exr") (stdout r) /\
  option_map (fun f => List.length (objects f)) (archive r) = Some 19%nat.
Proof. vm_compute. repeat split. auto 20. Qed.

(** When the later frame has the same number of pixels the run does go on:
    a 3x2 frame after a 2x3 one is warned about and packaged with the
    dimensions of the first. *)
Example dimension_mismatch_same_size_continues :
  let r := main Samples.args2
             (Directory [Samples.resolution "A"
                           [Samples.rendered 2 3 0; Samples.rendered 3 2 0]]) None in
  result r = Returned tt /\
  In (InconsistentDimensions "frame-0002.exr") (stdout r) /\
  option_map (fun f => skipn 6 (attrs f)) (archive r)
  = Some [(["A"], "frame-width", 2); (["A"], "frame-height", 3)].
Proof. vm_compute. repeat split. auto 20. Qed.

(** C1, against the specification's wording: with the default frame-index digit
    width of three, the first frame is looked up as [frame-0001.exr], not as
    [frame-001.exr]. *)
Lemma frame_index_digits_not_in_file_name :
  frame_file_name Samples.args0 0 0 <> claimed_frame_file_name Samples.args0 0 0 /\
  result (main Samples.args2 (Directory [Samples.res_three_digits]) None)
  = Raised (CannotOpenExr "frame-0001.exr").
Proof. split; vm_compute; [discriminate | reflexivity]. Qed.

(** *** Well-formed runs complete *)

Lemma parse_zeros k s :
  parse_digits (zeros k ++ s) = parse_digits s.
Proof.
  unfold parse_digits, zeros. induction k as [| k IH]; [reflexivity |].
  rewrite <- IH. simpl.
  destruct (NilEmpty.uint_of_string (string_of_list_ascii (repeat "0"%char k) ++ s))
    as [d |]; reflexivity.
Qed.

Lemma parse_digits_digits n : parse_digits (digits n) = Some n.
Proof.
  unfold parse_digits, digits.
  assert (H : NilZero.string_of_uint (N.to_uint n) = NilEmpty.string_of_uint (N.to_uint n)).
  { destruct n as [| p]; [reflexivity |]. cbn [N.to_uint].
    pose proof (DecimalPos.Unsigned.to_uint_nonnil p). unfold NilZero.string_of_uint.
    destruct (Pos.to_uint p); [contradiction | reflexivity ..]. }
  rewrite H, NilEmpty.usu. cbn. f_equal. apply DecimalN.Unsigned.of_to.
Qed.

Lemma zero_padded_inj width n m :
  0 <= n -> 0 <= m -> zero_padded width n = zero_padded width m -> n = m.
Proof.
  intros Hn Hm. unfold zero_padded.
  destruct (Z.ltb_spec n 0); [lia |]. destruct (Z.ltb_spec m 0); [lia |].
  simpl. rewrite !Nat.sub_0_r. intros Heq.
  apply (f_equal parse_digits) in Heq.
  rewrite !parse_zeros, !parse_digits_digits in Heq.
  injection Heq as Heq. lia.
Qed.

(** *** The created paths are pairwise distinct *)

Lemma NoDup_flat_map_keyed {A B K} (f : A -> list B) (key : B -> K) (kx : A -> K) l :
  NoDup (map kx l) ->
  (forall x, In x l -> NoDup (f x)) ->
  (forall x b, In x l -> In b (f x) -> key b = kx x) ->
  NoDup (flat_map f l).
Proof.
  induction l as [| x l IH]; intros Hnd Hf Hkey; [constructor |].
  cbn [flat_map map] in *. inversion Hnd as [| ? ? Hx Hl]; subst.
  apply NoDup_app.
  - apply Hf. left. reflexivity.
  - apply IH; [exact Hl | |]; intros; [apply Hf | eapply Hkey]; eauto; right; assumption.
  - intros b Hb Hin. apply in_flat_map in Hin as (y & Hy & Hby).
    apply Hx. apply in_map_iff. exists y. split; [| exact Hy].
    rewrite <- (Hkey x b (or_introl eq_refl) Hb).
    symmetry. apply Hkey; [right; exact Hy | exact Hby].
Qed.

Lemma frame_paths_shape a r s q frame p :
  In p (frame_paths a [r; s; q] frame) ->
  exists tail,
    p = r :: s :: q :: ("frame-" ++ zero_padded (frame_index_digits a) frame) :: tail.
Proof.
  unfold frame_paths, child. cbn [app]. intros [<- | Hin].
  - exists []. reflexivity.
  - apply in_map_iff in Hin as (d & <- & _). exists [fst d]. reflexivity.
Qed.

Lemma NoDup_frame_paths a r s q frame : NoDup (frame_paths a [r; s; q] frame).
Proof.
  unfold frame_paths, child, frame_datasets. cbn [app map fst].
  repeat (constructor;
          [let H := fresh in
           intros H; cbn [In] in H;
           repeat (destruct H as [H | H]; [discriminate H |]); exact H |]).
  constructor.
Qed.

Lemma frame_name_inj a j k :
  0 <= j -> 0 <= k ->
  "frame-" ++ zero_padded (frame_index_digits a) j
  = "frame-" ++ zero_padded (frame_index_digits a) k -> j = k.
Proof.
  intros Hj Hk H. cbn [append] in H. injection H as H.
  apply (zero_padded_inj _ _ _ Hj Hk H).
Qed.

Lemma NoDup_map_inj {A B} (g : A -> B) l :
  (forall x y, In x l -> In y l -> g x = g y -> x = y) ->
  NoDup l -> NoDup (map g l).
Proof.
  intros Hg. induction 1 as [| x l Hx Hl IH]; cbn; constructor.
  - intros Hin. apply in_map_iff in Hin as (y & Heq & Hy).
    apply Hx. rewrite (Hg x y); auto; [left | right]; auto.
  - apply IH. intros; apply Hg; auto; right; assumption.
Qed.

Lemma NoDup_range n : NoDup (range n).
Proof.
  unfold range. apply NoDup_map_inj; [| apply seq_NoDup].
  intros x y _ _ H. lia.
Qed.

Lemma NoDup_frames a r s q :
  NoDup (flat_map (frame_paths a [r; s; q]) (range (frames_per_sequence a))).
Proof.
  apply (NoDup_flat_map_keyed _ (fun p => nth 3 p "")
           (fun frame => "frame-" ++ zero_padded (frame_index_digits a) frame)).
  - apply NoDup_map_inj; [| apply NoDup_range].
    intros x y Hx Hy. apply In_range in Hx, Hy. apply frame_name_inj; lia.
  - intros. apply NoDup_frame_paths.
  - intros frame p _ Hp. apply frame_paths_shape in Hp as (tail & ->). reflexivity.
Qed.

Lemma sequence_paths_shape a res r p :
  In p (sequence_paths a res r) ->
  exists tail,
    p = res :: split_name (snd (fst r))
          :: ("seq-" ++ zero_padded (sequence_index_digits a) (snd r)) :: tail.
Proof.
  unfold sequence_paths, seq_group_path. intros [<- | Hin].
  - exists []. reflexivity.
  - apply in_flat_map in Hin as (frame & _ & Hp).
    apply frame_paths_shape in Hp as (tail & ->). eexists. reflexivity.
Qed.

Lemma NoDup_sequence_paths a res r : NoDup (sequence_paths a res r).
Proof.
  unfold sequence_paths, seq_group_path. constructor; [| apply NoDup_frames].
  intros Hin. apply in_flat_map in Hin as (frame & _ & Hp).
  apply frame_paths_shape in Hp as (tail & Hp). discriminate Hp.
Qed.

Lemma routing_lower tests l : forall tr te r,
  In r (routing tests tr te l) ->
  if snd (fst r) then te <= snd r else tr <= snd r.
Proof.
  induction l as [| s l IH]; intros tr te r; [contradiction |].
  cbn [routing]. destruct (mem_Z s tests); intros [<- | Hr]; cbn; try lia;
    specialize (IH _ _ _ Hr); destruct (snd (fst r)); lia.
Qed.

Lemma NoDup_routing_keys a tests l : forall tr te,
  0 <= tr -> 0 <= te ->
  NoDup (map (seq_key a) (routing tests tr te l)).
Proof.
  induction l as [| s l IH]; intros tr te Htr Hte; [constructor |].
  cbn [routing]. destruct (mem_Z s tests); cbn [map]; constructor;
    try (apply IH; lia).
  - intros Hin. apply in_map_iff in Hin as (r & Hkey & Hr).
    pose proof (routing_lower _ _ _ _ _ Hr) as Hlow.
    unfold seq_key in Hkey. cbn [fst snd] in Hkey.
    destruct (snd (fst r)); cbn [split_name] in Hkey; [| discriminate Hkey].
    injection Hkey as Hkey. apply zero_padded_inj in Hkey; lia.
  - intros Hin. apply in_map_iff in Hin as (r & Hkey & Hr).
    pose proof (routing_lower _ _ _ _ _ Hr) as Hlow.
    unfold seq_key in Hkey. cbn [fst snd] in Hkey.
    destruct (snd (fst r)); cbn [split_name] in Hkey; [discriminate Hkey |].
    injection Hkey as Hkey. apply zero_padded_inj in Hkey; lia.
Qed.

Lemma NoDup_sequences_paths a res tests l :
  NoDup (sequences_paths a res (routing tests 0 0 l)).
Proof.
  unfold sequences_paths.
  apply (NoDup_flat_map_keyed _ (fun p => (nth 1 p "", nth 2 p "")) (seq_key a)).
  - apply NoDup_routing_keys; lia.
  - intros. apply NoDup_sequence_paths.
  - intros r p _ Hp. apply sequence_paths_shape in Hp as (tail & ->). reflexivity.
Qed.

Lemma resolution_paths_shape a n res p :
  In p (resolution_paths a n res) -> exists tail, p = res :: tail.
Proof.
  unfold resolution_paths. intros [<- | [<- | [<- | Hin]]]; eauto.
  apply in_flat_map in Hin as (r & _ & Hp).
  apply sequence_paths_shape in Hp as (tail & ->). eauto.
Qed.

Lemma NoDup_resolution_paths a n res : NoDup (resolution_paths a n res).
Proof.
  unfold resolution_paths.
  assert (Hlong : forall p, In p (sequences_paths a res
                     (routing (test_sequences a) 0 0 (range n))) ->
                   (2 < List.length p)%nat).
  { intros p Hin. apply in_flat_map in Hin as (r & _ & Hp).
    apply sequence_paths_shape in Hp as (tail & ->). cbn. lia. }
  repeat (constructor;
          [let H := fresh in
           intros H; cbn [In] in H;
           repeat (destruct H as [H | H]; [discriminate H |]);
           apply Hlong in H; cbn in H; lia |]).
  apply NoDup_sequences_paths.
Qed.

Lemma NoDup_created a n (subdirs : list dir_entry) :
  NoDup (map name subdirs) ->
  NoDup (flat_map (fun d => resolution_paths a n (name d)) subdirs).
Proof.
  intros Hnd.
  apply (NoDup_flat_map_keyed _ (fun p => hd "" p) name); [exact Hnd | |].
  - intros. apply NoDup_resolution_paths.
  - intros d p _ Hp. apply resolution_paths_shape in Hp as (tail & ->). reflexivity.
Qed.

Lemma fresh_app new1 new2 f f1 :
  fresh (new1 ++ new2) f -> paths f1 = (paths f ++ new1)%list -> fresh new2 f1.
Proof.
  intros (Hnd & Hout) Hp. split; [apply (NoDup_app_remove_l _ _ Hnd) |].
  intros p Hp2 Hin. rewrite Hp in Hin. apply in_app_or in Hin as [Hin | Hin].
  - apply (Hout p); [apply in_or_app; right; exact Hp2 | exact Hin].
  - revert p Hin Hp2. clear -Hnd. induction new1 as [| x new1 IH]; [contradiction |].
    cbn in Hnd. inversion Hnd as [| ? ? Hx Hrest]; subst.
    intros p [<- | Hin] Hp2.
    + apply Hx. apply in_or_app. right. exact Hp2.
    + apply (IH Hrest p Hin Hp2).
Qed.

Lemma fresh_prefix new1 new2 f : fresh (new1 ++ new2) f -> fresh new1 f.
Proof.
  intros (Hnd & Hout). split; [apply (NoDup_app_remove_r _ _ Hnd) |].
  intros p Hp. apply Hout. apply in_or_app. left. exact Hp.
Qed.

Lemma fresh_cons p new f f1 :
  fresh (p :: new) f -> paths f1 = (paths f ++ [p])%list -> fresh new f1.
Proof. apply (fresh_app [p] new). Qed.

Lemma h5_exists_true f p : h5_exists f p = true -> In p (paths f).
Proof.
  unfold h5_exists, paths. intros H. apply existsb_exists in H as (o & Ho & Heq).
  unfold path_eqb in Heq. destruct (list_eq_dec string_dec (fst o) p); [| discriminate].
  subst p. apply in_map. exact Ho.
Qed.

Lemma create_group_completes parent nm new f :
  fresh (child parent nm :: new) f ->
  exists f', create_group parent nm f = (Returned tt, f', []) /\ fresh new f'.
Proof.
  intros Hfresh. unfold create_group, update, create.
  destruct (h5_exists f (child parent nm)) eqn:E.
  - exfalso. apply (proj2 Hfresh (child parent nm)); [left; reflexivity |].
    apply h5_exists_true. exact E.
  - eexists. split; [reflexivity |]. apply (fresh_cons _ _ _ _ Hfresh).
    unfold paths. cbn. apply map_app.
Qed.






Lemma range_positive n : 0 < n -> exists rest, range n = 0 :: rest.
Proof.
  intros Hn. replace n with (Z.of_nat (S (Z.to_nat (n - 1)))) by lia.
  rewrite range_cons. eauto.
Qed.




Lemma set_attr_completes p k v f :
  storable v = true ->
  set_attr p k v f
  = (Returned tt, {| objects := objects f; attrs := assign p k v (attrs f) |}, []).
Proof. unfold set_attr. intros ->. reflexivity. Qed.





Lemma small_frame_loadable : loadable (Samples.rendered 1 1 0) (1, 1).
Proof.
  intros d Hd. unfold frame_datasets in Hd. cbn [In] in Hd.
  repeat (destruct Hd as [<- | Hd]; [eexists; vm_compute; reflexivity |]).
  contradiction.
Qed.


(** *** The theorems at concrete inputs *)

Lemma source_files_resolved_witness :
  files_read (name Samples.res_five)
    (stdout (main Samples.args2 (Directory [Samples.res_five]) None))
  = flat_map (fun s =>
      map (fun f => "frame-"
                    ++ zero_padded 4 (f + frames_per_sequence Samples.args2 * s + 1)
                    ++ ".exr")
          (range (frames_per_sequence Samples.args2)))
      (range (peak_frame_count Samples.res_five / frames_per_sequence Samples.args2)).
Proof.
  apply (source_files_resolved Samples.args2 [Samples.res_five] None [] tt []);
    [reflexivity | left; reflexivity | vm_compute; reflexivity].
Defined.

Lemma sequence_count_is_floor_witness :
  result (main Samples.args2 (Directory [Samples.res_five]) None) = Returned tt /\
  Z.of_nat (List.length
    (sequence_groups "A"
       (created Samples.args2 None
          (main Samples.args2 (Directory [Samples.res_five]) None)))) = 5 / 2 /\
  files_read "A" (stdout (main Samples.args2 (Directory [Samples.res_five]) None))
  = map source_file [1; 2; 3; 4].
Proof.
  assert (Hret : result (main Samples.args2 (Directory [Samples.res_five]) None)
                 = Returned tt) by (vm_compute; reflexivity).
  destruct (sequence_count_is_floor Samples.args2 [Samples.res_five] None [] tt []
              Samples.res_five eq_refl (or_introl eq_refl)) as (Hcompleted & _ & _).
  destruct (Hcompleted Hret) as (_ & Hgroups & _ & Hfiles).
  split; [exact Hret |]. split; [exact Hgroups | exact Hfiles].
Defined.

Lemma routing_is_dense_witness :
  sequence_groups "A"
    (created Samples.args_split None
       (main Samples.args_split (Directory [Samples.res_eight]) None))
  = [ ["A"; "train"; "seq-000"]; ["A"; "test"; "seq-000"];
      ["A"; "train"; "seq-001"]; ["A"; "test"; "seq-001"] ].
Proof.
  destruct (routing_is_dense Samples.args_split [Samples.res_eight] None [] tt []
              Samples.res_eight eq_refl (or_introl eq_refl)
              ltac:(vm_compute; reflexivity)) as (Hgroups & _).
  exact Hgroups.
Defined.

Lemma append_packages_only_missing_witness :
  let r := main (Samples.with_mode Samples.args2 true false)
             (Directory [Samples.res_A; Samples.res_B; Samples.res_C])
             (Some Samples.archive_AB) in
  result r = Returned tt /\
  In (PackagingResolutions ["C"]) (stdout r) /\
  resolutions_packaged (stdout r) = ["C"] /\
  exists f', archive r = Some f' /\
             forall k, In k (keys f') <-> In k ["A"; "B"] \/ In k ["C"].
Proof.
  cbv zeta.
  assert (Hret : result (main (Samples.with_mode Samples.args2 true false)
                   (Directory [Samples.res_A; Samples.res_B; Samples.res_C])
                   (Some Samples.archive_AB)) = Returned tt)
    by (vm_compute; reflexivity).
  destruct (append_packages_only_missing (Samples.with_mode Samples.args2 true false)
              [Samples.res_A; Samples.res_B; Samples.res_C] Samples.archive_AB
              eq_refl eq_refl) as (Hprinted & Hcompleted).
  destruct (Hcompleted Hret) as (Hpackaged & Hkeys).
  split; [exact Hret |]. split; [exact Hprinted |]. split; [exact Hpackaged | exact Hkeys].
Defined.

Lemma inconsistent_frame_counts_abort_witness :
  exists first pre d post,
    select_subdirs [Samples.res_X; Samples.res_Y] []
      = (first :: pre ++ d :: post)%list /\
    Forall (fun z => peak_frame_count z = peak_frame_count first) pre /\
    peak_frame_count d <> peak_frame_count first /\
    result (main Samples.args0 (Directory [Samples.res_X; Samples.res_Y]) None)
      = Raised (InconsistentFrames (name d)) /\
    archive (main Samples.args0 (Directory [Samples.res_X; Samples.res_Y]) None)
      = None /\
    parent_made (main Samples.args0 (Directory [Samples.res_X; Samples.res_Y]) None)
      = false.
Proof.
  apply (inconsistent_frame_counts_abort Samples.args0
           [Samples.res_X; Samples.res_Y] None [] tt [] Samples.res_X Samples.res_Y);
    [reflexivity | left; reflexivity | right; left; reflexivity
     | vm_compute; discriminate].
Defined.

(** The resolution named by the error is [Y], the one with 100 frames. *)
Example inconsistent_frames_names_Y :
  result (main Samples.args0 (Directory [Samples.res_X; Samples.res_Y]) None)
  = Raised (InconsistentFrames "Y").
Proof. vm_compute. reflexivity. Qed.

Lemma zero_frames_per_sequence_witness :
  result (main (Samples.with_fps Samples.args0 0) (Directory [Samples.res_A]) None)
    = Raised ZeroDivisionError /\
  archive (main (Samples.with_fps Samples.args0 0) (Directory [Samples.res_A]) None)
    = None /\
  parent_made (main (Samples.with_fps Samples.args0 0) (Directory [Samples.res_A]) None)
    = false /\
  forall input_dir' output_file' fps,
    result (main (Samples.with_fps Samples.args0 0) input_dir' output_file')
    <> Raised (NotEnoughFrames fps).
Proof.
  apply (zero_frames_per_sequence_divides_by_zero (Samples.with_fps Samples.args0 0)
           [Samples.res_A] None [] tt [] Samples.res_A []);
    [reflexivity | reflexivity | reflexivity | constructor].
Defined.

Lemma empty_selection_witness :
  result (main (Samples.with_mode Samples.args2 true false)
            (Directory [Samples.res_A; Samples.res_B]) (Some Samples.archive_AB))
    = Raised IndexError /\
  archive (main (Samples.with_mode Samples.args2 true false)
             (Directory [Samples.res_A; Samples.res_B]) (Some Samples.archive_AB))
    = Some Samples.archive_AB /\
  parent_made (main (Samples.with_mode Samples.args2 true false)
                 (Directory [Samples.res_A; Samples.res_B]) (Some Samples.archive_AB))
    = false.
Proof.
  apply (empty_selection_raises_IndexError (Samples.with_mode Samples.args2 true false)
           [Samples.res_A; Samples.res_B] (Some Samples.archive_AB)
           ["A"; "B"] tt [FoundResolutions ["A"; "B"]]);
    reflexivity.
Defined.

End PackageFacts.

(** ** Properties of the renderer driver *)
Module RenderFacts.
Import Render.

(** *** Nodes and sockets *)

Lemma get_app_new key ns n :
  get key ns = None -> name n = key -> get key (ns ++ [n]) = Some n.
Proof.
  unfold get. intros Hnone Hn. induction ns as [| x ns IH]; cbn in *.
  - rewrite Hn, String.eqb_refl. reflexivity.
  - destruct (String.eqb (name x) key); [discriminate | auto].
Qed.

Lemma get_update_node key f ns n :
  (forall x, name (f x) = name x) ->
  get key ns = Some n -> get key (update_node key f ns) = Some (f n).
Proof.
  unfold get. intros Hf. induction ns as [| x ns IH]; cbn; [discriminate |].
  destruct (String.eqb (name x) key) eqn:E; cbn.
  - intros [= ->]. rewrite Hf, E. reflexivity.
  - rewrite E. exact IH.
Qed.

(** Renaming nothing and retyping nothing, an update finds the same
    Principled BSDF, up to the updated attributes. *)
Lemma find_type_update_node key f ty ns b :
  (forall x, type (f x) = type x) ->
  find (fun n => String.eqb (type n) ty) ns = Some b ->
  find (fun n => String.eqb (type n) ty) (update_node key f ns)
  = Some (if String.eqb (name b) key then f b else b) \/
  find (fun n => String.eqb (type n) ty) (update_node key f ns) = Some b.
Proof.
  intros Hf. induction ns as [| x ns IH]; cbn; [discriminate |].
  destruct (String.eqb (type x) ty) eqn:Et.
  - intros [= ->]. destruct (String.eqb (name b) key) eqn:En; cbn.
    + rewrite Hf, Et. left. reflexivity.
    + rewrite Et. right. reflexivity.
  - intros Hb. destruct (String.eqb (name x) key) eqn:En; cbn.
    + rewrite Hf, Et. right. exact Hb.
    + rewrite Et. exact (IH Hb).
Qed.

Lemma find_app_some {A} (p : A -> bool) l1 l2 x :
  find p l1 = Some x -> find p (l1 ++ l2) = Some x.
Proof.
  induction l1 as [| y l1 IH]; cbn; [discriminate |].
  destruct (p y); auto.
Qed.

Lemma input_set_input socket v ins w :
  find (fun i => String.eqb (fst i) socket) ins = Some w ->
  find (fun i => String.eqb (fst i) socket) (set_input socket v ins)
  = Some (fst w, v).
Proof.
  induction ins as [| i ins IH]; cbn; [discriminate |].
  destruct (String.eqb (fst i) socket) eqn:E; cbn.
  - intros [= ->]. rewrite E. reflexivity.
  - rewrite E. exact IH.
Qed.

Lemma links_to_links_new src_node src_socket key socket ls :
  links_to key socket (links_new src_node src_socket key socket ls)
  = [ {| from_node := src_node; from_socket := src_socket;
         to_node := key; to_socket := socket |} ].
Proof.
  unfold links_to, links_new. rewrite filter_app. cbn.
  rewrite !String.eqb_refl. cbn.
  replace (filter _ (filter _ ls)) with (@nil link); [reflexivity |].
  symmetry. induction ls as [| l ls IH]; [reflexivity |].
  cbn. destruct (String.eqb (to_node l) key && String.eqb (to_socket l) socket) eqn:E;
    cbn; [exact IH |]. rewrite E. exact IH.
Qed.

Lemma input_same_inputs n n' socket :
  inputs n' = inputs n -> input n' socket = input n socket.
Proof. unfold input. intros ->. reflexivity. Qed.

(** Naming the pass on the node called [key] goes through only on an AOV
    output node, and changes the first node of that name. *)
Lemma set_aov_name_returned key value ns ns2 :
  set_aov_name key value ns = Returned ns2 ->
  ns2 = update_node key
          (fun n => {| name := name n; type := type n; aov_name := value;
                       inputs := inputs n |}) ns /\
  exists n, get key ns = Some n /\ type n = "OUTPUT_AOV".
Proof.
  unfold set_aov_name. destruct (get key ns) as [n |]; [| discriminate].
  destruct (String.eqb_spec (type n) "OUTPUT_AOV") as [E | _]; [| discriminate].
  intros [= <-]. eauto.
Qed.

Lemma set_aov_name_completes key value ns n :
  get key ns = Some n -> type n = "OUTPUT_AOV" ->
  set_aov_name key value ns
  = Returned (update_node key
                (fun n => {| name := name n; type := type n; aov_name := value;
                             inputs := inputs n |}) ns).
Proof. unfold set_aov_name. intros -> ->. reflexivity. Qed.

(** *** The loop over the materials *)

(** What [setup_material] leaves for a material that uses nodes and has a
    Principled BSDF node. *)
Lemma setup_material_returned m m' bsdf_node :
  use_nodes m = true ->
  find (fun n => String.eqb (type n) "BSDF_PRINCIPLED") (nodes m) = Some bsdf_node ->
  setup_material m = Returned m' ->
  exists aov_node,
    get "AOV Output" (nodes m') = Some aov_node /\
    aov_name aov_node = rough_pass_name /\
    match links_to (name bsdf_node) "Roughness" (links m) with
    | l :: _ =>
        links_to "AOV Output" "Value" (links m')
        = [ {| from_node := from_node l; from_socket := from_socket l;
               to_node := "AOV Output"; to_socket := "Value" |} ]
    | [] =>
        input aov_node "Value" = input bsdf_node "Roughness" /\
        links m' = links m
    end.
Proof.
  intros Huse Hfind. unfold setup_material. rewrite Huse. cbn [negb].
  set (nodes1 := match get "AOV Output" (nodes m) with
                 | Some _ => nodes m
                 | None => (nodes m ++ [new_aov_node])%list
                 end).
  set (named := fun n : node =>
                  {| name := name n; type := type n; aov_name := rough_pass_name;
                     inputs := inputs n |}).
  destruct (set_aov_name "AOV Output" rough_pass_name nodes1) as [e | nodes2] eqn:Hset;
    [discriminate |].
  apply set_aov_name_returned in Hset as (Hnodes2 & aov1 & Haov1 & _).
  fold named in Hnodes2. subst nodes2.
  assert (Hfind1 : find (fun n => String.eqb (type n) "BSDF_PRINCIPLED") nodes1
                   = Some bsdf_node).
  { unfold nodes1. destruct (get "AOV Output" (nodes m)); [exact Hfind |].
    apply find_app_some. exact Hfind. }
  pose proof (get_update_node "AOV Output" named nodes1 aov1
                (fun x => eq_refl) Haov1) as Haov2.
  assert (Hfind2 : exists b,
             find (fun n => String.eqb (type n) "BSDF_PRINCIPLED")
                  (update_node "AOV Output" named nodes1) = Some b /\
             name b = name bsdf_node /\ inputs b = inputs bsdf_node).
  { destruct (find_type_update_node "AOV Output" named "BSDF_PRINCIPLED" nodes1
                bsdf_node (fun x => eq_refl) Hfind1) as [H | H].
    - eexists. split; [exact H |].
      destruct (String.eqb (name bsdf_node) "AOV Output"); auto.
    - eexists. split; [exact H |]. auto. }
  destruct Hfind2 as (b & -> & Hname & Hinputs).
  rewrite (input_same_inputs bsdf_node b "Roughness" Hinputs), Hname, Haov2.
  rewrite (input_same_inputs aov1 (named aov1) "Value" eq_refl).
  destruct (input bsdf_node "Roughness") as [e | roughness_default] eqn:Hrough;
    [discriminate |].
  destruct (links_to (name bsdf_node) "Roughness" (links m)) as [| l ls].
  - destruct (input aov1 "Value") as [e | v] eqn:Hvalue; [discriminate |].
    intros [= <-]. cbn [nodes links with_tree].
    set (valued := fun n : node =>
                     {| name := name n; type := type n; aov_name := aov_name n;
                        inputs := set_input "Value" roughness_default (inputs n) |}).
    exists (valued (named aov1)). split; [| split; [reflexivity |]].
    + apply (get_update_node "AOV Output" valued _ _ (fun x => eq_refl) Haov2).
    + split; [| reflexivity].
      unfold input in Hvalue |- *. cbn [inputs valued named].
      destruct (find (fun i => String.eqb (fst i) "Value") (inputs aov1))
        as [w |] eqn:Hw; [| discriminate].
      rewrite (input_set_input _ roughness_default _ _ Hw). reflexivity.
  - destruct (input aov1 "Value") as [e | v] eqn:Hvalue; [discriminate |].
    intros [= <-]. cbn [nodes links with_tree].
    exists (named aov1). split; [exact Haov2 |]. split; [reflexivity |].
    apply links_to_links_new.
Qed.

Lemma setup_materials_nth scene : forall scene' i m,
  setup_materials scene = Returned scene' ->
  nth_error scene i = Some m ->
  exists m', nth_error scene' i = Some m' /\ setup_material m = Returned m'.
Proof.
  induction scene as [| x scene IH]; intros scene' i m H Hi.
  - destruct i; discriminate.
  - cbn in H. destruct (setup_material x) as [e | x'] eqn:Hx; [discriminate |].
    destruct (setup_materials scene) as [e | rest'] eqn:Hrest; [discriminate |].
    injection H as <-. destruct i as [| i]; cbn in Hi |- *.
    + injection Hi as ->. eauto.
    + eauto.
Qed.

(** X20: the loop of render.py:60-93, taken alone.  After the loop has run
    over the scene, every material that uses nodes and has a Principled
    BSDF node has an [AOV Output] node carrying the roughness pass; when the
    roughness input
    of the first Principled BSDF node is linked, the only link into the AOV
    node's [Value] input comes from the source socket of the first such
    link; otherwise the [Value] input holds the roughness socket's default
    value and the links are as before. *)
Theorem roughness_exposed_for_principled scene scene' i m bsdf_node :
  setup_materials scene = Returned scene' ->
  nth_error scene i = Some m ->
  use_nodes m = true ->
  find (fun n => String.eqb (type n) "BSDF_PRINCIPLED") (nodes m) = Some bsdf_node ->
  exists m' aov_node,
    nth_error scene' i = Some m' /\
    get "AOV Output" (nodes m') = Some aov_node /\
    aov_name aov_node = rough_pass_name /\
    match links_to (name bsdf_node) "Roughness" (links m) with
    | l :: _ =>
        links_to "AOV Output" "Value" (links m')
        = [ {| from_node := from_node l; from_socket := from_socket l;
               to_node := "AOV Output"; to_socket := "Value" |} ]
    | [] =>
        input aov_node "Value" = input bsdf_node "Roughness" /\
        links m' = links m
    end.
Proof.
  intros Hrun Hi Huse Hfind.
  destruct (setup_materials_nth _ _ _ _ Hrun Hi) as (m' & Hi' & Hm').
  destruct (setup_material_returned _ _ _ Huse Hfind Hm') as (aov_node & H).
  exists m', aov_node. split; [exact Hi' | exact H].
Qed.

(** The loop skips a material that does not use nodes, and leaves it
    without any AOV output for its roughness. *)
Lemma material_without_nodes_skipped :
  setup_materials [Samples.plain] = Returned [Samples.plain] /\
  ~ has_roughness_aov Samples.plain.
Proof.
  split; [reflexivity |]. intros (aov_node & H & _). discriminate H.
Qed.

Lemma roughness_exposed_witness :
  exists m' aov_node,
    nth_error Samples.scene_after 2 = Some m' /\
    get "AOV Output" (nodes m') = Some aov_node /\
    aov_name aov_node = rough_pass_name /\
    links_to "AOV Output" "Value" (links m')
    = [ {| from_node := "Image Texture"; from_socket := "Color";
           to_node := "AOV Output"; to_socket := "Value" |} ].
Proof.
  apply (roughness_exposed_for_principled Samples.scene Samples.scene_after 2
           Samples.textured (Samples.principled "Principled BSDF" 0));
    reflexivity.
Defined.

(** The constant case: the value input takes the socket's default. *)
Example roughness_constant_copied :
  exists m' aov_node,
    nth_error Samples.scene_after 1 = Some m' /\
    get "AOV Output" (nodes m') = Some aov_node /\
    input aov_node "Value" = Returned (VFloat 1056964608) /\
    links m' = links Samples.matte.
Proof. eexists _, _. repeat split; reflexivity. Qed.

(** A material with nodes but no Principled BSDF node gets the AOV node, and
    nothing is wired to it. *)
Example no_principled_node_left_unwired :
  let m := {| material_name := "Glass"; use_nodes := true;
              nodes := [Samples.texture "Image Texture"]; links := [] |} in
  exists m',
    setup_material m = Returned m' /\
    has_roughness_aov m' /\ links m' = [].
Proof.
  eexists. split; [reflexivity |]. split; [| reflexivity].
  eexists. split; reflexivity.
Qed.

(** *** The run of the script *)

(** The parser is never built: the first call is refused. *)
Lemma script_parser_refused :
  add_arguments script_arguments []
  = Raised (TypeError "'required' is an invalid argument for positionals").
Proof. reflexivity. Qed.

(** Without the keyword [required] in the first call, the seven calls build
    the parser. *)
Lemma script_parser_without_required :
  exists parser,
    add_arguments
      ({| flags := ["file"]; required := None; type_name := Some "str";
          action := None; default := None; help := "Path to the Blender file" |}
       :: tl script_arguments) []
    = Returned parser /\ List.length parser = 7%nat.
Proof. eexists. split; reflexivity. Qed.

(** C2: the script never reaches the materials.  Its first [add_argument]
    call passes [required] for the positional argument [file], which
    argparse refuses: whatever the command line, the file and the output
    folder, the run ends with this [TypeError] before the command line is
    read, the output folder made or the file loaded, so that no material's
    roughness is exposed and nothing is rendered. *)
Theorem script_stops_before_materials parse_args open_mainfile render argv folder :
  render_result (main parse_args open_mainfile render argv folder)
  = Raised (TypeError "'required' is an invalid argument for positionals") /\
  out_dir_made (main parse_args open_mainfile render argv folder) = false /\
  written (main parse_args open_mainfile render argv folder) = folder.
Proof. unfold main. rewrite script_parser_refused. repeat split. Qed.

End RenderFacts.

(** ** More on the packager: errors by phase, the layout and contents of the
    archive, its attributes and warnings *)
Module ArchiveFacts.
Import PyFormat Package Expected PackageFacts.
Local Open Scope py_scope.

(** *** What every step keeps, however the run ends *)

Section Keeps.
Context {S : Type} (R : S -> S -> Prop) (P : exn -> Prop).
Hypothesis R_refl : forall s, R s s.
Hypothesis R_trans : forall s1 s2 s3, R s1 s2 -> R s2 s3 -> R s1 s3.

Lemma keeps_ret {A} (a : A) : keeps R P (ret a).
Proof. intros s r s' l [= <- <- _]. split; [apply R_refl | discriminate]. Qed.

Lemma keeps_print ev : keeps R P (print ev).
Proof. intros s r s' l [= <- <- _]. split; [apply R_refl | discriminate]. Qed.

Lemma keeps_raise {A} e : P e -> keeps R P (@raise S A e).
Proof.
  intros He s r s' l [= <- <- _]. split; [apply R_refl |]. intros e' [= <-]. exact He.
Qed.

Lemma keeps_lift {A} (o : outcome A) :
  (forall e, o = Raised e -> P e) -> keeps R P (lift o).
Proof. intros Ho s r s' l [= <- <- _]. split; [apply R_refl | exact Ho]. Qed.

Lemma keeps_update (f : S -> outcome S) :
  (forall s s', f s = Returned s' -> R s s') ->
  (forall s e, f s = Raised e -> P e) ->
  keeps R P (update f).
Proof.
  intros Hret Hraise s r s' l. unfold update.
  destruct (f s) as [e | s1] eqn:E; intros [= <- <- _].
  - split; [apply R_refl |]. intros e' [= <-]. apply (Hraise s e E).
  - split; [apply (Hret s s1 E) | discriminate].
Qed.

Lemma keeps_bind {A B} (m : M S A) (k : A -> M S B) :
  keeps R P m -> (forall a, keeps R P (k a)) -> keeps R P (bind m k).
Proof.
  intros Hm Hk s r s' l. unfold bind.
  destruct (m s) as [[[e | a] s1] l1] eqn:Em.
  - intros [= <- <- _]. destruct (Hm _ _ _ _ Em) as (H1 & He).
    split; [exact H1 |]. intros e' [= <-]. apply (He e eq_refl).
  - destruct (k a s1) as [[r2 s2] l2] eqn:Ek. intros [= <- <- _].
    destruct (Hm _ _ _ _ Em) as (H1 & _). destruct (Hk a _ _ _ _ Ek) as (H2 & He).
    split; [apply (R_trans _ _ _ H1 H2) | exact He].
Qed.

Lemma keeps_for_fold {A X} (xs : list X) (body : A -> X -> M S A) :
  (forall acc x, keeps R P (body acc x)) ->
  forall acc, keeps R P (for_fold xs acc body).
Proof.
  intros Hbody. induction xs as [| x xs IH]; intros acc; cbn [for_fold].
  - apply keeps_ret.
  - apply keeps_bind; [apply Hbody | exact IH].
Qed.

Lemma keeps_for_each {X} (xs : list X) (body : X -> M S unit) :
  (forall x, keeps R P (body x)) -> keeps R P (for_each xs body).
Proof. intros Hbody. apply keeps_for_fold. intros _ x. apply Hbody. Qed.

End Keeps.

(** *** Reading attributes back *)

Lemma get_attr_assign_same p k v l :
  option_map snd
    (find (fun x => path_eqb (fst (fst x)) p && String.eqb (snd (fst x)) k)
          (assign p k v l)) = Some v.
Proof.
  assert (Hpp : path_eqb p p = true).
  { unfold path_eqb. destruct (list_eq_dec string_dec p p); congruence. }
  induction l as [| [[p' k'] v'] l IH]; cbn.
  - rewrite Hpp, String.eqb_refl. reflexivity.
  - destruct (path_eqb p' p && String.eqb k' k) eqn:E; cbn.
    + rewrite Hpp, String.eqb_refl. reflexivity.
    + rewrite E. exact IH.
Qed.

Lemma path_eqb_eq p q : path_eqb p q = true <-> p = q.
Proof.
  unfold path_eqb. destruct (list_eq_dec string_dec p q); split; congruence.
Qed.

Lemma get_attr_assign_other p k v p' k' l :
  (p', k') <> (p, k) ->
  find (fun x => path_eqb (fst (fst x)) p' && String.eqb (snd (fst x)) k')
       (assign p k v l)
  = find (fun x => path_eqb (fst (fst x)) p' && String.eqb (snd (fst x)) k') l.
Proof.
  intros Hne.
  assert (Hnew : path_eqb p p' && String.eqb k k' = false).
  { destruct (path_eqb p p') eqn:Ep; [| reflexivity].
    destruct (String.eqb_spec k k') as [-> | _]; [| reflexivity].
    apply path_eqb_eq in Ep. subst. contradiction Hne. reflexivity. }
  induction l as [| [[q j] w] l IH]; cbn.
  - rewrite Hnew. reflexivity.
  - destruct (path_eqb q p && String.eqb j k) eqn:E; cbn.
    + rewrite Hnew. apply andb_prop in E as (Eq & Ej).
      apply path_eqb_eq in Eq. apply String.eqb_eq in Ej. subst.
      rewrite Hnew. reflexivity.
    + rewrite IH. reflexivity.
Qed.

Lemma get_attr_set_same p k v f u f' evs :
  set_attr p k v f = (Returned u, f', evs) -> get_attr f' p k = Some v.
Proof.
  unfold set_attr. destruct (storable v); [| discriminate].
  intros [= _ <- _]. apply get_attr_assign_same.
Qed.

Lemma get_attr_set_other p k v p' k' f u f' evs :
  set_attr p k v f = (u, f', evs) -> (p', k') <> (p, k) ->
  get_attr f' p' k' = get_attr f p' k'.
Proof.
  unfold set_attr, get_attr. destruct (storable v); intros [= _ <- _] Hne;
    [| reflexivity].
  cbn [attrs]. rewrite (get_attr_assign_other _ _ _ _ _ _ Hne). reflexivity.
Qed.

Lemma extends_refl f : extends f f.
Proof. split; [exists []; symmetry; apply app_nil_r | auto]. Qed.

Lemma extends_trans f1 f2 f3 : extends f1 f2 -> extends f2 f3 -> extends f1 f3.
Proof.
  intros ((n1 & H1) & A1) ((n2 & H2) & A2). split.
  - exists (n1 ++ n2)%list. rewrite H2, H1, app_assoc. reflexivity.
  - auto.
Qed.

Lemma keeps_set_attr p k v : keeps extends write_error (set_attr p k v).
Proof.
  intros s r s' l H. destruct (storable v) eqn:Ev.
  - rewrite (set_attr_completes _ _ _ _ Ev) in H.
    pose proof (set_attr_completes p k v s Ev) as Hs.
    injection H as <- <- _. split; [| discriminate]. split.
    + exists []. cbn. symmetry. apply app_nil_r.
    + intros p' k' Hsome.
      destruct (list_eq_dec string_dec p' p) as [-> | Hp].
      * destruct (string_dec k' k) as [-> | Hk].
        -- rewrite (get_attr_set_same _ _ _ _ _ _ _ Hs). discriminate.
        -- rewrite (get_attr_set_other _ _ _ _ _ _ _ _ _ Hs); [exact Hsome | congruence].
      * rewrite (get_attr_set_other _ _ _ _ _ _ _ _ _ Hs); [exact Hsome | congruence].
  - unfold set_attr in H. rewrite Ev in H. injection H as <- <- _.
    split; [apply extends_refl |]. intros e [= <-]. reflexivity.
Qed.

(** *** The errors of the archive-writing phase *)

Lemma obind_raised {A B} (o : outcome A) (k : A -> outcome B) e :
  obind o k = Raised e -> o = Raised e \/ exists a, o = Returned a /\ k a = Raised e.
Proof. destruct o as [e' | a]; cbn; [intros [= ->]; auto | eauto]. Qed.

Lemma channel_raised file c e : channel file c = Raised e -> write_error e.
Proof.
  unfold channel. destruct (find _ _) as [[? ?] |]; [discriminate |].
  intros [= <-]. reflexivity.
Qed.

Lemma reshape_raised arr height width e :
  reshape arr height width = Raised e -> write_error e.
Proof.
  unfold reshape.
  repeat match goal with
         | |- context [if ?c then _ else _] => destruct c
         | |- context [match ?o with Some _ => _ | None => _ end] => destruct o
         end;
    first [discriminate | intros [= <-]; reflexivity].
Qed.

Lemma stack_raised arrays e : stack arrays = Raised e -> write_error e.
Proof.
  unfold stack. destruct arrays as [| a0 rest]; [intros [= <-]; reflexivity |].
  destruct (forallb _ rest); [discriminate | intros [= <-]; reflexivity].
Qed.

Ltac split_obind H :=
  repeat (apply obind_raised in H as [H | (? & _ & H)];
          [first [ apply channel_raised in H; exact H
                 | apply reshape_raised in H; exact H ] |]).

Lemma load_source_raised file width height src e :
  load_source file width height src = Raised e -> write_error e.
Proof.
  destruct src as [layer with_alpha use_xyzw | layer]; cbn [load_source].
  - unfold load_exr_layer. intros H. split_obind H.
    destruct with_alpha.
    + split_obind H. apply stack_raised in H. exact H.
    + apply stack_raised in H. exact H.
  - unfold load_exr_layer_single. intros H. split_obind H.
    apply reshape_raised in H. exact H.
Qed.

Lemma nested_zero_padded_raised width n e :
  nested_zero_padded width n = Raised e -> write_error e.
Proof.
  unfold nested_zero_padded.
  destruct (width <? 0); [intros [= <-]; reflexivity |].
  destruct (2 ^ 63 <=? width); [intros [= <-]; reflexivity | discriminate].
Qed.

Lemma InputFile_raised subdir file_name e :
  InputFile subdir file_name = Raised e -> write_error e.
Proof.
  unfold InputFile. destruct (find _ _) as [[? [? |]] |];
    first [discriminate | intros [= <-]; reflexivity].
Qed.

Section Bodies.
Variable R : h5file -> h5file -> Prop.
Hypothesis R_refl : forall f, R f f.
Hypothesis R_trans : forall f1 f2 f3, R f1 f2 -> R f2 f3 -> R f1 f3.
Hypothesis R_create : forall p o f f', create p o f = Returned f' -> R f f'.

Lemma keeps_create_group parent nm : keeps R write_error (create_group parent nm).
Proof.
  apply keeps_update; [apply R_refl | apply R_create |].
  unfold create. intros s e. destruct (h5_exists s (child parent nm)); [| discriminate].
  intros [= <-]. reflexivity.
Qed.

Lemma keeps_create_dataset parent nm arr :
  keeps R write_error (create_dataset parent nm arr).
Proof.
  apply keeps_update; [apply R_refl | apply R_create |].
  unfold create. intros s e. destruct (h5_exists s (child parent nm)); [| discriminate].
  intros [= <-]. reflexivity.
Qed.

Lemma keeps_check_dimensions frame_dimensions exr file_name :
  keeps R write_error (check_dimensions frame_dimensions exr file_name).
Proof.
  unfold check_dimensions. destruct frame_dimensions as [d |].
  - destruct (negb _).
    + apply (keeps_bind R write_error R_trans); [apply keeps_print, R_refl |].
      intros _. apply keeps_ret, R_refl.
    + apply keeps_ret, R_refl.
  - apply keeps_ret, R_refl.
Qed.

Lemma keeps_frame_body a subdir seq_group sequence frame_dimensions frame :
  keeps R write_error
    (frame_body a subdir seq_group sequence frame_dimensions frame).
Proof.
  unfold frame_body.
  apply (keeps_bind R write_error R_trans); [apply keeps_lift; [apply R_refl |
                                    apply nested_zero_padded_raised] |].
  intros group_name.
  apply (keeps_bind R write_error R_trans); [apply keeps_create_group |]. intros _.
  apply (keeps_bind R write_error R_trans); [apply keeps_print, R_refl |]. intros _.
  apply (keeps_bind R write_error R_trans); [apply keeps_lift; [apply R_refl | apply InputFile_raised] |].
  intros exr.
  apply (keeps_bind R write_error R_trans); [apply keeps_check_dimensions |]. intros [width height].
  apply (keeps_bind R write_error R_trans); [| intros _; apply keeps_ret, R_refl].
  apply keeps_for_each; [apply R_refl | apply R_trans |].
  intros [dataset src].
  apply (keeps_bind R write_error R_trans); [apply keeps_lift; [apply R_refl | apply load_source_raised] |].
  intros arr. apply keeps_create_dataset.
Qed.

Lemma keeps_frames a subdir seq_group sequence l frame_dimensions :
  keeps R write_error
    (for_fold l frame_dimensions (frame_body a subdir seq_group sequence)).
Proof.
  apply keeps_for_fold; [apply R_refl | apply R_trans |].
  intros acc x. apply keeps_frame_body.
Qed.

Lemma keeps_sequence_body a subdir vars sequence :
  keeps R write_error (sequence_body a subdir vars sequence).
Proof.
  unfold sequence_body. destruct vars as [[tr te] dims].
  destruct (mem_Z sequence (test_sequences a));
    (apply (keeps_bind R write_error R_trans); [apply keeps_print, R_refl |]; intros _;
     apply (keeps_bind R write_error R_trans); [apply keeps_lift; [apply R_refl |
                                        apply nested_zero_padded_raised] |];
     intros group_name;
     apply (keeps_bind R write_error R_trans); [apply keeps_create_group |]; intros _;
     apply (keeps_bind R write_error R_trans); [| intros d; apply keeps_ret, R_refl];
     apply keeps_frames).
Qed.

Lemma keeps_sequences a subdir l vars :
  keeps R write_error (for_fold l vars (sequence_body a subdir)).
Proof.
  apply keeps_for_fold; [apply R_refl | apply R_trans |].
  intros acc x. apply keeps_sequence_body.
Qed.

End Bodies.

Lemma extends_create p o f f' : create p o f = Returned f' -> extends f f'.
Proof.
  unfold create. destruct (h5_exists f p); [discriminate |].
  intros [= <-]. split; [eexists; reflexivity | auto].
Qed.

Lemma keeps_package_resolution a n_sequences subdir :
  keeps extends write_error (package_resolution a n_sequences subdir).
Proof.
  unfold package_resolution.
  apply keeps_bind; [apply extends_trans | apply keeps_print, extends_refl |]. intros _.
  do 3 (apply keeps_bind;
        [apply extends_trans
        | apply keeps_create_group; [apply extends_refl | apply extends_create] |];
        intros _).
  apply keeps_bind; [apply extends_trans | |].
  - apply keeps_sequences;
      [apply extends_refl | apply extends_trans | apply extends_create].
  - intros vars. destruct (snd vars) as [[width height] |].
    + apply keeps_bind; [apply extends_trans | apply keeps_set_attr |].
      intros _. apply keeps_set_attr.
    + apply keeps_raise; [apply extends_refl | reflexivity].
Qed.

Lemma keeps_write_archive a subdirs n_frames n_sequences :
  keeps extends write_error (write_archive a subdirs n_frames n_sequences).
Proof.
  unfold write_archive.
  do 6 (apply keeps_bind; [apply extends_trans | apply keeps_set_attr |]; intros _).
  apply keeps_for_each; [apply extends_refl | apply extends_trans |].
  intros d. apply keeps_package_resolution.
Qed.

Lemma preflight_raised_validation a input_dir output_file e u l :
  preflight a input_dir output_file tt = (Raised e, u, l) ->
  is_validation_error e = true.
Proof.
  intros H.
  destruct input_dir as [| | entries].
  - injection H as <- _ _. reflexivity.
  - destruct (existing_resolutions_cases a output_file)
      as [[printed Hex] | (existing & printed & Hex)]; unfold preflight in H.
    + rewrite (bind_raised_left _ _ _ _ _ _ Hex) in H. injection H as <- _ _. reflexivity.
    + rewrite (bind_step _ _ _ _ _ _ Hex) in H. injection H as <- _ _. reflexivity.
  - destruct (existing_resolutions_cases a output_file)
      as [[printed Hex] | (existing & printed & Hex)].
    + unfold preflight in H. rewrite (bind_raised_left _ _ _ _ _ _ Hex) in H.
      injection H as <- _ _. reflexivity.
    + destruct (select_subdirs entries existing) as [| first others] eqn:Hsel.
      * rewrite (preflight_selected _ _ _ _ _ _ Hex), Hsel in H.
        injection H as <- _ _. reflexivity.
      * destruct (first_mismatch (peak_frame_count first) others)
          as [Hall | (pre & d & post & -> & Hpre & Hd)].
        -- rewrite (preflight_consistent _ _ _ _ _ _ _ _ Hex Hsel Hall) in H.
           destruct (frames_per_sequence a =? 0);
             [injection H as <- _ _; reflexivity |].
           destruct (_ <=? 0); [injection H as <- _ _; reflexivity | discriminate].
        -- pose proof (preflight_inconsistent _ _ _ _ _ _ _ _ _ _ Hex Hsel Hpre Hd) as Hr.
           rewrite H in Hr. injection Hr as ->. reflexivity.
Qed.

(** X2: an error of the validation phase leaves the output as it was, parent
    directory included; any other error comes after the archive was opened,
    and the archive then still holds every object it was opened with. *)
Theorem errors_by_phase a input_dir output_file e :
  result (main a input_dir output_file) = Raised e ->
  if is_validation_error e
  then archive (main a input_dir output_file) = output_file /\
       parent_made (main a input_dir output_file) = false
  else parent_made (main a input_dir output_file) = true /\
       exists f', archive (main a input_dir output_file) = Some f' /\
                  extends (open_archive a output_file) f'.
Proof.
  unfold main.
  destruct (preflight a input_dir output_file tt) as [[[e' | [[subdirs nf] ns]] u] l]
    eqn:Hpre.
  - cbn. intros [= ->]. destruct u.
    rewrite (preflight_raised_validation _ _ _ _ _ _ Hpre). auto.
  - destruct (write_archive a subdirs nf ns (open_archive a output_file))
      as [[r f'] l'] eqn:Hw.
    cbn. intros ->.
    destruct (keeps_write_archive _ _ _ _ _ _ _ _ Hw) as (Hext & Herr).
    rewrite (Herr e eq_refl). eauto.
Qed.

(** X3: with the append flag, whatever happens, no object of the existing
    archive is removed, changed or reordered, and no attribute is removed. *)
Theorem append_keeps_archive a input_dir f :
  append a = true ->
  exists f', archive (main a input_dir (Some f)) = Some f' /\ extends f f'.
Proof.
  intros Happ. unfold main.
  destruct (preflight a input_dir (Some f) tt) as [[[e' | [[subdirs nf] ns]] u] l].
  - exists f. split; [reflexivity | apply extends_refl].
  - destruct (write_archive a subdirs nf ns (open_archive a (Some f)))
      as [[r f'] l'] eqn:Hw.
    exists f'. split; [reflexivity |].
    destruct (keeps_write_archive _ _ _ _ _ _ _ _ Hw) as (Hext & _).
    unfold open_archive in Hext. rewrite Happ in Hext. exact Hext.
Qed.

Lemma same_attrs_create p o f f' : create p o f = Returned f' -> same_attrs f f'.
Proof.
  unfold create. destruct (h5_exists f p); [discriminate |]. intros [= <-]. reflexivity.
Qed.

Lemma same_attrs_trans f1 f2 f3 : same_attrs f1 f2 -> same_attrs f2 f3 -> same_attrs f1 f3.
Proof. unfold same_attrs. congruence. Qed.

Lemma dims_eqb_refl d : dims_eqb d d = true.
Proof. unfold dims_eqb. rewrite !Z.eqb_refl. reflexivity. Qed.

Lemma warnings_app l1 l2 : warnings (l1 ++ l2) = (warnings l1 ++ warnings l2)%list.
Proof. apply flat_map_app. Qed.

Lemma frame_body_dims a subdir seq_group sequence frame_dimensions frame f d f' evs :
  frame_body a subdir seq_group sequence frame_dimensions frame f
    = (Returned d, f', evs) ->
  exists h,
    header_dims subdir (frame_file_name a sequence frame) = Some h /\
    d = Some (match frame_dimensions with Some c => c | None => h end) /\
    warnings evs = match frame_dimensions with
                   | Some c => if dims_eqb c h then []
                               else [frame_file_name a sequence frame]
                   | None => []
                   end.
Proof.
  unfold frame_body. intros H.
  apply bind_returned in H as (group_name & f1 & l1 & l1' & Hn & H & ->).
  apply lift_returned in Hn as (_ & -> & ->).
  apply bind_returned in H as (u2 & f2 & l2 & l2' & Hg & H & ->).
  apply create_group_returned in Hg as (_ & _ & _ & ->).
  apply bind_returned in H as (u3 & f3 & l3 & l3' & Hpr & H & ->).
  apply print_returned in Hpr as (-> & ->).
  apply bind_returned in H as (exr & f4 & l4 & l4' & He & H & ->).
  apply lift_returned in He as (He & -> & ->).
  apply bind_returned in H as (dims & f5 & l5 & l5' & Hd & H & ->).
  rewrite check_dimensions_total in Hd.
  assert (Hdims : dims = match frame_dimensions with
                         | Some c => c
                         | None => get_image_dims (dataWindow exr)
                         end /\
                  warnings l5 = match frame_dimensions with
                                | Some c =>
                                    if dims_eqb c (get_image_dims (dataWindow exr))
                                    then [] else [frame_file_name a sequence frame]
                                | None => []
                                end).
  { destruct frame_dimensions as [c |]; injection Hd as <- _ <-;
      (split; [reflexivity |]).
    - destruct (dims_eqb c (get_image_dims (dataWindow exr))); reflexivity.
    - reflexivity. }
  destruct Hdims as (Hdims & Hl5). clear Hd.
  destruct dims as [width height].
  apply bind_returned in H as (u6 & f6 & l6 & l6' & Hds & H & ->).
  apply write_datasets_returned in Hds as (_ & ->).
  apply ret_returned in H as (-> & _ & ->).
  exists (get_image_dims (dataWindow exr)). unfold header_dims. rewrite He.
  split; [reflexivity |]. split; [rewrite Hdims; reflexivity |].
  cbn. rewrite warnings_app, Hl5. cbn. apply app_nil_r.
Qed.

Lemma frames_dims_settled a subdir seq_group sequence c l : forall f d f' evs,
  for_fold l (Some c) (frame_body a subdir seq_group sequence) f = (Returned d, f', evs) ->
  d = Some c /\ warnings evs = flat_map (frame_warning a subdir c sequence) l.
Proof.
  induction l as [| k rest IH]; intros f d f' evs H; cbn [for_fold] in H.
  - apply ret_returned in H as (-> & _ & ->). auto.
  - apply bind_returned in H as (d1 & f1 & l1 & l2 & Hb & H & ->).
    apply frame_body_dims in Hb as (h & Hh & -> & Hw).
    apply IH in H as (-> & Hw2). split; [reflexivity |].
    rewrite warnings_app, Hw, Hw2. cbn [flat_map]. unfold frame_warning at 2.
    rewrite Hh. reflexivity.
Qed.

Lemma frames_dims_first a subdir seq_group sequence k rest f d f' evs :
  for_fold (k :: rest) None (frame_body a subdir seq_group sequence) f
    = (Returned d, f', evs) ->
  exists c,
    header_dims subdir (frame_file_name a sequence k) = Some c /\
    d = Some c /\
    warnings evs = flat_map (frame_warning a subdir c sequence) (k :: rest).
Proof.
  cbn [for_fold]. intros H.
  apply bind_returned in H as (d1 & f1 & l1 & l2 & Hb & H & ->).
  apply frame_body_dims in Hb as (h & Hh & -> & Hw).
  apply frames_dims_settled in H as (-> & Hw2).
  exists h. split; [exact Hh |]. split; [reflexivity |].
  rewrite warnings_app, Hw, Hw2. cbn [flat_map app]. unfold frame_warning at 2.
  rewrite Hh, dims_eqb_refl. reflexivity.
Qed.

(** The frames loop of one sequence, seen from [sequence_body]. *)
Lemma sequence_body_frames a subdir train_seq_index test_seq_index frame_dimensions
  sequence f vars f' evs :
  sequence_body a subdir (train_seq_index, test_seq_index, frame_dimensions) sequence f
    = (Returned vars, f', evs) ->
  exists seq_group f1 evs1,
    for_fold (range (frames_per_sequence a)) frame_dimensions
      (frame_body a subdir seq_group sequence) f1 = (Returned (snd vars), f', evs1) /\
    warnings evs = warnings evs1.
Proof.
  unfold sequence_body.
  destruct (mem_Z sequence (test_sequences a)); intros H;
    apply bind_returned in H as (u1 & f1 & l1 & l1' & Hpr & H & ->);
    apply print_returned in Hpr as (-> & ->);
    apply bind_returned in H as (group_name & f2 & l2 & l2' & Hn & H & ->);
    apply lift_returned in Hn as (_ & -> & ->);
    apply bind_returned in H as (u3 & f3 & l3 & l3' & Hg & H & ->);
    apply create_group_returned in Hg as (_ & _ & _ & ->);
    apply bind_returned in H as (dims & f4 & l4 & l4' & Hfr & H & ->);
    apply ret_returned in H as (-> & -> & ->);
    eexists _, _, _; (split; [exact Hfr |]);
    cbn; rewrite !warnings_app; cbn; rewrite app_nil_r; reflexivity.
Qed.

Lemma sequences_dims_settled a subdir c l :
  forall train_seq_index test_seq_index f vars f' evs,
  for_fold l (train_seq_index, test_seq_index, Some c) (sequence_body a subdir) f
    = (Returned vars, f', evs) ->
  snd vars = Some c /\
  warnings evs
  = flat_map (fun s => flat_map (frame_warning a subdir c s)
                         (range (frames_per_sequence a))) l.
Proof.
  induction l as [| s rest IH]; intros tr te f vars f' evs H; cbn [for_fold] in H.
  - apply ret_returned in H as (-> & _ & ->). auto.
  - apply bind_returned in H as ([[tr1 te1] d1] & f1 & l1 & l2 & Hb & H & ->).
    apply sequence_body_frames in Hb as (g & f0 & evs1 & Hfr & Hw).
    cbn [snd] in Hfr. apply frames_dims_settled in Hfr as (-> & Hw1).
    apply IH in H as (Hv & Hw2). split; [exact Hv |].
    rewrite warnings_app, Hw, Hw1, Hw2. reflexivity.
Qed.

Lemma sequences_dims_first a subdir n_sequences f vars f' evs :
  0 < n_sequences -> 0 < frames_per_sequence a ->
  for_fold (range n_sequences) (0, 0, None) (sequence_body a subdir) f
    = (Returned vars, f', evs) ->
  exists c,
    first_dims a subdir = Some c /\ snd vars = Some c /\
    warnings evs
    = flat_map (fun s => flat_map (frame_warning a subdir c s)
                           (range (frames_per_sequence a))) (range n_sequences).
Proof.
  intros Hn HP.
  destruct (range_positive _ Hn) as [rest Hrange].
  destruct (range_positive _ HP) as [rest' Hframes].
  rewrite Hrange. cbn [for_fold]. intros H.
  apply bind_returned in H as ([[tr1 te1] d1] & f1 & l1 & l2 & Hb & H & ->).
  apply sequence_body_frames in Hb as (g & f0 & evs1 & Hfr & Hw).
  cbn [snd] in Hfr. rewrite Hframes in Hfr.
  apply frames_dims_first in Hfr as (c & Hc & -> & Hw1).
  apply sequences_dims_settled in H as (Hv & Hw2).
  exists c. split; [exact Hc |]. split; [exact Hv |].
  rewrite warnings_app, Hw, Hw1, Hw2. cbn [flat_map]. rewrite Hframes. reflexivity.
Qed.

Lemma mismatched_frames_first a n_sequences subdir c :
  first_dims a subdir = Some c ->
  mismatched_frames a n_sequences subdir
  = flat_map (fun s => flat_map (frame_warning a subdir c s)
                         (range (frames_per_sequence a))) (range n_sequences).
Proof.
  intros Hc. unfold mismatched_frames. rewrite Hc.
  apply flat_map_ext. intros s. apply flat_map_ext. intros k.
  unfold frame_warning. destruct (header_dims _ _); reflexivity.
Qed.

(** What [package_resolution] leaves, beyond the paths: the warnings, and the
    two attributes of the resolution, all other attributes as they were. *)
Lemma package_resolution_attrs a n_sequences subdir f u f' evs :
  0 < n_sequences -> 0 < frames_per_sequence a ->
  package_resolution a n_sequences subdir f = (Returned u, f', evs) ->
  exists c,
    first_dims a subdir = Some c /\
    warnings evs = mismatched_frames a n_sequences subdir /\
    get_attr f' [name subdir] "frame-width" = Some (fst c) /\
    get_attr f' [name subdir] "frame-height" = Some (snd c) /\
    forall p k, p <> [name subdir] -> get_attr f' p k = get_attr f p k.
Proof.
  intros Hn HP. unfold package_resolution. intros H.
  apply bind_returned in H as (u1 & f1 & l1 & l1' & Hpr & H & ->).
  apply print_returned in Hpr as (-> & ->).
  apply bind_returned in H as (u2 & f2 & l2 & l2' & Hg2 & H & ->).
  apply bind_returned in H as (u3 & f3 & l3 & l3' & Hg3 & H & ->).
  apply bind_returned in H as (u4 & f4 & l4 & l4' & Hg4 & H & ->).
  apply create_group_returned in Hg2 as (_ & _ & Ha2 & ->).
  apply create_group_returned in Hg3 as (_ & _ & Ha3 & ->).
  apply create_group_returned in Hg4 as (_ & _ & Ha4 & ->).
  apply bind_returned in H as (vars & f5 & l5 & l5' & Hs & H & ->).
  assert (Ha5 : attrs f5 = attrs f4).
  { apply (keeps_sequences same_attrs (fun _ => eq_refl) same_attrs_trans
             same_attrs_create _ _ _ _ _ _ _ _ Hs). }
  apply sequences_dims_first in Hs as (c & Hc & Hv & Hw); [| assumption ..].
  rewrite Hv in H. destruct c as [width height].
  apply bind_returned in H as (u6 & f6 & l6 & l6' & Hw6 & H & ->).
  exists (width, height). split; [exact Hc |].
  assert (Hl6 : l6 = []) by apply (set_attr_returned _ _ _ _ _ _ _ Hw6).
  assert (Hl6' : l6' = []) by apply (set_attr_returned _ _ _ _ _ _ _ H).
  subst l6 l6'.
  assert (Hf : forall p k, get_attr f5 p k = get_attr f p k).
  { intros p k. unfold get_attr. rewrite Ha5, Ha4, Ha3, Ha2. reflexivity. }
  split; [| split; [| split]].
  - cbn. rewrite !warnings_app. cbn. rewrite app_nil_r, Hw.
    symmetry. apply mismatched_frames_first. exact Hc.
  - rewrite (get_attr_set_other _ _ _ _ _ _ _ _ _ H); [| intros [= ?]; discriminate].
    apply (get_attr_set_same _ _ _ _ _ _ _ Hw6).
  - apply (get_attr_set_same _ _ _ _ _ _ _ H).
  - intros p k Hp.
    rewrite (get_attr_set_other _ _ _ _ _ _ _ _ _ H) by congruence.
    rewrite (get_attr_set_other _ _ _ _ _ _ _ _ _ Hw6) by congruence.
    apply Hf.
Qed.

Lemma resolutions_attrs a n_sequences subdirs : forall f u f' evs,
  0 < n_sequences -> 0 < frames_per_sequence a ->
  NoDup (map name subdirs) ->
  for_each subdirs (package_resolution a n_sequences) f = (Returned u, f', evs) ->
  warnings evs = flat_map (mismatched_frames a n_sequences) subdirs /\
  (forall d, In d subdirs -> exists c,
      first_dims a d = Some c /\
      get_attr f' [name d] "frame-width" = Some (fst c) /\
      get_attr f' [name d] "frame-height" = Some (snd c)) /\
  (forall p k, (forall d, In d subdirs -> p <> [name d]) ->
               get_attr f' p k = get_attr f p k).
Proof.
  unfold for_each.
  induction subdirs as [| d rest IH]; intros f u f' evs Hn HP Hnd H; cbn [for_fold] in H.
  - apply ret_returned in H as (_ & -> & ->).
    split; [reflexivity |]. split; [intros d [] | reflexivity].
  - cbn [map] in Hnd. inversion Hnd as [| ? ? Hd Hrest]; subst.
    apply bind_returned in H as (u1 & f1 & l1 & l2 & Hb & H & ->).
    apply package_resolution_attrs in Hb as (c & Hc & Hw & Hwd & Hht & Hother);
      [| assumption ..].
    destruct u1. apply IH in H as (Hw2 & Hset & Hkeep); [| assumption ..].
    split; [| split].
    + rewrite warnings_app, Hw, Hw2. reflexivity.
    + intros d' [<- | Hd'].
      * exists c. split; [exact Hc |].
        assert (Hfresh : forall d0, In d0 rest -> [name d] <> [name d0]).
        { intros d0 Hd0 [= E]. apply Hd. rewrite E. apply in_map. exact Hd0. }
        rewrite !(Hkeep _ _ Hfresh). auto.
      * apply Hset. exact Hd'.
    + intros p k Hp. rewrite Hkeep by (intros d0 Hd0; apply Hp; right; exact Hd0).
      apply Hother. apply Hp. left. reflexivity.
Qed.

(** A completed run, down to its write phase. *)
Lemma main_returned_write a entries output_file existing u printed :
  existing_resolutions a output_file tt = (Returned existing, u, printed) ->
  result (main a (Directory entries) output_file) = Returned tt ->
  exists first others f' evs,
    select_subdirs entries existing = first :: others /\
    Forall (fun d => peak_frame_count d = peak_frame_count first) others /\
    0 < frames_per_sequence a /\
    0 < peak_frame_count first / frames_per_sequence a /\
    write_archive a (first :: others) (peak_frame_count first)
      (peak_frame_count first / frames_per_sequence a) (open_archive a output_file)
      = (Returned tt, f', evs) /\
    archive (main a (Directory entries) output_file) = Some f' /\
    stdout (main a (Directory entries) output_file)
      = (validation_events a printed (first :: others) (peak_frame_count first)
           (peak_frame_count first / frames_per_sequence a) ++ evs)%list /\
    NoDup (map name (first :: others)).
Proof.
  intros Hex0. unfold main.
  destruct (preflight a (Directory entries) output_file tt) as [[[e | v] u'] l] eqn:Hpre;
    [discriminate |].
  apply preflight_returned in Hpre
    as (entries' & existing' & printed' & first & others
        & [= <-] & Hex & Hsel & Hall & Hfps & Hn & -> & ->).
  rewrite Hex0 in Hex. injection Hex as <- _ <-.
  destruct (write_archive a (first :: others) (peak_frame_count first)
              (peak_frame_count first / frames_per_sequence a)
              (open_archive a output_file)) as [[r f'] printed'] eqn:Hw.
  cbn [result archive stdout]. intros ->.
  exists first, others, f', printed'.
  pose proof (write_archive_returned _ _ _ _ _ _ _ _ Hw) as (_ & _ & Hnd & _).
  repeat split; auto.
  apply (positive_divisor (peak_frame_count first)); auto using peak_frame_count_nonneg.
Qed.

Lemma write_archive_attrs a subdirs n_frames n_sequences f u f' evs :
  0 < n_sequences -> 0 < frames_per_sequence a ->
  NoDup (map name subdirs) ->
  write_archive a subdirs n_frames n_sequences f = (Returned u, f', evs) ->
  warnings evs = flat_map (mismatched_frames a n_sequences) subdirs /\
  (get_attr f' [] "total-frames" = Some n_frames /\
   get_attr f' [] "frames-per-sequence" = Some (frames_per_sequence a) /\
   get_attr f' [] "sequence-index-digits" = Some (sequence_index_digits a) /\
   get_attr f' [] "frame-index-digits" = Some (frame_index_digits a) /\
   get_attr f' [] "test-sequences" = Some (Z.of_nat (List.length (test_sequences a))) /\
   get_attr f' [] "train-sequences"
     = Some (n_sequences - Z.of_nat (List.length (test_sequences a)))) /\
  (forall d, In d subdirs -> exists c,
      first_dims a d = Some c /\
      get_attr f' [name d] "frame-width" = Some (fst c) /\
      get_attr f' [name d] "frame-height" = Some (snd c)).
Proof.
  intros Hn HP Hnd. unfold write_archive. intros H.
  apply bind_returned in H as (u1 & f1 & l1 & l1' & H1 & H & ->).
  apply bind_returned in H as (u2 & f2 & l2 & l2' & H2 & H & ->).
  apply bind_returned in H as (u3 & f3 & l3 & l3' & H3 & H & ->).
  apply bind_returned in H as (u4 & f4 & l4 & l4' & H4 & H & ->).
  apply bind_returned in H as (u5 & f5 & l5 & l5' & H5 & H & ->).
  apply bind_returned in H as (u6 & f6 & l6 & l6' & H6 & H & ->).
  apply resolutions_attrs in H as (Hw & Hset & Hkeep); [| assumption ..].
  assert (Hroot : forall k, get_attr f' [] k = get_attr f6 [] k).
  { intros k. apply Hkeep. intros d _. discriminate. }
  assert (E1 : l1 = []) by apply (set_attr_returned _ _ _ _ _ _ _ H1).
  assert (E2 : l2 = []) by apply (set_attr_returned _ _ _ _ _ _ _ H2).
  assert (E3 : l3 = []) by apply (set_attr_returned _ _ _ _ _ _ _ H3).
  assert (E4 : l4 = []) by apply (set_attr_returned _ _ _ _ _ _ _ H4).
  assert (E5 : l5 = []) by apply (set_attr_returned _ _ _ _ _ _ _ H5).
  assert (E6 : l6 = []) by apply (set_attr_returned _ _ _ _ _ _ _ H6).
  subst. cbn [app]. split; [exact Hw |]. split; [| exact Hset].
  rewrite !Hroot.
  repeat split;
    repeat first
      [ apply (get_attr_set_same _ _ _ _ _ _ _ H6)
      | apply (get_attr_set_same _ _ _ _ _ _ _ H5)
      | apply (get_attr_set_same _ _ _ _ _ _ _ H4)
      | apply (get_attr_set_same _ _ _ _ _ _ _ H3)
      | apply (get_attr_set_same _ _ _ _ _ _ _ H2)
      | apply (get_attr_set_same _ _ _ _ _ _ _ H1)
      | rewrite (get_attr_set_other _ _ _ _ _ _ _ _ _ H6) by (intros [= ?]; discriminate)
      | rewrite (get_attr_set_other _ _ _ _ _ _ _ _ _ H5) by (intros [= ?]; discriminate)
      | rewrite (get_attr_set_other _ _ _ _ _ _ _ _ _ H4) by (intros [= ?]; discriminate)
      | rewrite (get_attr_set_other _ _ _ _ _ _ _ _ _ H3) by (intros [= ?]; discriminate)
      | rewrite (get_attr_set_other _ _ _ _ _ _ _ _ _ H2) by (intros [= ?]; discriminate) ].
Qed.

(** X6: the root attributes of a completed run. *)
Theorem root_attributes a entries output_file existing u printed first others :
  existing_resolutions a output_file tt = (Returned existing, u, printed) ->
  select_subdirs entries existing = first :: others ->
  result (main a (Directory entries) output_file) = Returned tt ->
  exists f',
    archive (main a (Directory entries) output_file) = Some f' /\
    get_attr f' [] "total-frames" = Some (peak_frame_count first) /\
    get_attr f' [] "frames-per-sequence" = Some (frames_per_sequence a) /\
    get_attr f' [] "sequence-index-digits" = Some (sequence_index_digits a) /\
    get_attr f' [] "frame-index-digits" = Some (frame_index_digits a) /\
    get_attr f' [] "test-sequences" = Some (Z.of_nat (List.length (test_sequences a))) /\
    get_attr f' [] "train-sequences"
      = Some (peak_frame_count first / frames_per_sequence a
              - Z.of_nat (List.length (test_sequences a))).
Proof.
  intros Hex Hsel Hret.
  destruct (main_returned_write _ _ _ _ _ _ Hex Hret)
    as (first' & others' & f' & evs & Hsel' & _ & HP & Hn & Hw & Ha & _ & Hnd).
  rewrite Hsel in Hsel'. injection Hsel' as <- <-.
  destruct (write_archive_attrs _ _ _ _ _ _ _ _ Hn HP Hnd Hw) as (_ & Hroot & _).
  exists f'. split; [exact Ha | exact Hroot].
Qed.

(** X7: the dimensions recorded for a resolution are those of its first frame. *)
Theorem resolution_attributes a entries output_file existing u printed d :
  existing_resolutions a output_file tt = (Returned existing, u, printed) ->
  In d (select_subdirs entries existing) ->
  result (main a (Directory entries) output_file) = Returned tt ->
  exists f' exr,
    archive (main a (Directory entries) output_file) = Some f' /\
    InputFile d "frame-0001.exr" = Returned exr /\
    get_attr f' [name d] "frame-width"
      = Some (max_x (dataWindow exr) - min_x (dataWindow exr) + 1) /\
    get_attr f' [name d] "frame-height"
      = Some (max_y (dataWindow exr) - min_y (dataWindow exr) + 1).
Proof.
  intros Hex Hd Hret.
  destruct (main_returned_write _ _ _ _ _ _ Hex Hret)
    as (first & others & f' & evs & Hsel & _ & HP & Hn & Hw & Ha & _ & Hnd).
  rewrite Hsel in Hd.
  destruct (write_archive_attrs _ _ _ _ _ _ _ _ Hn HP Hnd Hw) as (_ & _ & Hres).
  destruct (Hres d Hd) as (c & Hc & Hwd & Hht).
  unfold first_dims, header_dims in Hc.
  assert (Hname : frame_file_name a 0 0 = "frame-0001.exr").
  { unfold frame_file_name. rewrite Z.mul_0_r. reflexivity. }
  rewrite Hname in Hc.
  destruct (InputFile d "frame-0001.exr") as [e | exr]; [discriminate |].
  injection Hc as <-. exists f', exr. auto.
Qed.

Lemma warnings_validation a printed subdirs n_frames n_sequences :
  forallb is_validation_event printed = true ->
  warnings (validation_events a printed subdirs n_frames n_sequences) = [].
Proof.
  intros H. apply flat_map_validation.
  - intros []; (discriminate || reflexivity).
  - apply validation_events_valid. exact H.
Qed.

(** X8: the warnings of a completed run are exactly, in order, the frames
    whose header dimensions differ from those of the first frame of their
    resolution. *)
Theorem warnings_exact a entries output_file existing u printed :
  existing_resolutions a output_file tt = (Returned existing, u, printed) ->
  result (main a (Directory entries) output_file) = Returned tt ->
  warnings (stdout (main a (Directory entries) output_file))
  = flat_map (fun d =>
      mismatched_frames a
        (peak_frame_count (hd d (select_subdirs entries existing))
           / frames_per_sequence a) d)
      (select_subdirs entries existing).
Proof.
  intros Hex Hret.
  destruct (main_returned_write _ _ _ _ _ _ Hex Hret)
    as (first & others & f' & evs & Hsel & _ & HP & Hn & Hw & _ & Hout & Hnd).
  destruct (write_archive_attrs _ _ _ _ _ _ _ _ Hn HP Hnd Hw) as (Hwarn & _).
  rewrite Hout, warnings_app, Hwarn, Hsel.
  rewrite warnings_validation by apply (existing_resolutions_printed _ _ _ _ _ Hex).
  reflexivity.
Qed.

(** *** Split counts and the layout *)

Lemma split_groups_sequence_groups res split ps :
  split_groups res split ps
  = filter (fun p => match p with
                     | [_; s; _] => String.eqb s split
                     | _ => false
                     end) (sequence_groups res ps).
Proof.
  unfold split_groups, sequence_groups.
  induction ps as [| p ps IH]; [reflexivity |].
  cbn [filter]. rewrite IH.
  destruct p as [| r [| s [| q [| x rest]]]]; try reflexivity.
  destruct (String.eqb r res); cbn [andb filter];
    destruct (String.eqb s split); reflexivity.
Qed.

Lemma routing_test_count tests l : forall tr te,
  List.length (filter (fun r => snd (fst r)) (routing tests tr te l))
  = List.length (filter (fun s => mem_Z s tests) l) /\
  List.length (filter (fun r => negb (snd (fst r))) (routing tests tr te l))
  = List.length (filter (fun s => negb (mem_Z s tests)) l).
Proof.
  induction l as [| s l IH]; intros tr te; [split; reflexivity |].
  cbn [routing filter]. destruct (mem_Z s tests); cbn [filter fst snd negb List.length];
    [destruct (IH tr (te + 1)) as (-> & ->) | destruct (IH (tr + 1) te) as (-> & ->)];
    split; reflexivity.
Qed.

Lemma mem_Z_In x xs : mem_Z x xs = true <-> In x xs.
Proof.
  unfold mem_Z. rewrite existsb_exists. split.
  - intros (y & Hy & E). apply Z.eqb_eq in E. subst. exact Hy.
  - intros H. exists x. split; [exact H | apply Z.eqb_refl].
Qed.

(** Distinct test indices within range select as many sequences as there
    are indices. *)
Lemma selected_test_count tests n :
  NoDup tests -> (forall t, In t tests -> 0 <= t < n) ->
  List.length (filter (fun s => mem_Z s tests) (range n)) = List.length tests.
Proof.
  intros Hnd Hin. apply Nat.le_antisymm.
  - apply NoDup_incl_length; [apply NoDup_filter, NoDup_range |].
    intros x Hx. apply filter_In in Hx as (_ & Hx). apply mem_Z_In. exact Hx.
  - apply NoDup_incl_length; [exact Hnd |].
    intros t Ht. apply filter_In. split; [apply In_range, Hin, Ht | apply mem_Z_In, Ht].
Qed.

Lemma split_groups_completed a entries output_file existing u printed d :
  existing_resolutions a output_file tt = (Returned existing, u, printed) ->
  In d (select_subdirs entries existing) ->
  result (main a (Directory entries) output_file) = Returned tt ->
  let n := peak_frame_count d / frames_per_sequence a in
  let groups split :=
    split_groups (name d) split
      (created a output_file (main a (Directory entries) output_file)) in
  List.length (groups "test")
    = List.length (filter (fun s => mem_Z s (test_sequences a)) (range n)) /\
  List.length (groups "train")
    = List.length (filter (fun s => negb (mem_Z s (test_sequences a))) (range n)).
Proof.
  intros Hex Hd Hret n groups. subst groups. cbv beta.
  rewrite !split_groups_sequence_groups.
  rewrite (sequence_groups_completed _ _ _ _ _ _ _ Hex Hd Hret).
  fold n. rewrite !filter_map_swap, !length_map.
  destruct (routing_test_count (test_sequences a) (range n) 0 0) as (Ht & Hn).
  rewrite <- Ht, <- Hn. split; f_equal; apply filter_ext; intros [[s b] k];
    destruct b; reflexivity.
Qed.

(** X9: with distinct test indices in range, the two counts stored at the
    root are the numbers of test and train sequence groups of every
    resolution. *)
Theorem split_counts_match a entries output_file existing u printed d :
  existing_resolutions a output_file tt = (Returned existing, u, printed) ->
  In d (select_subdirs entries existing) ->
  result (main a (Directory entries) output_file) = Returned tt ->
  NoDup (test_sequences a) ->
  (forall t, In t (test_sequences a) ->
             0 <= t < peak_frame_count d / frames_per_sequence a) ->
  exists f',
    archive (main a (Directory entries) output_file) = Some f' /\
    get_attr f' [] "test-sequences"
      = Some (Z.of_nat (List.length
          (split_groups (name d) "test"
             (created a output_file (main a (Directory entries) output_file))))) /\
    get_attr f' [] "train-sequences"
      = Some (Z.of_nat (List.length
          (split_groups (name d) "train"
             (created a output_file (main a (Directory entries) output_file))))).
Proof.
  intros Hex Hd Hret Hnd Hrange.
  destruct (split_groups_completed _ _ _ _ _ _ _ Hex Hd Hret) as (Htest & Htrain).
  destruct (main_returned_write _ _ _ _ _ _ Hex Hret)
    as (first & others & f' & evs & Hsel & Hall & HP & Hn & Hw & Ha & _ & Hnames).
  destruct (write_archive_attrs _ _ _ _ _ _ _ _ Hn HP Hnames Hw)
    as (_ & (_ & _ & _ & _ & Hte & Htr) & _).
  assert (Hcount : peak_frame_count d = peak_frame_count first).
  { rewrite Hsel in Hd. destruct Hd as [<- | Hd]; [reflexivity |].
    rewrite Forall_forall in Hall. auto. }
  rewrite Hcount in *.
  set (n := peak_frame_count first / frames_per_sequence a) in *.
  pose proof (selected_test_count _ n Hnd Hrange) as Hsel_count.
  pose proof (filter_length (fun s => mem_Z s (test_sequences a)) (range n)) as Hsum.
  pose proof (length_range n ltac:(lia)) as Hlen.
  exists f'. split; [exact Ha |]. split.
  - rewrite Hte, Htest, Hsel_count. reflexivity.
  - rewrite Htr, Htrain. f_equal. lia.
Qed.

(** X4: a completed run adds to the archive exactly the layout
    resolution / train, test / seq / frame / thirteen datasets, resolution by
    resolution, and no path twice. *)
Theorem archive_layout a entries output_file existing u printed :
  existing_resolutions a output_file tt = (Returned existing, u, printed) ->
  result (main a (Directory entries) output_file) = Returned tt ->
  let selected := select_subdirs entries existing in
  let n_sequences :=
    match selected with
    | first :: _ => peak_frame_count first / frames_per_sequence a
    | [] => 0
    end in
  created a output_file (main a (Directory entries) output_file)
    = flat_map (fun d => resolution_paths a n_sequences (name d)) selected /\
  NoDup (created a output_file (main a (Directory entries) output_file)).
Proof.
  intros Hex Hret.
  destruct (main_returned _ _ _ _ _ _ Hex Hret)
    as (first & others & f' & Hsel & _ & _ & _ & Ha & Hp & _ & Hnd & _).
  cbv zeta. rewrite Hsel. rewrite (created_paths _ _ _ _ _ Ha Hp).
  split; [reflexivity | apply NoDup_created; exact Hnd].
Qed.

(** *** File names *)

Lemma length_append s t : String.length (s ++ t) = (String.length s + String.length t)%nat.
Proof. induction s as [| c s IH]; cbn; [reflexivity | rewrite IH; reflexivity]. Qed.

Lemma append_cancel_r s : forall x y, x ++ s = y ++ s -> x = y.
Proof.
  induction x as [| c x IH]; intros y H.
  - destruct y as [| c' y]; [reflexivity |].
    apply (f_equal String.length) in H. cbn in H. rewrite length_append in H. lia.
  - destruct y as [| c' y].
    + apply (f_equal String.length) in H. cbn in H. rewrite length_append in H. lia.
    + cbn in H. injection H as -> H. f_equal. apply IH. exact H.
Qed.

(** X10: within the range the loops cover, different (sequence, frame) pairs
    are looked up under different file names. *)
Theorem frame_file_name_injective a s f s' f' :
  0 <= s -> 0 <= s' ->
  0 <= f < frames_per_sequence a -> 0 <= f' < frames_per_sequence a ->
  frame_file_name a s f = frame_file_name a s' f' ->
  s = s' /\ f = f'.
Proof.
  intros Hs Hs' Hf Hf' H. unfold frame_file_name in H.
  cbn [append] in H. injection H as H.
  apply append_cancel_r in H. apply zero_padded_inj in H; [| nia | nia].
  assert (E : s = s').
  { destruct (Z.lt_trichotomy s s') as [Hlt | [E | Hgt]]; [exfalso | exact E | exfalso].
    - assert (frames_per_sequence a * (s + 1) <= frames_per_sequence a * s') by nia. lia.
    - assert (frames_per_sequence a * (s' + 1) <= frames_per_sequence a * s) by nia. lia. }
  subst s'. split; [reflexivity | lia].
Qed.

(** *** Loading layers *)

Lemma reshape_nonneg buf height width :
  0 <= height -> 0 <= width ->
  reshape (frombuffer buf) height width
  = if height * width =? Z.of_nat (List.length buf)
    then Returned {| shape := [height; width]; data := buf |}
    else Raised (CannotReshape (Z.of_nat (List.length buf)) height width).
Proof.
  intros Hh Hw. unfold reshape, frombuffer. cbn [data].
  destruct (Z.ltb_spec height (-1)); [lia |].
  destruct (Z.ltb_spec width (-1)); [lia |].
  destruct (Z.eqb_spec height (-1)); [lia |].
  destruct (Z.eqb_spec width (-1)); [lia |].
  reflexivity.
Qed.

Lemma shape_eqb_refl s : shape_eqb s s = true.
Proof. unfold shape_eqb. destruct (list_eq_dec Z.eq_dec s s); congruence. Qed.

(** X12: a single-channel layer loads exactly when the channel is there with
    [height * width] samples, and then holds these samples, row by row. *)
Theorem load_exr_layer_single_spec file layer width height arr :
  0 <= height -> 0 <= width ->
  load_exr_layer_single file layer width height = Returned arr <->
  exists x,
    channel file ("ViewLayer." ++ layer) = Returned x /\
    Z.of_nat (List.length x) = height * width /\
    arr = {| shape := [height; width]; data := x |}.
Proof.
  intros Hh Hw. unfold load_exr_layer_single.
  destruct (channel file ("ViewLayer." ++ layer)) as [e | x]; cbn [obind].
  - split; [discriminate | intros (x & [=] & _)].
  - rewrite (reshape_nonneg x _ _ Hh Hw).
    destruct (Z.eqb_spec (height * width) (Z.of_nat (List.length x))) as [E | E]; split.
    + intros [= <-]. exists x. auto.
    + intros (x' & [= <-] & _ & ->). reflexivity.
    + discriminate.
    + intros (x' & [= <-] & E' & _). lia.
Qed.

(** X11: a colour layer loads exactly when its three channels (four with
    alpha) are there with [height * width] samples each, and then holds them
    channel after channel, in the order R, G, B, A (or X, Y, Z, W). *)
Theorem load_exr_layer_spec file layer width height with_alpha use_xyzw arr :
  0 <= height -> 0 <= width ->
  load_exr_layer file layer width height with_alpha use_xyzw = Returned arr <->
  exists r g b,
    channel file (component layer use_xyzw 0) = Returned r /\
    channel file (component layer use_xyzw 1) = Returned g /\
    channel file (component layer use_xyzw 2) = Returned b /\
    Z.of_nat (List.length r) = height * width /\
    Z.of_nat (List.length g) = height * width /\
    Z.of_nat (List.length b) = height * width /\
    if with_alpha then
      exists al,
        channel file (component layer use_xyzw 3) = Returned al /\
        Z.of_nat (List.length al) = height * width /\
        arr = {| shape := [4; height; width]; data := (r ++ g ++ b ++ al)%list |}
    else arr = {| shape := [3; height; width]; data := (r ++ g ++ b)%list |}.
Proof.
  intros Hh Hw. unfold load_exr_layer.
  assert (Hc : forall i,
             "ViewLayer." ++ layer ++
             (if use_xyzw then nth i [".X"; ".Y"; ".Z"; ".W"] ""
              else nth i [".R"; ".G"; ".B"; ".A"] "")
             = component layer use_xyzw i).
  { intros i. unfold component. destruct use_xyzw; reflexivity. }
  change (if use_xyzw then ".X" else ".R")
    with (if use_xyzw then nth 0%nat [".X"; ".Y"; ".Z"; ".W"] ""
          else nth 0%nat [".R"; ".G"; ".B"; ".A"] "").
  change (if use_xyzw then ".Y" else ".G")
    with (if use_xyzw then nth 1%nat [".X"; ".Y"; ".Z"; ".W"] ""
          else nth 1%nat [".R"; ".G"; ".B"; ".A"] "").
  change (if use_xyzw then ".Z" else ".B")
    with (if use_xyzw then nth 2%nat [".X"; ".Y"; ".Z"; ".W"] ""
          else nth 2%nat [".R"; ".G"; ".B"; ".A"] "").
  change (if use_xyzw then ".W" else ".A")
    with (if use_xyzw then nth 3%nat [".X"; ".Y"; ".Z"; ".W"] ""
          else nth 3%nat [".R"; ".G"; ".B"; ".A"] "").
  rewrite !Hc.
  destruct (channel file (component layer use_xyzw 0)) as [e | r]; cbn [obind];
    [split; [discriminate | intros (? & ? & ? & [=] & _)] |].
  destruct (channel file (component layer use_xyzw 1)) as [e | g]; cbn [obind];
    [split; [discriminate | intros (? & ? & ? & _ & [=] & _)] |].
  destruct (channel file (component layer use_xyzw 2)) as [e | b]; cbn [obind];
    [split; [discriminate | intros (? & ? & ? & _ & _ & [=] & _)] |].
  rewrite !reshape_nonneg by assumption.
  destruct (Z.eqb_spec (height * width) (Z.of_nat (List.length r))) as [Er | Er];
    cbn [obind];
    [| split; [discriminate | intros (? & ? & ? & [= <-] & _ & _ & ? & _); lia]].
  destruct (Z.eqb_spec (height * width) (Z.of_nat (List.length g))) as [Eg | Eg];
    cbn [obind];
    [| split; [discriminate | intros (? & ? & ? & _ & [= <-] & _ & _ & ? & _); lia]].
  destruct (Z.eqb_spec (height * width) (Z.of_nat (List.length b))) as [Eb | Eb];
    cbn [obind];
    [| split; [discriminate | intros (? & ? & ? & _ & _ & [= <-] & _ & _ & ? & _); lia]].
  destruct with_alpha.
  - destruct (channel file (component layer use_xyzw 3)) as [e | al]; cbn [obind];
      [split; [discriminate
              | intros (? & ? & ? & _ & _ & _ & _ & _ & _ & ? & [=] & _)] |].
    rewrite reshape_nonneg by assumption.
    destruct (Z.eqb_spec (height * width) (Z.of_nat (List.length al))) as [Ea | Ea];
      cbn [obind].
    + unfold stack. cbn [forallb shape]. rewrite !shape_eqb_refl. cbn [andb].
      cbn [map data List.concat List.length]. rewrite app_nil_r. split.
      * intros [= <-]. exists r, g, b. repeat split; try lia.
        exists al. repeat split; try lia.
      * intros (? & ? & ? & [= <-] & [= <-] & [= <-] & _ & _ & _
                & al' & [= <-] & _ & ->). reflexivity.
    + split; [discriminate |].
      intros (? & ? & ? & _ & _ & _ & _ & _ & _ & al' & [= <-] & ? & _). lia.
  - unfold stack. cbn [forallb shape]. rewrite !shape_eqb_refl. cbn [andb].
    cbn [map data List.concat List.length]. rewrite app_nil_r. split.
    + intros [= <-]. exists r, g, b. repeat split; lia.
    + intros (? & ? & ? & [= <-] & [= <-] & [= <-] & _ & _ & _ & ->). reflexivity.
Qed.

(** *** What the datasets hold *)

Lemma stored_create p o f f' : create p o f = Returned f' -> stored f' p = Some o.
Proof.
  unfold create, h5_exists, stored. destruct (existsb _ _) eqn:E; [discriminate |].
  intros [= <-]. cbn [objects].
  assert (H : forall l, existsb (fun x : list string * h5obj => path_eqb (fst x) p) l = false ->
                        find (fun x => path_eqb (fst x) p) (l ++ [(p, o)]) = Some (p, o)).
  { induction l as [| x l IH]; cbn.
    - intros _. assert (Hpp : path_eqb p p = true) by (apply path_eqb_eq; reflexivity).
      rewrite Hpp. reflexivity.
    - destruct (path_eqb (fst x) p); [discriminate | exact IH]. }
  rewrite (H _ E). reflexivity.
Qed.

Lemma find_app_left {A} (q : A -> bool) l1 l2 x :
  find q l1 = Some x -> find q (l1 ++ l2) = Some x.
Proof.
  induction l1 as [| y l1 IH]; cbn; [discriminate |].
  destruct (q y); auto.
Qed.

Lemma stored_extends f f' p o : extends f f' -> stored f p = Some o -> stored f' p = Some o.
Proof.
  intros ((new & Hnew) & _). unfold stored. rewrite Hnew.
  destruct (find _ (objects f)) as [x |] eqn:E; [| discriminate].
  intros H. rewrite (find_app_left _ _ _ _ E). exact H.
Qed.

Lemma write_datasets_stored exr width height frame_group ds : forall f u f' evs,
  for_each ds (fun '(dataset, src) =>
    arr <- lift (load_source exr width height src) ;;
    create_dataset frame_group dataset arr) f = (Returned u, f', evs) ->
  extends f f' /\
  forall dataset src, In (dataset, src) ds ->
    exists arr, load_source exr width height src = Returned arr /\
                stored f' (child frame_group dataset) = Some (H5Dataset arr).
Proof.
  unfold for_each.
  induction ds as [| [dataset0 src0] rest IH]; intros f u f' evs H; cbn [for_fold] in H.
  - apply ret_returned in H as (_ & -> & ->). split; [apply extends_refl |].
    intros dataset src [].
  - apply bind_returned in H as (u1 & f1 & l1 & l2 & H1 & H2 & ->).
    apply bind_returned in H1 as (arr & f0 & l3 & l4 & Hl & Hc & ->).
    apply lift_returned in Hl as (Hl & -> & ->).
    unfold create_dataset, update in Hc.
    destruct (create (child frame_group dataset0) (H5Dataset arr) f) as [e | fc] eqn:E;
      [discriminate |].
    injection Hc as _ <- _.
    destruct u1. apply IH in H2 as (Hext & Hrest).
    split; [apply (extends_trans _ fc); [apply (extends_create _ _ _ _ E) | exact Hext] |].
    intros dataset src [[= <- <-] | Hin].
    + exists arr. split; [exact Hl |].
      apply (stored_extends fc); [exact Hext |]. apply (stored_create _ _ _ _ E).
    + apply Hrest. exact Hin.
Qed.

Lemma frame_body_stored a subdir seq_group sequence frame_dimensions frame f d f' evs c :
  settled frame_dimensions c subdir (frame_file_name a sequence frame) ->
  frame_body a subdir seq_group sequence frame_dimensions frame f
    = (Returned d, f', evs) ->
  d = Some c /\
  exists exr,
    InputFile subdir (frame_file_name a sequence frame) = Returned exr /\
    forall dataset src, In (dataset, src) frame_datasets ->
      exists arr,
        load_source exr (fst c) (snd c) src = Returned arr /\
        stored f' (child (child seq_group
                            ("frame-" ++ zero_padded (frame_index_digits a) frame))
                         dataset)
        = Some (H5Dataset arr).
Proof.
  unfold frame_body. intros Hc H.
  apply bind_returned in H as (group_name & f1 & l1 & l1' & Hn & H & ->).
  apply lift_returned in Hn as (Hn & -> & ->).
  apply nested_zero_padded_returned in Hn as (_ & ->).
  apply bind_returned in H as (u2 & f2 & l2 & l2' & Hg & H & ->).
  apply bind_returned in H as (u3 & f3 & l3 & l3' & Hpr & H & ->).
  apply print_returned in Hpr as (-> & ->).
  apply bind_returned in H as (exr & f4 & l4 & l4' & He & H & ->).
  apply lift_returned in He as (He & -> & ->).
  apply bind_returned in H as (dims & f5 & l5 & l5' & Hd & H & ->).
  rewrite check_dimensions_total in Hd.
  assert (Hdims : dims = c /\ f5 = f2).
  { unfold settled, header_dims in Hc. rewrite He in Hc.
    destruct frame_dimensions as [c' |]; injection Hd as <- <- _;
      (split; [congruence | reflexivity]). }
  destruct Hdims as (-> & ->). clear Hd.
  destruct c as [width height].
  apply bind_returned in H as (u6 & f6 & l6 & l6' & Hds & H & ->).
  apply write_datasets_stored in Hds as (_ & Hds).
  apply ret_returned in H as (-> & -> & ->).
  split; [reflexivity |]. exists exr. split; [exact He | exact Hds].
Qed.

Lemma frame_stored_extends a subdir c seq_group sequence k f f' :
  extends f f' ->
  frame_stored a subdir c seq_group sequence k f ->
  frame_stored a subdir c seq_group sequence k f'.
Proof.
  intros Hext (exr & He & H). exists exr. split; [exact He |].
  intros dataset src Hin. destruct (H dataset src Hin) as (arr & Hl & Hs).
  exists arr. split; [exact Hl |]. apply (stored_extends f); assumption.
Qed.

Lemma frames_stored a subdir seq_group sequence c l :
  forall frame_dimensions f d f' evs,
    (forall k rest, l = k :: rest ->
       settled frame_dimensions c subdir (frame_file_name a sequence k)) ->
    for_fold l frame_dimensions (frame_body a subdir seq_group sequence) f
      = (Returned d, f', evs) ->
    d = match l with [] => frame_dimensions | _ :: _ => Some c end /\
    forall k, In k l -> frame_stored a subdir c seq_group sequence k f'.
Proof.
  induction l as [| k0 rest IH]; intros frame_dimensions f d f' evs Hc H;
    cbn [for_fold] in H.
  - apply ret_returned in H as (-> & _ & _). split; [reflexivity | intros k []].
  - apply bind_returned in H as (d1 & f1 & l1 & l2 & Hb & H & ->).
    apply (frame_body_stored _ _ _ _ _ _ _ _ _ _ c (Hc k0 rest eq_refl)) in Hb
      as (-> & Hfirst).
    pose proof (keeps_frames extends extends_refl extends_trans extends_create
                  a subdir seq_group sequence rest (Some c) _ _ _ _ H) as (Hext & _).
    apply IH in H as (Hd & Hrest); [| intros; reflexivity].
    split.
    + rewrite Hd. destruct rest; reflexivity.
    + intros k [<- | Hin].
      * apply (frame_stored_extends _ _ _ _ _ _ f1); assumption.
      * apply Hrest. exact Hin.
Qed.

Lemma sequence_body_stored a subdir train_seq_index test_seq_index frame_dimensions
  sequence f vars f' evs c :
  0 < frames_per_sequence a ->
  settled frame_dimensions c subdir (frame_file_name a sequence 0) ->
  sequence_body a subdir (train_seq_index, test_seq_index, frame_dimensions) sequence f
    = (Returned vars, f', evs) ->
  let test := mem_Z sequence (test_sequences a) in
  snd vars = Some c /\
  forall k, In k (range (frames_per_sequence a)) ->
    frame_stored a subdir c
      (seq_group_path a (name subdir)
         (sequence, test, if test then test_seq_index else train_seq_index))
      sequence k f'.
Proof.
  intros HP Hc. destruct (range_positive _ HP) as [rest Hrange].
  unfold sequence_body. cbv zeta.
  destruct (mem_Z sequence (test_sequences a)); intros H;
    apply bind_returned in H as (u1 & f1 & l1 & l1' & Hpr & H & ->);
    apply print_returned in Hpr as (-> & ->);
    apply bind_returned in H as (group_name & f2 & l2 & l2' & Hn & H & ->);
    apply lift_returned in Hn as (Hn & -> & ->);
    apply nested_zero_padded_returned in Hn as (_ & ->);
    apply bind_returned in H as (u3 & f3 & l3 & l3' & Hg & H & ->);
    apply bind_returned in H as (dims & f4 & l4 & l4' & Hfr & H & ->);
    apply ret_returned in H as (-> & -> & ->);
    apply (frames_stored _ _ _ _ c) in Hfr as (Hd & Hst);
    try (intros k rest' Hk; rewrite Hrange in Hk; injection Hk as <- _; exact Hc);
    rewrite Hrange in Hd; (split; [exact Hd | exact Hst]).
Qed.

Lemma sequences_stored a subdir c l :
  forall train_seq_index test_seq_index frame_dimensions f vars f' evs,
    0 < frames_per_sequence a ->
    (forall s rest, l = s :: rest ->
       settled frame_dimensions c subdir (frame_file_name a s 0)) ->
    for_fold l (train_seq_index, test_seq_index, frame_dimensions)
      (sequence_body a subdir) f = (Returned vars, f', evs) ->
    snd vars = match l with [] => frame_dimensions | _ :: _ => Some c end /\
    forall r k,
      In r (routing (test_sequences a) train_seq_index test_seq_index l) ->
      In k (range (frames_per_sequence a)) ->
      frame_stored a subdir c (seq_group_path a (name subdir) r) (fst (fst r)) k f'.
Proof.
  induction l as [| s0 rest IH];
    intros train_seq_index test_seq_index frame_dimensions f vars f' evs HP Hc H;
    cbn [for_fold] in H.
  - apply ret_returned in H as (-> & _ & _). split; [reflexivity | intros r k []].
  - apply bind_returned in H as ([[tr te] dims] & f1 & l1 & l2 & Hb & H & ->).
    pose proof (sequence_body_returned _ _ _ _ _ _ _ _ _ _ Hb) as (_ & _ & Htr & Hte).
    apply (sequence_body_stored _ _ _ _ _ _ _ _ _ _ c HP (Hc s0 rest eq_refl)) in Hb
      as (Hdims & Hfirst).
    cbn [fst snd] in Htr, Hte, Hdims. subst tr te dims.
    pose proof (keeps_sequences extends extends_refl extends_trans extends_create
                  a subdir rest _ _ _ _ _ H) as (Hext & _).
    apply IH in H as (Hd & Hrest); [| exact HP | intros; reflexivity].
    split.
    + rewrite Hd. destruct rest; reflexivity.
    + intros r k Hr Hk. cbn [routing] in Hr.
      destruct (mem_Z s0 (test_sequences a)); destruct Hr as [<- | Hr];
        first [ apply (frame_stored_extends _ _ _ _ _ _ f1);
                [exact Hext | apply Hfirst; exact Hk]
              | apply Hrest; assumption ].
Qed.

Lemma package_resolution_stored a n_sequences subdir f u f' evs :
  0 < n_sequences -> 0 < frames_per_sequence a ->
  package_resolution a n_sequences subdir f = (Returned u, f', evs) ->
  exists c,
    first_dims a subdir = Some c /\
    forall r k,
      In r (routing (test_sequences a) 0 0 (range n_sequences)) ->
      In k (range (frames_per_sequence a)) ->
      frame_stored a subdir c (seq_group_path a (name subdir) r) (fst (fst r)) k f'.
Proof.
  intros Hn HP. unfold package_resolution. intros H.
  apply bind_returned in H as (u1 & f1 & l1 & l1' & Hpr & H & ->).
  apply print_returned in Hpr as (-> & ->).
  apply bind_returned in H as (u2 & f2 & l2 & l2' & Hg2 & H & ->).
  apply bind_returned in H as (u3 & f3 & l3 & l3' & Hg3 & H & ->).
  apply bind_returned in H as (u4 & f4 & l4 & l4' & Hg4 & H & ->).
  apply bind_returned in H as (vars & f5 & l5 & l5' & Hs & H & ->).
  pose proof (sequences_dims_first _ _ _ _ _ _ _ Hn HP Hs) as (c & Hc & Hv & _).
  destruct (range_positive _ Hn) as [rest Hrange].
  destruct vars as [[tr te] dims].
  apply (sequences_stored _ _ c) in Hs as (_ & Hst); [| exact HP |].
  2:{ intros s rest' Hs'. rewrite Hrange in Hs'. injection Hs' as <- _. exact Hc. }
  exists c. split; [exact Hc |].
  cbn [snd] in Hv. rewrite Hv in H. destruct c as [width height].
  apply bind_returned in H as (u6 & f6 & l6 & l6' & Hw6 & H & ->).
  pose proof (keeps_set_attr _ _ _ _ _ _ _ Hw6) as (Hext6 & _).
  pose proof (keeps_set_attr _ _ _ _ _ _ _ H) as (Hext7 & _).
  intros r k Hr Hk.
  apply (frame_stored_extends _ _ _ _ _ _ f6); [exact Hext7 |].
  apply (frame_stored_extends _ _ _ _ _ _ f5); [exact Hext6 |].
  apply Hst; assumption.
Qed.

Lemma resolutions_stored a n_sequences subdirs : forall f u f' evs,
  0 < n_sequences -> 0 < frames_per_sequence a ->
  for_each subdirs (package_resolution a n_sequences) f = (Returned u, f', evs) ->
  forall d, In d subdirs ->
    exists c,
      first_dims a d = Some c /\
      forall r k,
        In r (routing (test_sequences a) 0 0 (range n_sequences)) ->
        In k (range (frames_per_sequence a)) ->
        frame_stored a d c (seq_group_path a (name d) r) (fst (fst r)) k f'.
Proof.
  unfold for_each.
  induction subdirs as [| d0 rest IH]; intros f u f' evs Hn HP H; cbn [for_fold] in H.
  - intros d [].
  - apply bind_returned in H as (u1 & f1 & l1 & l2 & Hb & H & ->).
    destruct u1.
    pose proof (keeps_for_each extends write_error extends_refl extends_trans rest
                  (package_resolution a n_sequences)
                  (keeps_package_resolution a n_sequences) _ _ _ _ H) as (Hext & _).
    intros d [<- | Hin].
    + apply package_resolution_stored in Hb as (c & Hc & Hst); [| assumption ..].
      exists c. split; [exact Hc |]. intros r k Hr Hk.
      apply (frame_stored_extends _ _ _ _ _ _ f1); [exact Hext |]. apply Hst; assumption.
    + apply (IH _ _ _ _ Hn HP H). exact Hin.
Qed.

(** X5: in the archive of a completed run, every dataset of every frame
    group holds the layer loaded from the frame's own source image with the
    dimensions of the resolution's first frame: routing entry
    [(sequence, test, number)], frame [k] and dataset name lead to the path
    [resolution/split/seq-number/frame-k/dataset], and what is stored there
    is the array loaded from [frame-<k + P * sequence + 1>.exr]. *)
Theorem datasets_hold_layers a entries output_file existing u printed d :
  existing_resolutions a output_file tt = (Returned existing, u, printed) ->
  In d (select_subdirs entries existing) ->
  result (main a (Directory entries) output_file) = Returned tt ->
  exists f' first_exr,
    archive (main a (Directory entries) output_file) = Some f' /\
    InputFile d "frame-0001.exr" = Returned first_exr /\
    forall sequence test number k dataset src,
      In (sequence, test, number)
         (routing (test_sequences a) 0 0
            (range (peak_frame_count d / frames_per_sequence a))) ->
      0 <= k < frames_per_sequence a ->
      In (dataset, src) frame_datasets ->
      exists exr arr,
        InputFile d (frame_file_name a sequence k) = Returned exr /\
        load_source exr (fst (get_image_dims (dataWindow first_exr)))
                    (snd (get_image_dims (dataWindow first_exr))) src
        = Returned arr /\
        stored f' [name d; split_name test;
                   "seq-" ++ zero_padded (sequence_index_digits a) number;
                   "frame-" ++ zero_padded (frame_index_digits a) k;
                   dataset]
        = Some (H5Dataset arr).
Proof.
  intros Hex Hd Hret.
  destruct (main_returned_write _ _ _ _ _ _ Hex Hret)
    as (first & others & f' & evs & Hsel & Hall & HP & Hn & Hw & Ha & _ & _).
  rewrite Hsel in Hd.
  assert (Hcount : peak_frame_count d = peak_frame_count first).
  { destruct Hd as [<- | Hd]; [reflexivity |].
    rewrite Forall_forall in Hall. auto. }
  rewrite Hcount.
  unfold write_archive in Hw.
  do 6 (apply bind_returned in Hw as (? & ? & ? & ? & _ & Hw & _)).
  destruct (resolutions_stored _ _ _ _ _ _ _ Hn HP Hw d Hd) as (c & Hc & Hst).
  unfold first_dims, header_dims in Hc.
  assert (Hname : frame_file_name a 0 0 = "frame-0001.exr").
  { unfold frame_file_name. rewrite Z.mul_0_r. reflexivity. }
  rewrite Hname in Hc.
  destruct (InputFile d "frame-0001.exr") as [e | first_exr]; [discriminate |].
  injection Hc as <-.
  exists f', first_exr. split; [exact Ha |]. split; [reflexivity |].
  intros sequence test number k dataset src Hr Hk Hin.
  destruct (Hst _ k Hr) as (exr & He & Hds); [apply In_range; exact Hk |].
  destruct (Hds dataset src Hin) as (arr & Hl & Hs).
  exists exr, arr. split; [exact He |]. split; [exact Hl | exact Hs].
Qed.

(** *** Refusals and late errors *)

(** X18: without the append and the overwrite flag an existing output file is
    never touched: the run ends before anything is written, with
    [FileNotFoundError] when the input directory is missing and with
    [exit(1)] after the one message otherwise, also when the input is not a
    directory or holds nothing to package. *)
Theorem existing_output_refused a input_dir f :
  append a = false -> overwrite a = false ->
  result (main a input_dir (Some f))
    = Raised (match input_dir with
              | NoEntry => FileNotFoundError
              | _ => SystemExit 1
              end) /\
  archive (main a input_dir (Some f)) = Some f /\
  parent_made (main a input_dir (Some f)) = false /\
  stdout (main a input_dir (Some f))
    = match input_dir with
      | NoEntry => []
      | _ => [OutputExists]
      end.
Proof.
  intros Happ Hover. unfold main, preflight, existing_resolutions.
  rewrite Happ, Hover. destruct input_dir; cbn; auto.
Qed.

Lemma bind_then {S A B} (m : M S A) (k : A -> M S B) s a s1 l1 r s2 l2 :
  m s = (Returned a, s1, l1) -> k a s1 = (r, s2, l2) ->
  bind m k s = (r, s2, (l1 ++ l2)%list).
Proof. unfold bind. intros -> ->. reflexivity. Qed.

Lemma nested_zero_padded_negative width n :
  width < 0 -> nested_zero_padded width n = Raised InvalidFormatSpecifier.
Proof.
  intros H. unfold nested_zero_padded. destruct (Z.ltb_spec width 0); [reflexivity | lia].
Qed.

(** The first sequence of a resolution when a digit width is negative: the
    group name cannot be formatted. *)
Lemma sequence_body_negative_digits a subdir vars sequence f :
  sequence_index_digits a < 0 ->
  sequence_body a subdir vars sequence f
  = (Raised InvalidFormatSpecifier, f,
     [Assembling sequence (mem_Z sequence (test_sequences a))]).
Proof.
  intros Hsd. unfold sequence_body. destruct vars as [[tr te] dims].
  destruct (mem_Z sequence (test_sequences a));
    unfold bind, print, lift;
    rewrite nested_zero_padded_negative by exact Hsd; reflexivity.
Qed.

Lemma package_resolution_negative_digits a n_sequences subdir f :
  sequence_index_digits a < 0 -> 0 < n_sequences ->
  fresh [[name subdir]; [name subdir; "train"]; [name subdir; "test"]] f ->
  exists f' evs,
    package_resolution a n_sequences subdir f = (Raised InvalidFormatSpecifier, f', evs) /\
    paths f' = (paths f ++ [[name subdir]; [name subdir; "train"];
                            [name subdir; "test"]])%list /\
    attrs f' = attrs f.
Proof.
  intros Hsd Hn Hfresh. unfold package_resolution.
  destruct (create_group_completes [] (name subdir) _ f Hfresh) as (f1 & H1 & Hfresh1).
  destruct (create_group_completes [name subdir] "train" _ f1 Hfresh1)
    as (f2 & H2 & Hfresh2).
  destruct (create_group_completes [name subdir] "test" _ f2 Hfresh2)
    as (f3 & H3 & _).
  pose proof (create_group_returned _ _ _ _ _ _ H1) as (_ & Hp1 & Ha1 & _).
  pose proof (create_group_returned _ _ _ _ _ _ H2) as (_ & Hp2 & Ha2 & _).
  pose proof (create_group_returned _ _ _ _ _ _ H3) as (_ & Hp3 & Ha3 & _).
  destruct (range_positive _ Hn) as [rest Hrange].
  eexists f3, _. split; [| split].
  - eapply bind_then; [reflexivity |].
    eapply bind_then; [exact H1 |].
    eapply bind_then; [exact H2 |].
    eapply bind_then; [exact H3 |].
    apply bind_raised_left. rewrite Hrange. cbn [for_fold].
    apply bind_raised_left. apply sequence_body_negative_digits. exact Hsd.
  - rewrite Hp3, Hp2, Hp1. unfold child. cbn [app]. rewrite <- !app_assoc. reflexivity.
  - congruence.
Qed.

(** X19: a negative sequence-index digit width is only noticed when the first
    sequence group is named: a run that passes validation, and whose six
    root attributes can be stored, then fails with the format error after
    the archive was opened, and leaves it with the root attributes and the
    three empty groups of the first resolution. *)
Theorem negative_sequence_digits_abort a entries output_file existing u printed
  first others :
  existing_resolutions a output_file tt = (Returned existing, u, printed) ->
  select_subdirs entries existing = first :: others ->
  Forall (fun d => peak_frame_count d = peak_frame_count first) others ->
  frames_per_sequence a <> 0 ->
  0 < peak_frame_count first / frames_per_sequence a ->
  sequence_index_digits a < 0 ->
  root_storable a (peak_frame_count first)
    (peak_frame_count first / frames_per_sequence a) ->
  (forall p, In p (paths (open_archive a output_file)) -> hd "" p <> name first) ->
  result (main a (Directory entries) output_file) = Raised InvalidFormatSpecifier /\
  parent_made (main a (Directory entries) output_file) = true /\
  exists f',
    archive (main a (Directory entries) output_file) = Some f' /\
    paths f' = (paths (open_archive a output_file)
                ++ [[name first]; [name first; "train"]; [name first; "test"]])%list /\
    get_attr f' [] "total-frames" = Some (peak_frame_count first).
Proof.
  intros Hex Hsel Hall HP Hn Hsd (S1 & S2 & S3 & S4 & S5 & S6) Hbase.
  pose proof (preflight_consistent _ _ _ _ _ _ _ _ Hex Hsel Hall) as Hpre.
  cbv zeta in Hpre.
  destruct (Z.eqb_spec (frames_per_sequence a) 0) as [| _]; [contradiction |].
  destruct (Z.leb_spec (peak_frame_count first / frames_per_sequence a) 0) as [| _];
    [lia |].
  unfold main. rewrite Hpre.
  set (n_frames := peak_frame_count first) in *.
  set (n_sequences := n_frames / frames_per_sequence a) in *.
  set (f0 := open_archive a output_file) in *.
  set (attrs6 :=
         assign [] "train-sequences"
           (n_sequences - Z.of_nat (List.length (test_sequences a)))
           (assign [] "test-sequences" (Z.of_nat (List.length (test_sequences a)))
              (assign [] "frame-index-digits" (frame_index_digits a)
                 (assign [] "sequence-index-digits" (sequence_index_digits a)
                    (assign [] "frames-per-sequence" (frames_per_sequence a)
                       (assign [] "total-frames" n_frames (attrs f0))))))).
  set (f6 := {| objects := objects f0; attrs := attrs6 |}).
  assert (Hfresh : fresh [[name first]; [name first; "train"]; [name first; "test"]] f6).
  { split.
    - repeat constructor; cbn; intuition discriminate.
    - intros p Hp Hin. apply (Hbase p Hin).
      cbn in Hp. destruct Hp as [<- | [<- | [<- | []]]]; reflexivity. }
  destruct (package_resolution_negative_digits a n_sequences first f6 Hsd Hn Hfresh)
    as (f' & evs & Hrun & Hpaths & Hattrs).
  assert (Hwrite : exists evs',
             write_archive a (first :: others) n_frames n_sequences f0
             = (Raised InvalidFormatSpecifier, f', evs')).
  { eexists. unfold write_archive.
    eapply bind_then; [apply set_attr_completes; exact S1 |].
    eapply bind_then; [apply set_attr_completes; exact S2 |].
    eapply bind_then; [apply set_attr_completes; exact S3 |].
    eapply bind_then; [apply set_attr_completes; exact S4 |].
    eapply bind_then; [apply set_attr_completes; exact S5 |].
    eapply bind_then; [apply set_attr_completes; exact S6 |].
    unfold for_each. cbn [for_fold]. apply bind_raised_left. exact Hrun. }
  destruct Hwrite as (evs' & Hwrite). rewrite Hwrite. cbn [result archive parent_made].
  split; [reflexivity |]. split; [reflexivity |].
  exists f'. split; [reflexivity |]. split; [exact Hpaths |].
  unfold get_attr. rewrite Hattrs. cbn [attrs f6]. unfold attrs6.
  do 5 (rewrite get_attr_assign_other by (intros [= ?]; discriminate)).
  apply get_attr_assign_same.
Qed.

(** *** The theorems at concrete inputs *)

Lemma errors_by_phase_witness :
  (archive (main Samples.args2 (Directory [Samples.res_one]) None) = None /\
   parent_made (main Samples.args2 (Directory [Samples.res_one]) None) = false) /\
  (parent_made (main Samples.args2 (Directory [Samples.res_mixed]) None) = true /\
   exists f',
     archive (main Samples.args2 (Directory [Samples.res_mixed]) None) = Some f' /\
     extends (open_archive Samples.args2 None) f').
Proof.
  split.
  - exact (errors_by_phase Samples.args2 (Directory [Samples.res_one]) None
             (NotEnoughFrames 2) eq_refl).
  - exact (errors_by_phase Samples.args2 (Directory [Samples.res_mixed]) None
             (CannotReshape 4 1 1) ltac:(vm_compute; reflexivity)).
Defined.

Lemma append_keeps_archive_witness :
  exists f',
    archive (main (Samples.with_mode Samples.args2 true false)
               (Directory [Samples.res_A; Samples.res_B; Samples.res_C])
               (Some Samples.archive_AB)) = Some f' /\
    extends Samples.archive_AB f'.
Proof.
  exact (append_keeps_archive (Samples.with_mode Samples.args2 true false)
           (Directory [Samples.res_A; Samples.res_B; Samples.res_C])
           Samples.archive_AB eq_refl).
Defined.

Lemma root_attributes_witness :
  exists f',
    archive (main Samples.args_split (Directory [Samples.res_eight]) None) = Some f' /\
    get_attr f' [] "total-frames" = Some 8 /\
    get_attr f' [] "frames-per-sequence" = Some 2 /\
    get_attr f' [] "sequence-index-digits" = Some 3 /\
    get_attr f' [] "frame-index-digits" = Some 3 /\
    get_attr f' [] "test-sequences" = Some 2 /\
    get_attr f' [] "train-sequences" = Some 2.
Proof.
  exact (root_attributes Samples.args_split [Samples.res_eight] None [] tt []
           Samples.res_eight [] eq_refl eq_refl ltac:(vm_compute; reflexivity)).
Defined.

Lemma resolution_attributes_witness :
  exists f' exr,
    archive (main Samples.args_split (Directory [Samples.res_eight]) None) = Some f' /\
    InputFile Samples.res_eight "frame-0001.exr" = Returned exr /\
    get_attr f' ["A"] "frame-width"
      = Some (max_x (dataWindow exr) - min_x (dataWindow exr) + 1) /\
    get_attr f' ["A"] "frame-height"
      = Some (max_y (dataWindow exr) - min_y (dataWindow exr) + 1).
Proof.
  exact (resolution_attributes Samples.args_split [Samples.res_eight] None [] tt []
           Samples.res_eight eq_refl (or_introl eq_refl)
           ltac:(vm_compute; reflexivity)).
Defined.

Lemma warnings_exact_witness :
  warnings (stdout (main Samples.args2 (Directory [Samples.res_turned]) None))
  = ["frame-0002.exr"].
Proof.
  exact (warnings_exact Samples.args2 [Samples.res_turned] None [] tt [] eq_refl
           ltac:(vm_compute; reflexivity)).
Defined.

Lemma split_counts_match_witness :
  exists f',
    archive (main Samples.args_split (Directory [Samples.res_eight]) None) = Some f' /\
    get_attr f' [] "test-sequences"
      = Some (Z.of_nat (List.length
          (split_groups "A" "test"
             (created Samples.args_split None
                (main Samples.args_split (Directory [Samples.res_eight]) None))))) /\
    get_attr f' [] "train-sequences"
      = Some (Z.of_nat (List.length
          (split_groups "A" "train"
             (created Samples.args_split None
                (main Samples.args_split (Directory [Samples.res_eight]) None))))).
Proof.
  apply (split_counts_match Samples.args_split [Samples.res_eight] None [] tt []
           Samples.res_eight eq_refl (or_introl eq_refl)
           ltac:(vm_compute; reflexivity)).
  - repeat constructor; cbn; intuition discriminate.
  - intros t [<- | [<- | []]]; vm_compute; (split; [discriminate | reflexivity]).
Defined.

Lemma archive_layout_witness :
  created Samples.args2 None (main Samples.args2 (Directory [Samples.res_five]) None)
  = resolution_paths Samples.args2 2 "A" /\
  NoDup (created Samples.args2 None
           (main Samples.args2 (Directory [Samples.res_five]) None)).
Proof.
  destruct (archive_layout Samples.args2 [Samples.res_five] None [] tt [] eq_refl
              ltac:(vm_compute; reflexivity)) as (Hcreated & Hnd).
  split; [| exact Hnd]. rewrite Hcreated. apply app_nil_r.
Defined.

Lemma datasets_hold_layers_witness :
  exists f' first_exr,
    archive (main Samples.args2 (Directory [Samples.res_five]) None) = Some f' /\
    InputFile Samples.res_five "frame-0001.exr" = Returned first_exr /\
    forall sequence test number k dataset src,
      In (sequence, test, number) [(0, false, 0); (1, true, 0)] ->
      0 <= k < 2 ->
      In (dataset, src) frame_datasets ->
      exists exr arr,
        InputFile Samples.res_five (frame_file_name Samples.args2 sequence k)
        = Returned exr /\
        load_source exr (fst (get_image_dims (dataWindow first_exr)))
                    (snd (get_image_dims (dataWindow first_exr))) src
        = Returned arr /\
        stored f' ["A"; split_name test; "seq-" ++ zero_padded 3 number;
                   "frame-" ++ zero_padded 3 k; dataset]
        = Some (H5Dataset arr).
Proof.
  exact (datasets_hold_layers Samples.args2 [Samples.res_five] None [] tt []
           Samples.res_five eq_refl (or_introl eq_refl)
           ltac:(vm_compute; reflexivity)).
Defined.

Lemma frame_file_name_injective_witness : 1 = 1 /\ 0 = 0.
Proof.
  apply (frame_file_name_injective Samples.args2 1 0 1 0);
    [lia | lia | cbn; lia | cbn; lia | reflexivity].
Defined.

Lemma load_exr_layer_single_spec_witness :
  load_exr_layer_single (Samples.rendered 2 1 7) "Mist.Z" 2 1
  = Returned {| shape := [1; 2]; data := [7; 7] |} <->
  exists x,
    channel (Samples.rendered 2 1 7) "ViewLayer.Mist.Z" = Returned x /\
    Z.of_nat (List.length x) = 1 * 2 /\
    {| shape := [1; 2]; data := [7; 7] |} = {| shape := [1; 2]; data := x |}.
Proof.
  apply (load_exr_layer_single_spec (Samples.rendered 2 1 7) "Mist.Z" 2 1); lia.
Defined.

Lemma load_exr_layer_spec_witness :
  load_exr_layer (Samples.rendered 2 1 7) "Normal" 2 1 false true
  = Returned {| shape := [3; 1; 2]; data := [7; 7; 7; 7; 7; 7] |} <->
  exists r g b,
    channel (Samples.rendered 2 1 7) "ViewLayer.Normal.X" = Returned r /\
    channel (Samples.rendered 2 1 7) "ViewLayer.Normal.Y" = Returned g /\
    channel (Samples.rendered 2 1 7) "ViewLayer.Normal.Z" = Returned b /\
    Z.of_nat (List.length r) = 1 * 2 /\
    Z.of_nat (List.length g) = 1 * 2 /\
    Z.of_nat (List.length b) = 1 * 2 /\
    {| shape := [3; 1; 2]; data := [7; 7; 7; 7; 7; 7] |}
    = {| shape := [3; 1; 2]; data := (r ++ g ++ b)%list |}.
Proof.
  apply (load_exr_layer_spec (Samples.rendered 2 1 7) "Normal" 2 1 false true); lia.
Defined.

Lemma existing_output_refused_witness :
  result (main Samples.args2 (Directory [Samples.res_C]) (Some Samples.archive_AB))
    = Raised (SystemExit 1) /\
  archive (main Samples.args2 (Directory [Samples.res_C]) (Some Samples.archive_AB))
    = Some Samples.archive_AB /\
  parent_made (main Samples.args2 (Directory [Samples.res_C]) (Some Samples.archive_AB))
    = false /\
  stdout (main Samples.args2 (Directory [Samples.res_C]) (Some Samples.archive_AB))
    = [OutputExists].
Proof.
  exact (existing_output_refused Samples.args2 (Directory [Samples.res_C])
           Samples.archive_AB eq_refl eq_refl).
Defined.

Lemma negative_sequence_digits_abort_witness :
  result (main Samples.args_negative (Directory [Samples.res_five]) None)
    = Raised InvalidFormatSpecifier /\
  parent_made (main Samples.args_negative (Directory [Samples.res_five]) None) = true /\
  exists f',
    archive (main Samples.args_negative (Directory [Samples.res_five]) None) = Some f' /\
    paths f' = [["A"]; ["A"; "train"]; ["A"; "test"]] /\
    get_attr f' [] "total-frames" = Some 5.
Proof.
  apply (negative_sequence_digits_abort Samples.args_negative [Samples.res_five] None
           [] tt [] Samples.res_five []);
    [reflexivity | reflexivity | constructor | discriminate
     | vm_compute; reflexivity | reflexivity | repeat split; reflexivity
     | intros p []].
Defined.

End ArchiveFacts.

(** ** More on the material loop of the renderer driver *)
Module MaterialFacts.
Import Render RenderFacts.

(** *** Running the loop again *)

Lemma update_node_compose key f g ns :
  (forall n, name (g n) = name n) ->
  update_node key f (update_node key g ns) = update_node key (fun n => f (g n)) ns.
Proof.
  intros Hg. induction ns as [| n ns IH]; [reflexivity |].
  cbn. destruct (String.eqb (name n) key) eqn:E; cbn.
  - rewrite Hg, E. reflexivity.
  - rewrite E, IH. reflexivity.
Qed.

Lemma update_node_ext key f g ns :
  (forall n, f n = g n) -> update_node key f ns = update_node key g ns.
Proof.
  intros H. induction ns as [| n ns IH]; [reflexivity |].
  cbn. rewrite H, IH. reflexivity.
Qed.

Lemma set_input_idem socket v ins :
  set_input socket v (set_input socket v ins) = set_input socket v ins.
Proof.
  induction ins as [| i ins IH]; [reflexivity |].
  cbn. destruct (String.eqb (fst i) socket) eqn:E; cbn; rewrite E; [reflexivity |].
  rewrite IH. reflexivity.
Qed.

Lemma find_set_input_other k socket v ins :
  k <> socket ->
  find (fun i => String.eqb (fst i) k) (set_input socket v ins)
  = find (fun i => String.eqb (fst i) k) ins.
Proof.
  intros Hne. induction ins as [| i ins IH]; [reflexivity |].
  cbn. destruct (String.eqb_spec (fst i) socket) as [E | E]; cbn.
  - destruct (String.eqb_spec (fst i) k) as [E' | _]; [congruence | reflexivity].
  - rewrite IH. reflexivity.
Qed.

Lemma links_to_links_new_other src_node src_socket key socket key' socket' ls :
  socket' <> socket ->
  links_to key' socket' (links_new src_node src_socket key socket ls)
  = links_to key' socket' ls.
Proof.
  intros Hne. unfold links_to, links_new. rewrite filter_app. cbn.
  destruct (String.eqb_spec socket socket') as [E | _]; [congruence |].
  rewrite andb_false_r, app_nil_r.
  induction ls as [| l ls IH]; [reflexivity |].
  cbn. destruct (String.eqb_spec (to_socket l) socket) as [E | E]; cbn.
  - destruct (String.eqb (to_node l) key); cbn.
    + destruct (String.eqb_spec (to_socket l) socket') as [E' | _]; [congruence |].
      rewrite andb_false_r. exact IH.
    + rewrite IH. reflexivity.
  - rewrite andb_false_r. cbn. rewrite IH. reflexivity.
Qed.

Lemma links_new_idem src_node src_socket key socket ls :
  links_new src_node src_socket key socket (links_new src_node src_socket key socket ls)
  = links_new src_node src_socket key socket ls.
Proof.
  unfold links_new. rewrite filter_app. cbn. rewrite !String.eqb_refl. cbn.
  rewrite app_nil_r. f_equal.
  induction ls as [| l ls IH]; [reflexivity |].
  cbn. destruct (String.eqb (to_node l) key && String.eqb (to_socket l) socket) eqn:E;
    cbn; [exact IH |]. rewrite E. cbn. rewrite IH. reflexivity.
Qed.

Lemma get_some_name key ns n : get key ns = Some n -> name n = key.
Proof.
  unfold get. intros H. apply find_some in H as (_ & H). apply String.eqb_eq. exact H.
Qed.

(** X13: running the loop body again on its own result changes nothing: no
    second AOV node, no second link. *)
Theorem setup_material_idempotent m m' :
  setup_material m = Returned m' -> setup_material m' = Returned m'.
Proof.
  unfold setup_material at 1.
  destruct (use_nodes m) eqn:Huse; cbn [negb];
    [| intros [= <-]; unfold setup_material; rewrite Huse; reflexivity].
  set (nodes1 := match get "AOV Output" (nodes m) with
                 | Some _ => nodes m
                 | None => (nodes m ++ [new_aov_node])%list
                 end).
  set (named := fun n : node =>
                  {| name := name n; type := type n; aov_name := rough_pass_name;
                     inputs := inputs n |}).
  destruct (set_aov_name "AOV Output" rough_pass_name nodes1) as [e | nodes2'] eqn:Hset;
    [discriminate |].
  apply set_aov_name_returned in Hset as (Hnodes2 & aov1 & Haov1 & Htype1).
  fold named in Hnodes2. subst nodes2'.
  set (nodes2 := update_node "AOV Output" named nodes1).
  pose proof (get_update_node "AOV Output" named nodes1 aov1
                (fun x => eq_refl) Haov1) as Haov2.
  fold nodes2 in Haov2.
  assert (Hagain : update_node "AOV Output" named nodes2 = nodes2).
  { unfold nodes2. rewrite update_node_compose by reflexivity.
    apply update_node_ext. reflexivity. }
  (* the second run starts from a tree that has the node *)
  assert (Hstart : forall ns ls n,
             get "AOV Output" ns = Some n -> type n = "OUTPUT_AOV" ->
             setup_material (with_tree m ns ls)
             = let ns2 := update_node "AOV Output" named ns in
               match find (fun n => String.eqb (type n) "BSDF_PRINCIPLED") ns2 with
               | None => Returned (with_tree m ns2 ls)
               | Some bsdf_node =>
                   match input bsdf_node "Roughness" with
                   | Raised e => Raised e
                   | Returned roughness_default =>
                       let aov_value :=
                         match get "AOV Output" ns2 with
                         | Some aov_node => input aov_node "Value"
                         | None => Raised (KeyError "Value")
                         end in
                       match links_to (name bsdf_node) "Roughness" ls with
                       | l :: _ =>
                           match aov_value with
                           | Raised e => Raised e
                           | Returned _ =>
                               Returned (with_tree m ns2
                                 (links_new (from_node l) (from_socket l)
                                    "AOV Output" "Value" ls))
                           end
                       | [] =>
                           match aov_value with
                           | Raised e => Raised e
                           | Returned _ =>
                               Returned (with_tree m
                                 (set_default_value "AOV Output" "Value"
                                    roughness_default ns2) ls)
                           end
                       end
                   end
               end).
  { intros ns ls n Hget Htype. unfold setup_material.
    cbn [use_nodes nodes links with_tree].
    rewrite Huse. cbn [negb]. rewrite Hget.
    rewrite (set_aov_name_completes _ _ _ _ Hget Htype). reflexivity. }
  destruct (find (fun n => String.eqb (type n) "BSDF_PRINCIPLED") nodes2)
    as [bsdf_node |] eqn:Hfind.
  2:{ intros [= <-]. rewrite (Hstart _ _ _ Haov2 Htype1).
      cbv zeta. rewrite Hagain, Hfind. reflexivity. }
  destruct (input bsdf_node "Roughness") as [e | roughness_default] eqn:Hrough;
    [discriminate |].
  rewrite Haov2.
  destruct (input (named aov1) "Value") as [e | value] eqn:Hvalue.
  { destruct (links_to _ _ _); discriminate. }
  destruct (links_to (name bsdf_node) "Roughness" (links m)) as [| l ls] eqn:Hlinks.
  - (* constant roughness *)
    intros [= <-].
    set (valued := fun n : node =>
                     {| name := name n; type := type n; aov_name := aov_name n;
                        inputs := set_input "Value" roughness_default (inputs n) |}).
    change (set_default_value "AOV Output" "Value" roughness_default nodes2)
      with (update_node "AOV Output" valued nodes2).
    set (nodes3 := update_node "AOV Output" valued nodes2).
    pose proof (get_update_node "AOV Output" valued nodes2 _ (fun x => eq_refl) Haov2)
      as Haov3.
    fold nodes3 in Haov3.
    rewrite (Hstart _ _ _ Haov3 Htype1). cbv zeta.
    assert (Hagain3 : update_node "AOV Output" named nodes3 = nodes3).
    { unfold nodes3, nodes2. rewrite !update_node_compose by reflexivity.
      apply update_node_ext. reflexivity. }
    rewrite Hagain3.
    destruct (find_type_update_node "AOV Output" valued "BSDF_PRINCIPLED" nodes2
                bsdf_node (fun x => eq_refl) Hfind) as [Hf | Hf];
      fold nodes3 in Hf; rewrite Hf.
    + assert (Hin : input (if String.eqb (name bsdf_node) "AOV Output"
                           then valued bsdf_node else bsdf_node) "Roughness"
                    = Returned roughness_default).
      { destruct (String.eqb (name bsdf_node) "AOV Output"); [| exact Hrough].
        unfold input in *. cbn [inputs valued].
        rewrite find_set_input_other by discriminate. exact Hrough. }
      rewrite Hin.
      assert (Hnm : name (if String.eqb (name bsdf_node) "AOV Output"
                          then valued bsdf_node else bsdf_node) = name bsdf_node).
      { destruct (String.eqb (name bsdf_node) "AOV Output"); reflexivity. }
      rewrite Hnm, Hlinks, Haov3.
      assert (Hv : input (valued (named aov1)) "Value" = Returned roughness_default).
      { unfold input in Hvalue |- *. cbn [inputs valued named] in *.
        destruct (find (fun i => String.eqb (fst i) "Value") (inputs aov1))
          as [w |] eqn:Hw; [| discriminate].
        rewrite (input_set_input _ roughness_default _ _ Hw). reflexivity. }
      rewrite Hv. f_equal. f_equal.
      change (set_default_value "AOV Output" "Value" roughness_default nodes3)
        with (update_node "AOV Output" valued nodes3).
      unfold nodes3. rewrite update_node_compose by reflexivity.
      apply update_node_ext. intros n. unfold valued. cbn.
      rewrite set_input_idem. reflexivity.
    + rewrite Hrough, Hlinks, Haov3.
      assert (Hv : input (valued (named aov1)) "Value" = Returned roughness_default).
      { unfold input in Hvalue |- *. cbn [inputs valued named] in *.
        destruct (find (fun i => String.eqb (fst i) "Value") (inputs aov1))
          as [w |] eqn:Hw; [| discriminate].
        rewrite (input_set_input _ roughness_default _ _ Hw). reflexivity. }
      rewrite Hv. f_equal. f_equal.
      change (set_default_value "AOV Output" "Value" roughness_default nodes3)
        with (update_node "AOV Output" valued nodes3).
      unfold nodes3. rewrite update_node_compose by reflexivity.
      apply update_node_ext. intros n. unfold valued. cbn.
      rewrite set_input_idem. reflexivity.
  - (* linked roughness *)
    intros [= <-].
    rewrite (Hstart _ _ _ Haov2 Htype1). cbv zeta.
    rewrite Hagain, Hfind, Hrough, Haov2, Hvalue.
    rewrite links_to_links_new_other by discriminate.
    rewrite Hlinks, links_new_idem. reflexivity.
Qed.

(** *** What the loop leaves alone *)

Lemma map_name_update_node key f ns :
  (forall n, name (f n) = name n) ->
  map name (update_node key f ns) = map name ns.
Proof.
  intros Hf. induction ns as [| n ns IH]; [reflexivity |].
  cbn. destruct (String.eqb (name n) key); cbn; [rewrite Hf | rewrite IH]; reflexivity.
Qed.

Lemma In_update_node_other key f ns n :
  In n ns -> name n <> key -> In n (update_node key f ns).
Proof.
  intros Hin Hne. induction ns as [| x ns IH]; [contradiction |].
  cbn. destruct (String.eqb_spec (name x) key) as [E | E].
  - destruct Hin as [-> | Hin]; [contradiction | right; exact Hin].
  - destruct Hin as [-> | Hin]; [left; reflexivity | right; auto].
Qed.

Lemma filter_links_new src_node src_socket key socket ls :
  filter (fun l => negb (ends_in key socket l))
         (links_new src_node src_socket key socket ls)
  = filter (fun l => negb (ends_in key socket l)) ls.
Proof.
  unfold links_new, ends_in. rewrite filter_app. cbn. rewrite !String.eqb_refl. cbn.
  rewrite app_nil_r.
  induction ls as [| l ls IH]; [reflexivity |].
  cbn. destruct (String.eqb (to_node l) key && String.eqb (to_socket l) socket) eqn:E;
    cbn; [exact IH |]. rewrite E. cbn. rewrite IH. reflexivity.
Qed.

(** X14: the loop body keeps the material's name and its use of nodes, keeps
    every node not called [AOV Output] as it is, adds at most the one AOV
    node at the end, and keeps, in order, every link that does not end in
    the AOV node's [Value] input. *)
Theorem setup_material_preserves m m' :
  setup_material m = Returned m' ->
  material_name m' = material_name m /\
  use_nodes m' = use_nodes m /\
  map name (nodes m')
    = (map name (nodes m)
       ++ match get "AOV Output" (nodes m) with
          | Some _ => []
          | None => if use_nodes m then ["AOV Output"] else []
          end)%list /\
  (forall n, In n (nodes m) -> name n <> "AOV Output" -> In n (nodes m')) /\
  filter (fun l => negb (ends_in "AOV Output" "Value" l)) (links m')
    = filter (fun l => negb (ends_in "AOV Output" "Value" l)) (links m).
Proof.
  unfold setup_material.
  destruct (use_nodes m) eqn:Huse; cbn [negb].
  2:{ intros [= <-]. rewrite Huse. repeat split; auto.
      destruct (get "AOV Output" (nodes m)); rewrite app_nil_r; reflexivity. }
  set (nodes1 := match get "AOV Output" (nodes m) with
                 | Some _ => nodes m
                 | None => (nodes m ++ [new_aov_node])%list
                 end).
  assert (Hnames1 : map name nodes1
                    = (map name (nodes m)
                       ++ match get "AOV Output" (nodes m) with
                          | Some _ => []
                          | None => ["AOV Output"]
                          end)%list).
  { unfold nodes1. destruct (get "AOV Output" (nodes m)).
    - rewrite app_nil_r. reflexivity.
    - rewrite map_app. reflexivity. }
  assert (Hin1 : forall n, In n (nodes m) -> In n nodes1).
  { intros n Hn. unfold nodes1. destruct (get "AOV Output" (nodes m)); [exact Hn |].
    apply in_or_app. left. exact Hn. }
  destruct (set_aov_name "AOV Output" rough_pass_name nodes1) as [e | nodes2] eqn:Hset;
    [discriminate |].
  apply set_aov_name_returned in Hset as (-> & _).
  unfold set_default_value.
  intros H.
  assert (Hshape : exists ns ls,
             m' = with_tree m ns ls /\
             map name ns = map name nodes1 /\
             (forall n, In n nodes1 -> name n <> "AOV Output" -> In n ns) /\
             filter (fun l => negb (ends_in "AOV Output" "Value" l)) ls
             = filter (fun l => negb (ends_in "AOV Output" "Value" l)) (links m)).
  { destruct (find _ _) as [bsdf_node |].
    - destruct (input bsdf_node "Roughness") as [e | v]; [discriminate |].
      destruct (links_to _ _ _) as [| l ls];
        destruct (match get "AOV Output" _ with
                  | Some aov_node => input aov_node "Value"
                  | None => Raised (KeyError "Value")
                  end);
        try discriminate; injection H as <-; eexists _, _; (split; [reflexivity |]).
      + split; [rewrite !map_name_update_node by reflexivity; reflexivity |].
        split; [| reflexivity].
        intros n Hn Hne. apply In_update_node_other; [| exact Hne].
        apply In_update_node_other; assumption.
      + split; [rewrite map_name_update_node by reflexivity; reflexivity |].
        split; [| apply filter_links_new].
        intros n Hn Hne. apply In_update_node_other; assumption.
    - injection H as <-. eexists _, _. split; [reflexivity |].
      split; [rewrite map_name_update_node by reflexivity; reflexivity |].
      split; [| reflexivity].
      intros n Hn Hne. apply In_update_node_other; assumption. }
  destruct Hshape as (ns & ls & -> & Hnames & Hin & Hlinks).
  cbn [with_tree material_name use_nodes nodes links].
  repeat split; auto. rewrite Hnames, Hnames1. reflexivity.
Qed.

(** *** When the loop fails *)

Lemma find_in_type ty ns b :
  find (fun n => String.eqb (type n) ty) ns = Some b -> In b ns /\ type b = ty.
Proof.
  intros H. apply find_some in H as (Hin & E). apply String.eqb_eq in E. auto.
Qed.

Lemma find_snoc_other {A} (p : A -> bool) l x :
  p x = false -> find p (l ++ [x]) = find p l.
Proof.
  intros Hx. induction l as [| y l IH]; cbn; [rewrite Hx; reflexivity |].
  destruct (p y); auto.
Qed.

Lemma setup_material_total m :
  (use_nodes m = true ->
   forall n, In n (nodes m) -> type n = "BSDF_PRINCIPLED" ->
             exists v, input n "Roughness" = Returned v) ->
  (use_nodes m = true ->
   forall n, get "AOV Output" (nodes m) = Some n ->
             type n = "OUTPUT_AOV" /\ exists v, input n "Value" = Returned v) ->
  exists m', setup_material m = Returned m'.
Proof.
  intros Hrough Hvalue. unfold setup_material.
  destruct (use_nodes m); cbn [negb]; [| eauto].
  specialize (Hrough eq_refl). specialize (Hvalue eq_refl).
  set (nodes1 := match get "AOV Output" (nodes m) with
                 | Some _ => nodes m
                 | None => (nodes m ++ [new_aov_node])%list
                 end).
  set (named := fun n : node =>
                  {| name := name n; type := type n; aov_name := rough_pass_name;
                     inputs := inputs n |}).
  assert (Haov1 : exists aov1 v, get "AOV Output" nodes1 = Some aov1 /\
                                 type aov1 = "OUTPUT_AOV" /\
                                 input aov1 "Value" = Returned v).
  { unfold nodes1. destruct (get "AOV Output" (nodes m)) as [n |] eqn:E.
    - destruct (Hvalue n eq_refl) as (Hty & v & Hv). exists n, v. auto.
    - exists new_aov_node, (VFloat 0). split; [| split; reflexivity].
      apply get_app_new; [exact E | reflexivity]. }
  destruct Haov1 as (aov1 & v1 & Haov1 & Htype1 & Hv1).
  rewrite (set_aov_name_completes _ _ _ _ Haov1 Htype1). fold named.
  pose proof (get_update_node "AOV Output" named nodes1 aov1
                (fun x => eq_refl) Haov1) as Haov2.
  rewrite Haov2. rewrite (input_same_inputs aov1 (named aov1) "Value" eq_refl), Hv1.
  destruct (find (fun n => String.eqb (type n) "BSDF_PRINCIPLED")
                 (update_node "AOV Output" named nodes1)) as [b2 |] eqn:Hfind2;
    [| eauto].
  assert (Hb2 : exists b, In b (nodes m) /\ type b = "BSDF_PRINCIPLED" /\
                          inputs b2 = inputs b).
  { destruct (find (fun n => String.eqb (type n) "BSDF_PRINCIPLED") nodes1)
      as [b |] eqn:Hfind1.
    - assert (Hb : In b (nodes m) /\ type b = "BSDF_PRINCIPLED").
      { unfold nodes1 in Hfind1. destruct (get "AOV Output" (nodes m)).
        - apply find_in_type. exact Hfind1.
        - rewrite find_snoc_other in Hfind1 by reflexivity.
          apply find_in_type. exact Hfind1. }
      exists b. split; [apply Hb |]. split; [apply Hb |].
      destruct (find_type_update_node "AOV Output" named "BSDF_PRINCIPLED" nodes1 b
                  (fun x => eq_refl) Hfind1) as [H | H];
        rewrite H in Hfind2; injection Hfind2 as <-; [| reflexivity].
      destruct (String.eqb (name b) "AOV Output"); reflexivity.
    - exfalso. clear -Hfind1 Hfind2. revert Hfind2.
      induction nodes1 as [| x ns IH]; cbn in *; [discriminate |].
      destruct (String.eqb (type x) "BSDF_PRINCIPLED") eqn:Et; [discriminate |].
      destruct (String.eqb (name x) "AOV Output"); cbn; rewrite Et; auto.
      intros H. rewrite Hfind1 in H. discriminate. }
  destruct Hb2 as (b & Hin & Hty & Hinputs).
  destruct (Hrough b Hin Hty) as [v Hv].
  rewrite (input_same_inputs b b2 "Roughness" Hinputs), Hv.
  destruct (links_to (name b2) "Roughness" (links m)); eauto.
Qed.

Lemma setup_materials_all scene :
  (forall m, In m scene -> exists m', setup_material m = Returned m') ->
  exists scene',
    setup_materials scene = Returned scene' /\
    Forall2 (fun m m' => setup_material m = Returned m') scene scene'.
Proof.
  induction scene as [| m scene IH]; intros H.
  - exists []. split; [reflexivity | constructor].
  - destruct (H m (or_introl eq_refl)) as [m' Hm'].
    destruct (IH (fun x Hx => H x (or_intror Hx))) as (rest' & Hrest & Hall).
    exists (m' :: rest'). cbn. rewrite Hm', Hrest. split; [reflexivity |].
    constructor; assumption.
Qed.

Lemma setup_material_name m m' :
  setup_material m = Returned m' -> material_name m' = material_name m.
Proof.
  unfold setup_material. destruct (negb (use_nodes m)); [intros [= <-]; reflexivity |].
  destruct (set_aov_name _ _ _) as [e | nodes2]; [discriminate |].
  destruct (find _ _) as [bsdf_node |]; [| intros [= <-]; reflexivity].
  destruct (input bsdf_node "Roughness"); [discriminate |].
  destruct (links_to _ _ _);
    destruct (match get "AOV Output" _ with
              | Some aov_node => input aov_node "Value"
              | None => Raised (KeyError "Value")
              end); try discriminate; intros [= <-]; reflexivity.
Qed.

Lemma setup_materials_names scene scene' :
  Forall2 (fun m m' => setup_material m = Returned m') scene scene' ->
  map material_name scene' = map material_name scene.
Proof.
  induction 1 as [| m m' ms ms' Hm _ IH]; [reflexivity |].
  cbn. rewrite IH, (setup_material_name _ _ Hm). reflexivity.
Qed.

(** X15: on a scene where, in every material that uses nodes, every
    Principled BSDF node has a [Roughness] input holding a float and the
    node already called [AOV Output], if any, is an AOV output node with a
    [Value] input holding a float, the loop runs through, and leaves as many
    materials, under the same names in the same order. *)
Theorem setup_materials_succeeds scene :
  (forall m n, In m scene -> use_nodes m = true ->
               In n (nodes m) -> type n = "BSDF_PRINCIPLED" ->
               exists r, input n "Roughness" = Returned (VFloat r)) ->
  (forall m n, In m scene -> use_nodes m = true ->
               get "AOV Output" (nodes m) = Some n ->
               type n = "OUTPUT_AOV" /\
               exists v, input n "Value" = Returned (VFloat v)) ->
  exists scene',
    setup_materials scene = Returned scene' /\
    Forall2 (fun m m' => setup_material m = Returned m') scene scene' /\
    map material_name scene' = map material_name scene.
Proof.
  intros Hrough Hvalue.
  destruct (setup_materials_all scene) as (scene' & Hrun & Hall).
  { intros m Hm. apply setup_material_total; intros Huse n.
    - intros Hn Hty. destruct (Hrough m n Hm Huse Hn Hty) as [r Hr]. eauto.
    - intros Hget. destruct (Hvalue m n Hm Huse Hget) as (Hty & v & Hv). eauto. }
  exists scene'. split; [exact Hrun |]. split; [exact Hall |].
  apply setup_materials_names. exact Hall.
Qed.

(** *** The theorems at concrete inputs *)

Lemma setup_material_idempotent_witness :
  setup_material Samples.textured_after = Returned Samples.textured_after.
Proof.
  apply (setup_material_idempotent Samples.textured). vm_compute. reflexivity.
Defined.

Lemma setup_material_preserves_witness :
  material_name Samples.textured_after = material_name Samples.textured /\
  use_nodes Samples.textured_after = use_nodes Samples.textured /\
  map name (nodes Samples.textured_after)
    = (map name (nodes Samples.textured)
       ++ match get "AOV Output" (nodes Samples.textured) with
          | Some _ => []
          | None => if use_nodes Samples.textured then ["AOV Output"] else []
          end)%list /\
  (forall n, In n (nodes Samples.textured) -> name n <> "AOV Output" ->
             In n (nodes Samples.textured_after)) /\
  filter (fun l => negb (ends_in "AOV Output" "Value" l)) (links Samples.textured_after)
    = filter (fun l => negb (ends_in "AOV Output" "Value" l)) (links Samples.textured).
Proof.
  apply (setup_material_preserves Samples.textured). vm_compute. reflexivity.
Defined.

Lemma setup_materials_succeeds_witness :
  exists scene',
    setup_materials (Samples.textured_after :: Samples.scene) = Returned scene' /\
    Forall2 (fun m m' => setup_material m = Returned m')
            (Samples.textured_after :: Samples.scene) scene' /\
    map material_name scene'
    = map material_name (Samples.textured_after :: Samples.scene).
Proof.
  apply (setup_materials_succeeds (Samples.textured_after :: Samples.scene)).
  - intros m n Hm _ Hn Hty. cbn in Hm.
    destruct Hm as [<- | [<- | [<- | [<- | []]]]]; vm_compute in Hn;
      repeat (destruct Hn as [<- | Hn]; [first [discriminate Hty | eexists; reflexivity] |]);
      contradiction.
  - intros m n Hm _ Hget. cbn in Hm.
    destruct Hm as [<- | [<- | [<- | [<- | []]]]]; vm_compute in Hget;
      first [discriminate Hget | injection Hget as <-; split; [| eexists]; reflexivity].
Defined.

End MaterialFacts.

(** ** The frame loop of the renderer driver, and its output folder as the
    packager's input *)
Module FrameLoopFacts.
Import PyFormat Package Expected PackageFacts ArchiveFacts.

(** *** The frame loop *)

Lemma In_range_from start stop k :
  In k (range_from start stop) <-> start <= k < stop.
Proof.
  unfold range_from. rewrite in_map_iff. split.
  - intros (i & <- & Hi). apply In_range in Hi. lia.
  - intros H. exists (k - start). split; [lia |]. apply In_range. lia.
Qed.

Lemma NoDup_range_from start stop : NoDup (range_from start stop).
Proof.
  unfold range_from. apply NoDup_map_inj; [| apply NoDup_range].
  intros x y _ _ H. lia.
Qed.

Lemma parse_minus s : parse_digits ("-" ++ s) = None.
Proof.
  unfold parse_digits. change ("-" ++ s) with (String "-"%char s).
  simpl. destruct (NilEmpty.uint_of_string s); reflexivity.
Qed.

Lemma zero_padded_parse width n :
  0 <= n -> parse_digits (zero_padded width n) = Some (Z.abs_N n).
Proof.
  intros Hn. unfold zero_padded. destruct (Z.ltb_spec n 0); [lia |].
  simpl. rewrite parse_zeros. apply parse_digits_digits.
Qed.

Lemma zero_padded_negative width n :
  n < 0 ->
  exists k, zero_padded width n = "-" ++ zeros k ++ digits (Z.abs_N n).
Proof.
  intros Hn. unfold zero_padded. destruct (Z.ltb_spec n 0); [| lia]. eauto.
Qed.

Lemma zero_padded_injective width n m :
  zero_padded width n = zero_padded width m -> n = m.
Proof.
  intros H.
  destruct (Z.lt_ge_cases n 0) as [Hn | Hn], (Z.lt_ge_cases m 0) as [Hm | Hm].
  - destruct (zero_padded_negative width n Hn) as [k Hk].
    destruct (zero_padded_negative width m Hm) as [k' Hk'].
    rewrite Hk, Hk' in H. cbn [append] in H. injection H as H.
    apply (f_equal parse_digits) in H.
    rewrite !parse_zeros, !parse_digits_digits in H. injection H as H. lia.
  - exfalso. apply (f_equal parse_digits) in H.
    destruct (zero_padded_negative width n Hn) as [k Hk].
    rewrite Hk, parse_minus, zero_padded_parse in H by assumption. discriminate.
  - exfalso. apply (f_equal parse_digits) in H.
    destruct (zero_padded_negative width m Hm) as [k Hk].
    rewrite Hk, parse_minus, zero_padded_parse in H by assumption. discriminate.
  - apply (zero_padded_inj width); assumption.
Qed.

(** X16: the frame loop renders exactly the frames from the first to the last
    (the scene's own unless the argument is given and not 0), each once, in
    ascending order, and writes each to a file of its own: no frame's image
    overwrites another's, also beyond four digits and for negative frame
    numbers. *)
Theorem frames_rendered_once scene_frame_start scene_frame_end frame_start frame_end :
  let start_frame := if frame_start =? 0 then scene_frame_start else frame_start in
  let end_frame := if frame_end =? 0 then scene_frame_end else frame_end in
  let frames :=
    Render.frames_to_render scene_frame_start scene_frame_end frame_start frame_end in
  (forall k, In k frames <-> start_frame <= k <= end_frame) /\
  frames = map (fun i => start_frame + i) (range (Z.of_nat (List.length frames))) /\
  NoDup (map Render.filepath frames).
Proof.
  cbv zeta. unfold Render.frames_to_render.
  set (start_frame := if frame_start =? 0 then scene_frame_start else frame_start).
  set (end_frame := if frame_end =? 0 then scene_frame_end else frame_end).
  split; [| split].
  - intros k. rewrite In_range_from. lia.
  - unfold range_from. rewrite length_map.
    destruct (Z.le_gt_cases 0 (end_frame + 1 - start_frame)) as [H | H].
    + rewrite length_range by exact H. reflexivity.
    + rewrite range_nonpositive by lia. reflexivity.
  - apply NoDup_map_inj; [| apply NoDup_range_from].
    intros x y _ _ H. unfold Render.filepath in H. cbn [append] in H.
    injection H as H. apply (zero_padded_injective 4). exact H.
Qed.

(** *** From the renderer's output folder to the packager *)

Lemma substring_append n s t :
  substring (String.length s) n (s ++ t) = substring 0 n t.
Proof. induction s as [| c s IH]; [reflexivity | exact IH]. Qed.

Lemma has_suffix_append suffix s : has_suffix suffix (s ++ suffix) = true.
Proof.
  unfold has_suffix. rewrite length_append.
  replace (String.length s + String.length suffix - String.length suffix)%nat
    with (String.length s) by lia.
  rewrite substring_append.
  assert (H : forall t, substring 0 (String.length t) t = t).
  { induction t as [| c t IH]; [reflexivity |]. cbn. rewrite IH. reflexivity. }
  rewrite H, String.eqb_refl, andb_true_r. apply Nat.leb_le. lia.
Qed.

Lemma rendered_file_inj x y : Render.rendered_file x = Render.rendered_file y -> x = y.
Proof.
  unfold Render.rendered_file, Render.filepath. intros H. apply append_cancel_r in H.
  cbn [append] in H. injection H as H. apply (zero_padded_injective 4). exact H.
Qed.

Lemma existsb_rendered (render : Z -> exr_file) frames k :
  ~ In k frames ->
  existsb (fun e => String.eqb (fst e) (Render.rendered_file k))
          (map (fun j => (Render.rendered_file j, Some (render j))) frames) = false.
Proof.
  intros Hk. induction frames as [| j frames IH]; [reflexivity |].
  cbn [existsb find map fst]. destruct (String.eqb_spec (Render.rendered_file j) (Render.rendered_file k)) as [E | _]; cbn [orb].
  - exfalso. apply Hk. left. apply rendered_file_inj. exact E.
  - apply IH. intros H. apply Hk. right. exact H.
Qed.

Lemma render_frames_fresh (render : Z -> exr_file) frames : forall done,
  NoDup (done ++ frames)%list ->
  Render.render_frames render frames (map (fun j => (Render.rendered_file j, Some (render j))) done)
  = map (fun j => (Render.rendered_file j, Some (render j))) (done ++ frames)%list.
Proof.
  induction frames as [| k frames IH]; intros done Hnd.
  - rewrite app_nil_r. reflexivity.
  - cbn [Render.render_frames fold_left]. unfold Render.write_still.
    rewrite existsb_rendered.
    + change [(Render.rendered_file k, Some (render k))]
        with (map (fun j => (Render.rendered_file j, Some (render j))) [k]).
      rewrite <- map_app.
      replace (done ++ k :: frames)%list with ((done ++ [k]) ++ frames)%list
        by (rewrite <- app_assoc; reflexivity).
      apply (IH (done ++ [k])%list). rewrite <- app_assoc. exact Hnd.
    + apply NoDup_remove_2 in Hnd. intros H. apply Hnd. apply in_or_app. left. exact H.
Qed.

Lemma find_rendered (render : Z -> exr_file) frames k :
  In k frames ->
  find (fun e => String.eqb (fst e) (Render.rendered_file k))
       (map (fun j => (Render.rendered_file j, Some (render j))) frames)
  = Some (Render.rendered_file k, Some (render k)).
Proof.
  induction frames as [| j frames IH]; [contradiction |].
  intros Hin. cbn [find map fst]. destruct (String.eqb_spec (Render.rendered_file j) (Render.rendered_file k)) as [E | E].
  - apply rendered_file_inj in E. subst. reflexivity.
  - destruct Hin as [-> | Hin]; [contradiction | auto].
Qed.

Lemma find_not_rendered (render : Z -> exr_file) frames k :
  ~ In k frames ->
  find (fun e => String.eqb (fst e) (Render.rendered_file k))
       (map (fun j => (Render.rendered_file j, Some (render j))) frames) = None.
Proof.
  intros Hk. induction frames as [| j frames IH]; [reflexivity |].
  cbn [existsb find map fst]. destruct (String.eqb_spec (Render.rendered_file j) (Render.rendered_file k)) as [E | _]; cbn [orb].
  - exfalso. apply Hk. left. apply rendered_file_inj. exact E.
  - apply IH. intros H. apply Hk. right. exact H.
Qed.

Lemma frame_file_name_rendered a s k :
  frame_file_name a s k = Render.rendered_file (k + frames_per_sequence a * s + 1).
Proof.
  unfold frame_file_name, Render.rendered_file, Render.filepath. reflexivity.
Qed.

Lemma rendered_folder (render : Z -> exr_file) frames :
  NoDup frames ->
  Render.render_frames render frames []
  = map (fun j => (Render.rendered_file j, Some (render j))) frames.
Proof. intros Hnd. apply (render_frames_fresh render frames []). exact Hnd. Qed.

Lemma rendered_folder_count (render : Z -> exr_file) frames :
  List.length (filter (fun e => has_suffix ".exr" (fst e))
                 (map (fun j => (Render.rendered_file j, Some (render j))) frames))
  = List.length frames.
Proof.
  induction frames as [| j frames IH]; [reflexivity |].
  cbn [map filter fst]. unfold Render.rendered_file at 1. rewrite has_suffix_append.
  cbn [List.length]. rewrite IH. reflexivity.
Qed.

(** X17: the folder the frame loop writes, read by the packager.  The
    packager counts as many frames as were rendered.  When rendering starts
    at frame 1, every image the packager looks up for the complete
    sequences is the one rendered for that frame, and the resolution is
    ready to be packaged once each image loads with the dimensions of the
    first; when rendering starts later, the packager's first lookup,
    [frame-0001.exr], is not there. *)
Theorem rendered_folder_packaged (render : Z -> exr_file) a resolution
  scene_frame_start scene_frame_end frame_start frame_end :
  let start_frame := if frame_start =? 0 then scene_frame_start else frame_start in
  let end_frame := if frame_end =? 0 then scene_frame_end else frame_end in
  let subdir :=
    {| name := resolution; is_dir := true;
       contents :=
         Render.render_frames render
           (Render.frames_to_render scene_frame_start scene_frame_end frame_start frame_end)
           [] |} in
  let P := frames_per_sequence a in
  let dims := get_image_dims (dataWindow (render 1)) in
  peak_frame_count subdir = Z.max 0 (end_frame - start_frame + 1) /\
  (start_frame = 1 -> 0 < P ->
   (forall s k, 0 <= s < peak_frame_count subdir / P -> 0 <= k < P ->
      InputFile subdir (frame_file_name a s k) = Returned (render (k + P * s + 1))) /\
   (1 <= end_frame ->
    (forall k, 1 <= k <= end_frame -> loadable (render k) dims) ->
    frames_available a (peak_frame_count subdir / P) subdir dims)) /\
  (1 < start_frame ->
   InputFile subdir (frame_file_name a 0 0) = Raised (CannotOpenExr "frame-0001.exr")).
Proof.
  intros start_frame end_frame subdir P dims.
  assert (Hcontents : contents subdir
                      = map (fun j => (Render.rendered_file j, Some (render j)))
                            (range_from start_frame (end_frame + 1))).
  { apply rendered_folder, NoDup_range_from. }
  assert (Hcount : peak_frame_count subdir = Z.max 0 (end_frame - start_frame + 1)).
  { unfold peak_frame_count. rewrite Hcontents, rendered_folder_count.
    unfold range_from. rewrite length_map.
    destruct (Z.le_gt_cases 0 (end_frame + 1 - start_frame)) as [H | H].
    - rewrite length_range by exact H. lia.
    - rewrite range_nonpositive by lia. cbn. lia. }
  assert (Hlookup : forall k, start_frame <= k <= end_frame ->
                              InputFile subdir (Render.rendered_file k) = Returned (render k)).
  { intros k Hk. unfold InputFile. rewrite Hcontents, find_rendered; [reflexivity |].
    apply In_range_from. lia. }
  split; [exact Hcount | split].
  - intros Hstart HP.
    assert (Hin : forall s k, 0 <= s < peak_frame_count subdir / P -> 0 <= k < P ->
                              start_frame <= k + P * s + 1 <= end_frame).
    { intros s k Hs Hk. rewrite Hcount in Hs.
      assert (Hpos : 0 < end_frame - start_frame + 1).
      { destruct (Z.max_spec 0 (end_frame - start_frame + 1)) as [[H _] | [_ E]];
          [exact H |].
        rewrite E, Z.div_0_l in Hs by lia. lia. }
      rewrite Z.max_r in Hs by lia.
      pose proof (Z.mul_div_le (end_frame - start_frame + 1) P HP).
      assert (P * (s + 1) <= P * ((end_frame - start_frame + 1) / P)) by nia.
      rewrite Hstart in *. nia. }
    split.
    + intros s k Hs Hk. rewrite frame_file_name_rendered. apply Hlookup, Hin; assumption.
    + intros Hend Hload. split.
      * exists (render 1). split; [| reflexivity].
        rewrite frame_file_name_rendered.
        replace (0 + frames_per_sequence a * 0 + 1) with 1 by lia.
        apply Hlookup. lia.
      * intros s k Hs Hk. apply In_range in Hs, Hk.
        exists (render (k + P * s + 1)). split.
        -- rewrite frame_file_name_rendered. apply Hlookup, Hin; assumption.
        -- apply Hload. specialize (Hin s k Hs Hk). lia.
  - intros Hstart. rewrite frame_file_name_rendered.
    replace (0 + frames_per_sequence a * 0 + 1) with 1 by lia.
    unfold InputFile. rewrite Hcontents, find_not_rendered; [reflexivity |].
    rewrite In_range_from. lia.
Qed.

(** *** The theorems at concrete inputs *)

Lemma rendered_folder_packaged_witness :
  peak_frame_count Samples.rendered_five = 5 /\
  frames_available Samples.args2 (peak_frame_count Samples.rendered_five / 2)
    Samples.rendered_five (1, 1).
Proof.
  destruct (rendered_folder_packaged Samples.render_small Samples.args2 "A" 1 5 0 0)
    as (Hcount & Hfirst & _).
  split; [exact Hcount |].
  destruct (Hfirst eq_refl ltac:(reflexivity)) as (_ & Hready).
  apply Hready; [cbn; lia |].
  intros k _. apply small_frame_loadable.
Defined.

End FrameLoopFacts.
